(** * SQRS — Smart Queue Routing System: a shallow embedding of the matching
    engine (backend/ml/routing_predictor.py, backend/services/routing_engine.py),
    of the data store (backend/services/data_store.py over
    backend/database/db_manager.py) and of the routing endpoints of
    backend/app.py, with the properties of the specification stated and
    settled against it.

    Conventions.
    - A Python [float] is an IEEE-754 binary64 number: Rocq's primitive
      [float], whose operations round to nearest-even exactly as CPython's do.
    - A Python [int] is a [Z]; a list index is a [nat]. The float of an
      [int] and the quotient of two [int]s are correctly rounded; where
      Python raises [OverflowError] for them the value is an infinity.
    - A Python [dict] is an association list in insertion order ([Dict]),
      because [list(d.values())] is observable (queue order).
    - Objects are identified with the dictionary slot that holds them: every
      mutation in the source reaches its object through the store
      ([get_agent] caches the object it returns under its id).
    - Wall-clock values ([created_at], [last_updated], [timestamp]) are not
      modelled; values drawn from [uuid4] and [random] are taken as inputs. *)

From Stdlib Require Import List ZArith Bool String Floats Uint63 Lia.
From Stdlib Require Import Permutation Sorted.
Import ListNotations.
Set Warnings "-inexact-float".

(* ================================================================== *)
(** ** Python builtins used by the sources *)

Module Py.

(** [min(a, b)] on two arguments: the first is kept unless the second is
    strictly smaller. *)
Definition min (a b : float) : float := if PrimFloat.ltb b a then b else a.

(** [max(a, b)]: the first is kept unless the second is strictly greater. *)
Definition max (a b : float) : float := if PrimFloat.ltb a b then b else a.

(** An [int] as a floating-point number of unbounded precision. *)
Definition spec_of_int (n : Z) : spec_float :=
  match n with
  | Z0 => S754_zero false
  | Zpos p => S754_finite false p 0
  | Zneg p => S754_finite true p 0
  end.

(** [float(n)] for an [int] of any size: the nearest double, ties to even.
    Beyond the range of the doubles Python raises [OverflowError]; the
    value here is then an infinity, which no [int] converts to. *)
Definition float_of_int (n : Z) : float :=
  SF2Prim (binary_normalize prec emax n 0 false).

(** [a / b] on two [int]s of any size (true division): the double nearest
    to the exact quotient, ties to even. Where the quotient is beyond the
    range of the doubles Python raises [OverflowError]; the value here is
    then an infinity, which no quotient of two [int]s is ([b] is never 0
    where the sources divide). *)
Definition truediv (a b : Z) : float :=
  SF2Prim (SFdiv prec emax (spec_of_int a) (spec_of_int b)).

(** The [int] operation that produced [x] raised [OverflowError]. *)
Definition overflowed (x : float) : bool := PrimFloat.is_infinity x.

(** [x in xs] for a list of [str]. *)
Definition str_in (x : string) (xs : list string) : bool :=
  existsb (String.eqb x) xs.

(** [any(...)] over a generator. *)
Definition any {A} (p : A -> bool) (xs : list A) : bool := existsb p xs.

End Py.

(** Insertion-ordered dictionaries with [str] keys. *)
Module Dict.

Definition t (V : Type) := list (string * V).

Fixpoint get {V} (d : t V) (k : string) : option V :=
  match d with
  | [] => None
  | (k', v) :: d' => if String.eqb k k' then Some v else get d' k
  end.

Definition mem {V} (d : t V) (k : string) : bool :=
  match get d k with Some _ => true | None => false end.

(** [d[k] = v]: an existing key keeps its position. *)
Fixpoint set {V} (d : t V) (k : string) (v : V) : t V :=
  match d with
  | [] => [(k, v)]
  | (k', v') :: d' =>
      if String.eqb k k' then (k', v) :: d' else (k', v') :: set d' k v
  end.

(** [del d[k]] (the callers test membership first). *)
Fixpoint del {V} (d : t V) (k : string) : t V :=
  match d with
  | [] => []
  | (k', v') :: d' => if String.eqb k k' then d' else (k', v') :: del d' k
  end.

Definition values {V} (d : t V) : list V := map snd d.
Definition keys {V} (d : t V) : list string := map fst d.

(** [d.update(other)]. *)
Definition update {V} (d other : t V) : t V :=
  fold_left (fun acc kv => set acc (fst kv) (snd kv)) other d.

End Dict.

(* ================================================================== *)
(** ** models/data_models.py *)

Inductive Sentiment := positive | neutral | negative.
Inductive Tier := premium | standard | basic.
Inductive Channel := chat | voice | phone | email.
Inductive AgentStatus := available | busy | offline.
Inductive ResultStatus := pending | active | completed.

Definition AgentStatus_eqb (a b : AgentStatus) : bool :=
  match a, b with
  | available, available | busy, busy | offline, offline => true
  | _, _ => false
  end.

Definition ResultStatus_eqb (a b : ResultStatus) : bool :=
  match a, b with
  | pending, pending | active, active | completed, completed => true
  | _, _ => false
  end.

Module Customer.
Record t := mk {
  id : string;
  name : string;
  sentiment : Sentiment;
  tier : Tier;
  issue_type : string;
  issue_complexity : float;
  channel : Channel;
  wait_time : Z;
  priority : Z;
  context : list (string * string)
}.

Definition set_issue_complexity (c : t) (x : float) : t :=
  mk (id c) (name c) (sentiment c) (tier c) (issue_type c) x
     (channel c) (wait_time c) (priority c) (context c).

Definition set_context (c : t) (x : list (string * string)) : t :=
  mk (id c) (name c) (sentiment c) (tier c) (issue_type c)
     (issue_complexity c) (channel c) (wait_time c) (priority c) x.
End Customer.

Module Agent.
Record t := mk {
  id : string;
  name : string;
  specialty : list string;
  experience : float;
  avg_handling_time : float;
  past_success_rate : float;
  current_workload : Z;
  max_concurrent : Z;
  status : AgentStatus;
  skills : list (string * float)
}.

Definition set_current_workload (a : t) (w : Z) : t :=
  mk (id a) (name a) (specialty a) (experience a) (avg_handling_time a)
     (past_success_rate a) w (max_concurrent a) (status a) (skills a).

Definition set_status (a : t) (s : AgentStatus) : t :=
  mk (id a) (name a) (specialty a) (experience a) (avg_handling_time a)
     (past_success_rate a) (current_workload a) (max_concurrent a) s
     (skills a).

Definition set_skills (a : t) (s : list (string * float)) : t :=
  mk (id a) (name a) (specialty a) (experience a) (avg_handling_time a)
     (past_success_rate a) (current_workload a) (max_concurrent a)
     (status a) s.
End Agent.

(* ================================================================== *)
(** ** ml/routing_predictor.py *)

Module RoutingScorePredictor.

Local Open Scope float_scope.

(** The [related_matches] literal of [_calculate_specialty_match], keyed by
    the customer's issue type. *)
Definition related_matches : Dict.t (list string) :=
  [ ("technical_support"%string, ["product_inquiry"%string]);
    ("billing"%string, ["account_management"%string]);
    ("sales"%string, ["product_inquiry"%string]);
    ("account_management"%string, ["billing"%string]);
    ("product_inquiry"%string, ["technical_support"%string; "sales"%string]);
    ("complaint_resolution"%string, ["account_management"%string]) ].

Definition _calculate_specialty_match (agent : Agent.t) (customer : Customer.t)
  : float :=
  match Agent.specialty agent with
  | [] => 0.3
  | _ :: _ =>
      if Py.str_in (Customer.issue_type customer) (Agent.specialty agent)
      then 0.9
      else
        let related :=
          match Dict.get related_matches (Customer.issue_type customer) with
          | Some l => l
          | None => []
          end in
        if Py.any (fun spec => Py.str_in spec (Agent.specialty agent)) related
        then 0.6
        else 0.2
  end.

(** The summands of [_fallback_rule_based_score], in source order. *)
Definition sentiment_bonus (customer : Customer.t) : float :=
  match Customer.sentiment customer with
  | negative => -0.2
  | neutral => 0.0
  | positive => 0.1
  end.

Definition tier_bonus (customer : Customer.t) : float :=
  match Customer.tier customer with
  | basic => -0.05
  | standard => 0.0
  | premium => 0.1
  end.

Definition normalized_complexity (customer : Customer.t) : float :=
  (Customer.issue_complexity customer - 1) / 4.

Definition experience_bonus (agent : Agent.t) : float :=
  Py.min 0.2 (Agent.experience agent * 0.05).

Definition workload_ratio (agent : Agent.t) : float :=
  Py.truediv (Agent.current_workload agent)
             (Z.max (Agent.max_concurrent agent) 1).

Definition _fallback_rule_based_score (customer : Customer.t) (agent : Agent.t)
  : float :=
  let score := 0.5 in
  let score := score + sentiment_bonus customer in
  let score := score + tier_bonus customer in
  let score := score - normalized_complexity customer * 0.3 in
  let specialty_match := _calculate_specialty_match agent customer in
  let score := score + specialty_match * 0.4 in
  let score := score + experience_bonus agent in
  let score := score + (Agent.past_success_rate agent - 0.5) * 0.3 in
  let score := score - workload_ratio agent * 0.2 in
  Py.max 0.1 (Py.min 0.9 score).

(** The learned model and its scaler are an external artifact: [None] when
    the pickle files are absent or fail to load; otherwise a function that
    yields a probability or raises ([None]). *)
Definition Model := Customer.t -> Agent.t -> option float.

Definition predict_routing_score (model : option Model)
           (customer : Customer.t) (agent : Agent.t) : float :=
  match model with
  | None => _fallback_rule_based_score customer agent
  | Some predict_proba =>
      match predict_proba customer agent with
      | Some probability => Py.max 0.0 (Py.min 1.0 probability)
      | None => _fallback_rule_based_score customer agent
      end
  end.

Definition predict_batch (model : option Model)
           (pairs : list (Customer.t * Agent.t)) : list float :=
  map (fun p => predict_routing_score model (fst p) (snd p)) pairs.

End RoutingScorePredictor.

Module ConversationSummary.
(** Start and end times are not modelled. *)
Record t := mk {
  routing_id : string;
  customer_id : string;
  agent_id : string;
  customer_name : string;
  agent_name : string;
  channel : Channel;
  duration_minutes : float;
  issue_type : string;
  issue_description : string;
  resolution_summary : string;
  key_points : list string;
  actions_taken : list string;
  follow_up_required : bool;
  follow_up_notes : option string
}.
End ConversationSummary.

Module RoutingResult.
(** [timestamp] is not modelled; [customer_feedback] is attached by an
    endpoint outside this development and stays [None] here. *)
Record t := mk {
  id : string;
  customer_id : string;
  agent_id : string;
  customer_name : option string;
  agent_name : option string;
  routing_score : float;
  reasoning : list string;
  status : ResultStatus;
  conversation_summary : option ConversationSummary.t;
  actual_handling_time : option float;
  success_outcome : option bool
}.

(** The four assignments of [complete_routing_task] on the result object. *)
Definition complete (r : t) (summary : ConversationSummary.t)
           (duration : float) : t :=
  mk (id r) (customer_id r) (agent_id r) (customer_name r) (agent_name r)
     (routing_score r) (reasoning r) completed (Some summary)
     (Some duration) (Some true).
End RoutingResult.

Module ManualAssignment.
Record t := mk {
  customer_id : string;
  agent_id : string;
  reasoning : string
}.
End ManualAssignment.

(* ================================================================== *)
(** ** Exceptions *)

Inductive Exception :=
| TypeError        (* [agents[None]] *)
| IndexError       (* a list or matrix index out of range *)
| AttributeError.  (* an attribute the object does not have *)

Inductive result (A : Type) :=
| Ok (a : A)
| Raise (e : Exception).
Arguments Ok {A} a.
Arguments Raise {A} e.

Definition bind {A B} (m : result A) (k : A -> result B) : result B :=
  match m with
  | Ok a => k a
  | Raise e => Raise e
  end.

Notation "x <- m ;; k" := (bind m (fun x => k))
  (at level 61, m at next level, right associativity).

(** A [for] loop whose body may raise. *)
Fixpoint for_loop {A S} (xs : list A) (body : S -> A -> result S) (s : S)
  : result S :=
  match xs with
  | [] => Ok s
  | x :: xs' => s' <- body s x ;; for_loop xs' body s'
  end.

(** [xs[i]]. *)
Definition index {A} (xs : list A) (i : nat) : result A :=
  match nth_error xs i with
  | Some x => Ok x
  | None => Raise IndexError
  end.

(* ================================================================== *)
(** ** services/routing_engine.py *)

Module RoutingEngine.

Import RoutingScorePredictor.
Local Open Scope float_scope.

Record t := mk {
  predictor : option Model;
  tie_break_threshold : float
}.

(** The constructor: the predictor and the tie-break threshold. *)
Definition __init__ (model : option Model) : t := mk model 0.03.

Definition matrix := list (list float).

Definition _calculate_routing_matrix (self : t)
           (customers : list Customer.t) (agents : list Agent.t) : matrix :=
  map (fun customer =>
         map (fun agent => predict_routing_score (predictor self) customer agent)
             agents)
      customers.

(** [customer_indices.sort(key=lambda i: customers[i].priority, reverse=True)]:
    [list.sort] is stable, also under [reverse=True]; an insertion sort that
    never moves an element past one of equal key computes the same list. *)
Fixpoint insert_desc (key : nat -> Z) (i : nat) (sorted : list nat) : list nat :=
  match sorted with
  | [] => [i]
  | j :: rest =>
      if (key i <=? key j)%Z
      then j :: insert_desc key i rest
      else i :: j :: rest
  end.

Definition sort_reverse (key : nat -> Z) (l : list nat) : list nat :=
  fold_left (fun sorted i => insert_desc key i sorted) l [].

(** [customers[i].priority], for [i] in [range(len(customers))]. *)
Definition priority_key (customers : list Customer.t) (i : nat) : Z :=
  match nth_error customers i with
  | Some c => Customer.priority c
  | None => 0%Z
  end.

Definition customer_indices (customers : list Customer.t) : list nat :=
  sort_reverse (priority_key customers) (seq 0 (List.length customers)).

(** The body of the inner loop: the state is [(best_agent_idx, best_score)]. *)
Definition scan_agent (self : t) (agents : list Agent.t)
           (routing_matrix : matrix) (used_agents : list nat)
           (customer_idx : nat) (best : option nat * float) (agent_idx : nat)
  : result (option nat * float) :=
  let '(best_agent_idx, best_score) := best in
  if existsb (Nat.eqb agent_idx) used_agents then Ok best
  else
    row <- index routing_matrix customer_idx ;;
    score <- index row agent_idx ;;
    if best_score <? score then Ok (Some agent_idx, score)
    else if abs (score - best_score) <? tie_break_threshold self then
      match best_agent_idx with
      | None => Raise TypeError
      | Some b =>
          current_best_agent <- index agents b ;;
          candidate_agent <- index agents agent_idx ;;
          if (Agent.current_workload candidate_agent
              <? Agent.current_workload current_best_agent)%Z
          then Ok (Some agent_idx, score)
          else Ok best
      end
    else Ok best.

Definition find_best_agent (self : t) (agents : list Agent.t)
           (routing_matrix : matrix) (used_agents : list nat)
           (customer_idx : nat) : result (option nat * float) :=
  for_loop (seq 0 (List.length agents))
           (scan_agent self agents routing_matrix used_agents customer_idx)
           (None, -1).

(** The body of the outer loop: the state is [(assignments, used_agents)];
    the set [used_agents] is a list read through membership only. *)
Definition assign_customer (self : t) (agents : list Agent.t)
           (routing_matrix : matrix)
           (st : list (nat * nat * float) * list nat) (customer_idx : nat)
  : result (list (nat * nat * float) * list nat) :=
  let '(assignments, used_agents) := st in
  best <- find_best_agent self agents routing_matrix used_agents customer_idx ;;
  match best with
  | (Some best_agent_idx, best_score) =>
      Ok (assignments ++ [(customer_idx, best_agent_idx, best_score)],
          best_agent_idx :: used_agents)
  | (None, _) => Ok st
  end.

Definition _perform_optimal_assignment (self : t)
           (customers : list Customer.t) (agents : list Agent.t)
           (routing_matrix : matrix) : result (list (nat * nat * float)) :=
  st <- for_loop (customer_indices customers)
                 (assign_customer self agents routing_matrix) ([], []) ;;
  Ok (fst st).

Section Reasoning.

(** [f"{x:.1f}"]: float formatting is not modelled. *)
Variable format_1f : float -> string.

Definition _generate_reasoning (self : t) (customer : Customer.t)
           (agent : Agent.t) (score : float) : list string :=
  let reasoning :=
    [ if (0.8 <=? score)%float
      then "🟢 Excellent match - high success probability"%string
      else if (0.6 <=? score)%float
      then "🟡 Good match - moderate success probability"%string
      else "🔴 Fair match - lower success probability"%string ] in
  let specialty_match := _calculate_specialty_match agent customer in
  let reasoning := reasoning ++
    [ if (0.8 <=? specialty_match)%float
      then ("✅ Agent specializes in " ++ Customer.issue_type customer)%string
      else if (0.5 <=? specialty_match)%float
      then ("⚡ Agent has related experience with "
            ++ Customer.issue_type customer)%string
      else ("⚠️ Agent has limited experience with "
            ++ Customer.issue_type customer)%string ] in
  let years := format_1f (Agent.experience agent) in
  let reasoning := reasoning ++
    [ if (5 <=? Agent.experience agent)%float
      then ("👨‍💼 Highly experienced agent (" ++ years ++ " years)")%string
      else if (2 <=? Agent.experience agent)%float
      then ("👤 Experienced agent (" ++ years ++ " years)")%string
      else ("🆕 Junior agent (" ++ years ++ " years)")%string ] in
  let workload_ratio := workload_ratio agent in
  let reasoning := reasoning ++
    [ if (workload_ratio <=? 0.3)%float
      then "⚡ Agent has light workload"%string
      else if (workload_ratio <=? 0.7)%float
      then "📊 Agent has moderate workload"%string
      else "⏰ Agent is busy but available"%string ] in
  let reasoning := reasoning ++
    match Customer.tier customer with
    | premium => ["👑 Premium customer - prioritized routing"%string]
    | _ => []
    end in
  let reasoning := reasoning ++
    match Customer.sentiment customer with
    | negative => ["😤 Negative sentiment - needs experienced handling"%string]
    | positive => ["😊 Positive sentiment - good interaction expected"%string]
    | neutral => []
    end in
  reasoning.

Definition is_routable (agent : Agent.t) : bool :=
  AgentStatus_eqb (Agent.status agent) available
  && (Agent.current_workload agent <? Agent.max_concurrent agent)%Z.

(** [uuid4 k] is the id drawn for the [k]-th result of the pass. *)
Definition route_customers (self : t) (uuid4 : nat -> string)
           (customers : list Customer.t) (agents : list Agent.t)
  : result (list RoutingResult.t) :=
  match customers with
  | [] => Ok []
  | _ :: _ =>
      let available_agents := filter is_routable agents in
      match available_agents with
      | [] => Ok []
      | _ :: _ =>
          let routing_matrix :=
            _calculate_routing_matrix self customers available_agents in
          assignments <- _perform_optimal_assignment
                           self customers available_agents routing_matrix ;;
          for_loop (combine (seq 0 (List.length assignments)) assignments)
            (fun results '(k, (customer_idx, agent_idx, score)) =>
               customer <- index customers customer_idx ;;
               agent <- index available_agents agent_idx ;;
               Ok (results ++
                   [ RoutingResult.mk (uuid4 k)
                       (Customer.id customer) (Agent.id agent)
                       (Some (Customer.name customer))
                       (Some (Agent.name agent))
                       score
                       (_generate_reasoning self customer agent score)
                       active None None None ]))
            []
      end
  end.

End Reasoning.

Module Statistics.
Record distribution := mk_distribution {
  min : float;
  max : float;
  std : float
}.
(** The returned dictionary; ['score_distribution'] is a key of the
    non-empty case only. *)
Record t := mk {
  total_routings : nat;
  average_score : float;
  high_confidence_matches : nat;
  medium_confidence_matches : nat;
  low_confidence_matches : nat;
  score_distribution : option distribution
}.
End Statistics.

Section Numpy.

(** [np.mean] and [np.std] on a list of floats. *)
Variables np_mean np_std : list float -> float.

(** [sum(1 for s in scores if p(s))]. *)
Definition count (p : float -> bool) (scores : list float) : nat :=
  List.length (filter p scores).

(** [min(scores)] and [max(scores)] on a non-empty list. *)
Definition min_of (first : float) (rest : list float) : float :=
  fold_left Py.min rest first.
Definition max_of (first : float) (rest : list float) : float :=
  fold_left Py.max rest first.

Definition get_routing_statistics (results : list RoutingResult.t)
  : Statistics.t :=
  match results with
  | [] => Statistics.mk 0 0.0 0 0 0 None
  | _ :: _ =>
      let scores := map RoutingResult.routing_score results in
      Statistics.mk
        (List.length results)
        (np_mean scores)
        (count (fun s => 0.8 <=? s) scores)
        (count (fun s => (0.6 <=? s) && (s <? 0.8)) scores)
        (count (fun s => s <? 0.6) scores)
        (match scores with
         | [] => None
         | first :: rest =>
             Some (Statistics.mk_distribution
                     (min_of first rest) (max_of first rest)
                     (np_std scores))
         end)
  end.

End Numpy.

End RoutingEngine.

(* ================================================================== *)
(** ** database/db_manager.py

    Every method of [DatabaseManager] runs inside [try ... except Exception]
    and answers a default ([None], [[]], [False]) when SQLite fails; [up]
    says whether the statements of the current request succeed. *)

Module DatabaseManager.

Record t := mk {
  up : bool;
  (** table [customers] in [created_at] order: the columns of a customer
      (no [context] column) and the [status] column. *)
  customers : list (Customer.t * string);
  (** table [agents] in row order (no [skills] column). *)
  agents : list Agent.t
}.

Definition set_customers (db : t) (rows : list (Customer.t * string)) : t :=
  mk (up db) rows (agents db).
Definition set_agents (db : t) (rows : list Agent.t) : t :=
  mk (up db) (customers db) rows.

(** The [Customer(...)] built from a row: [context] takes its default. *)
Definition customer_of_row (row : Customer.t * string) : Customer.t :=
  Customer.set_context (fst row) [].

(** The [Agent(...)] built from a row: [skills] takes its default. *)
Definition agent_of_row (row : Agent.t) : Agent.t := Agent.set_skills row [].

(** [add_customer]: the [INSERT] is never committed (the connection is
    closed by [get_connection] with the transaction still open, which
    rolls it back), so the table is left as it was; the answer is [True]
    unless the statement raised (primary key taken, or SQLite down). *)
Definition add_customer (db : t) (customer : Customer.t) : bool * t :=
  (up db
   && negb (existsb (fun row => String.eqb (Customer.id (fst row))
                                           (Customer.id customer))
                    (customers db)),
   db).

(** [Customer(...)] validates what it is built from: a row passes when its
    [issue_complexity] is in [1, 5], its [wait_time] is not negative and its
    [priority] is in 1..10 (the three [Literal] columns are of the enumerated
    types here). A row that does not pass makes the constructor raise. *)
Definition customer_row_valid (row : Customer.t * string) : bool :=
  let c := fst row in
  (PrimFloat.leb 1.0%float (Customer.issue_complexity c)
   && PrimFloat.leb (Customer.issue_complexity c) 5.0%float)
  && (0 <=? Customer.wait_time c)%Z
  && ((1 <=? Customer.priority c)%Z && (Customer.priority c <=? 10)%Z).

(** [SELECT * FROM customers WHERE status = ? ORDER BY created_at ASC]: the
    [Customer] objects are built inside the [try], so one row that fails the
    validation makes the method answer [[]]. *)
Definition get_customers (db : t) (status : string) : list Customer.t :=
  if up db
  then
    let rows := filter (fun row => String.eqb (snd row) status) (customers db) in
    if forallb customer_row_valid rows
    then map customer_of_row rows
    else []
  else [].

(** [SELECT * FROM customers WHERE id = ?]: [None] also when the row fails
    the validation. *)
Definition get_customer (db : t) (customer_id : string) : option Customer.t :=
  if up db
  then
    match find (fun row => String.eqb (Customer.id (fst row)) customer_id)
               (customers db) with
    | Some row =>
        if customer_row_valid row then Some (customer_of_row row) else None
    | None => None
    end
  else None.

Definition update_customer_status (db : t) (customer_id status : string)
  : bool * t :=
  if up db
  then (existsb (fun row => String.eqb (Customer.id (fst row)) customer_id)
                (customers db),
        set_customers db
          (map (fun row => if String.eqb (Customer.id (fst row)) customer_id
                           then (fst row, status) else row)
               (customers db)))
  else (false, db).

Definition remove_customer (db : t) (customer_id : string) : bool * t :=
  if up db
  then (existsb (fun row => String.eqb (Customer.id (fst row)) customer_id)
                (customers db),
        set_customers db
          (filter (fun row => negb (String.eqb (Customer.id (fst row))
                                               customer_id))
                  (customers db)))
  else (false, db).

(** [ORDER BY name ASC]: rows of equal name stay in row order. *)
Fixpoint insert_by_name (a : Agent.t) (sorted : list Agent.t) : list Agent.t :=
  match sorted with
  | [] => [a]
  | b :: rest =>
      if String.ltb (Agent.name a) (Agent.name b)
      then a :: b :: rest
      else b :: insert_by_name a rest
  end.

Definition order_by_name (rows : list Agent.t) : list Agent.t :=
  fold_left (fun sorted a => insert_by_name a sorted) rows [].

Definition get_agents (db : t) : list Agent.t :=
  if up db then map agent_of_row (order_by_name (agents db)) else [].

Definition get_agent (db : t) (agent_id : string) : option Agent.t :=
  if up db
  then option_map agent_of_row
         (find (fun row => String.eqb (Agent.id row) agent_id) (agents db))
  else None.

Definition update_agent_status (db : t) (agent_id : string)
           (status : AgentStatus) : bool * t :=
  if up db
  then (existsb (fun row => String.eqb (Agent.id row) agent_id) (agents db),
        set_agents db
          (map (fun row => if String.eqb (Agent.id row) agent_id
                           then Agent.set_status row status else row)
               (agents db)))
  else (false, db).

(** What an INTEGER column holds: 64 bits. Binding a larger [int] to a
    statement raises [OverflowError]. *)
Definition fits_integer (n : Z) : bool :=
  (-9223372036854775808 <=? n)%Z && (n <=? 9223372036854775807)%Z.

Definition update_agent_workload (db : t) (agent_id : string) (workload : Z)
  : bool * t :=
  if up db && fits_integer workload
  then (existsb (fun row => String.eqb (Agent.id row) agent_id) (agents db),
        set_agents db
          (map (fun row => if String.eqb (Agent.id row) agent_id
                           then Agent.set_current_workload row workload
                           else row)
               (agents db)))
  else (false, db).

End DatabaseManager.

(* ================================================================== *)
(** ** services/data_store.py *)

Module DataStore.

Record t := mk {
  db : DatabaseManager.t;
  customers : Dict.t Customer.t;
  agents : Dict.t Agent.t;
  routing_results : Dict.t RoutingResult.t
}.

Definition set_db (self : t) (x : DatabaseManager.t) : t :=
  mk x (customers self) (agents self) (routing_results self).
Definition set_customers (self : t) (x : Dict.t Customer.t) : t :=
  mk (db self) x (agents self) (routing_results self).
Definition set_agents (self : t) (x : Dict.t Agent.t) : t :=
  mk (db self) (customers self) x (routing_results self).
Definition set_routing_results (self : t) (x : Dict.t RoutingResult.t) : t :=
  mk (db self) (customers self) (agents self) x.


(** The repair applied by [get_customers] to a row read from the table. *)
Definition fix_issue_complexity (customer : Customer.t) : Customer.t :=
  if PrimFloat.ltb (Customer.issue_complexity customer) 1.0%float
  then Customer.set_issue_complexity customer
         (Py.max 1.0%float
                 (PrimFloat.mul (Customer.issue_complexity customer) 5.0%float))
  else customer.

Definition get_customers (self : t) : list Customer.t * t :=
  let db_customers := DatabaseManager.get_customers (db self) "waiting" in
  let all_customers :=
    fold_left
      (fun all customer =>
         Dict.set all (Customer.id customer) (fix_issue_complexity customer))
      db_customers [] in
  let all_customers :=
    fold_left
      (fun all kv =>
         if Dict.mem all (fst kv) then all else Dict.set all (fst kv) (snd kv))
      (customers self) all_customers in
  (Dict.values all_customers,
   set_customers self (Dict.update (customers self) all_customers)).

Definition get_customer (self : t) (customer_id : string)
  : option Customer.t * t :=
  match DatabaseManager.get_customer (db self) customer_id with
  | Some db_customer =>
      (Some db_customer,
       set_customers self (Dict.set (customers self) customer_id db_customer))
  | None => (Dict.get (customers self) customer_id, self)
  end.

Definition add_customer (self : t) (customer : Customer.t) : Customer.t * t :=
  let self := set_customers self
                (Dict.set (customers self) (Customer.id customer) customer) in
  let '(_, db') := DatabaseManager.add_customer (db self) customer in
  (customer, set_db self db').

Definition remove_customer (self : t) (customer_id : string) : bool * t :=
  let '(db_success, db') :=
    DatabaseManager.remove_customer (db self) customer_id in
  let self := set_db self db' in
  if Dict.mem (customers self) customer_id
  then (true, set_customers self (Dict.del (customers self) customer_id))
  else (db_success, self).

Definition get_agents (self : t) : list Agent.t * t :=
  match DatabaseManager.get_agents (db self) with
  | [] => (Dict.values (agents self), self)
  | db_agents =>
      (db_agents,
       set_agents self
         (fold_left (fun cache agent => Dict.set cache (Agent.id agent) agent)
                    db_agents (agents self)))
  end.

Definition get_agent (self : t) (agent_id : string) : option Agent.t * t :=
  match DatabaseManager.get_agent (db self) agent_id with
  | Some db_agent =>
      (Some db_agent,
       set_agents self (Dict.set (agents self) agent_id db_agent))
  | None => (Dict.get (agents self) agent_id, self)
  end.

Definition update_agent_status (self : t) (agent_id : string)
           (status : AgentStatus) : option Agent.t * t :=
  let '(_, db') :=
    DatabaseManager.update_agent_status (db self) agent_id status in
  let self := set_db self db' in
  match Dict.get (agents self) agent_id with
  | Some agent =>
      let agent := Agent.set_status agent status in
      (Some agent, set_agents self (Dict.set (agents self) agent_id agent))
  | None => (None, self)
  end.

Definition get_available_agents (self : t) : list Agent.t * t :=
  let '(agents, self) := get_agents self in
  (filter RoutingEngine.is_routable agents, self).

Definition add_routing_result (self : t) (result : RoutingResult.t) : t :=
  set_routing_results self
    (Dict.set (routing_results self) (RoutingResult.id result) result).

Definition get_routing_results (self : t) : list RoutingResult.t :=
  Dict.values (routing_results self).


(** The class defines no attribute [update_routing_result_status] (neither
    does [DatabaseManager]): evaluating
    [data_store.update_routing_result_status] raises [AttributeError]. *)
Definition update_routing_result_status (self : t) (routing_id : string)
           (status : ResultStatus) : result t :=
  Raise AttributeError.

End DataStore.

(* ================================================================== *)
(** ** app.py: the routing endpoints

    A request handler runs against [app.state.data_store]; an exception
    leaves the store as it was when it was raised (nothing is rolled back). *)

Definition Handler (A : Type) := DataStore.t -> result A * DataStore.t.

Definition ret {A} (a : A) : Handler A := fun s => (Ok a, s).

Definition bindH {A B} (m : Handler A) (k : A -> Handler B) : Handler B :=
  fun s =>
    match m s with
    | (Ok a, s') => k a s'
    | (Raise e, s') => (Raise e, s')
    end.

Notation "x <~ m ;; k" := (bindH m (fun x => k))
  (at level 61, m at next level, right associativity).
Notation "m ;;; k" := (bindH m (fun _ => k))
  (at level 61, right associativity).

(** A method of the store that answers a value. *)
Definition call {A} (f : DataStore.t -> A * DataStore.t) : Handler A :=
  fun s => let '(a, s') := f s in (Ok a, s').

(** A method of the store that answers nothing. *)
Definition exec (f : DataStore.t -> DataStore.t) : Handler unit :=
  fun s => (Ok tt, f s).

(** A computation that does not touch the store. *)
Definition pure {A} (r : result A) : Handler A := fun s => (r, s).

(** A method of [data_store.db] whose answer is dropped. *)
Definition exec_db {A} (f : DatabaseManager.t -> A * DatabaseManager.t)
  : Handler unit :=
  fun s => (Ok tt, DataStore.set_db s (snd (f (DataStore.db s)))).

(** In-place mutation of the agent object held in slot [key] of
    [data_store.agents]. *)
Definition store_agent (key : string) (agent : Agent.t) : Handler unit :=
  exec (fun s => DataStore.set_agents s (Dict.set (DataStore.agents s) key agent)).

Fixpoint for_each {A} (xs : list A) (body : A -> Handler unit) : Handler unit :=
  match xs with
  | [] => ret tt
  | x :: xs' => body x ;;; for_each xs' body
  end.

(** [try: ... except Exception as e: return handler(e)]. *)
Definition try_except {A} (m : Handler A) (handler : Exception -> A)
  : DataStore.t -> A * DataStore.t :=
  fun s =>
    match m s with
    | (Ok a, s') => (a, s')
    | (Raise e, s') => (handler e, s')
    end.

(** What an endpoint returns: a body, or [{"error": ...}, code]. *)
Inductive Response (A : Type) :=
| Success (body : A)
| Failure (error : string) (detail : option Exception) (code : Z).
Arguments Success {A} body.
Arguments Failure {A} error detail code.

Module App.

Section Endpoints.

(** [app.state.routing_engine], and the library functions left open. *)
Variable routing_engine : RoutingEngine.t.
Variable format_1f : float -> string.
Variables np_mean np_std : list float -> float.

Inductive AutoRouteMessage :=
| NoCustomersInQueue
| NoAgentsAvailable
| SuccessfullyRouted (n : nat).

Record AutoRouteBody := mk_auto {
  results : list RoutingResult.t;
  statistics : option RoutingEngine.Statistics.t;
  message : AutoRouteMessage
}.

(** [POST /route]; [uuid4 k] is the id drawn for the [k]-th result. *)
Definition auto_route (uuid4 : nat -> string)
  : DataStore.t -> Response AutoRouteBody * DataStore.t :=
  try_except
    (customers <~ call DataStore.get_customers ;;
     agents <~ call DataStore.get_available_agents ;;
     match customers, agents with
     | [], _ => ret (Success (mk_auto [] None NoCustomersInQueue))
     | _, [] => ret (Success (mk_auto [] None NoAgentsAvailable))
     | _, _ =>
         routing_results <~
           pure (RoutingEngine.route_customers
                   format_1f routing_engine uuid4 customers agents) ;;
         for_each routing_results
           (fun result =>
              exec (fun s => DataStore.add_routing_result s result) ;;;
              agent <~ call (fun s =>
                  DataStore.get_agent s (RoutingResult.agent_id result)) ;;
              match agent with
              | Some agent =>
                  let agent := Agent.set_current_workload agent
                                 (Agent.current_workload agent + 1) in
                  store_agent (RoutingResult.agent_id result) agent ;;;
                  exec_db (fun db =>
                    DatabaseManager.update_agent_workload db
                      (Agent.id agent) (Agent.current_workload agent))
              | None => ret tt
              end ;;;
              exec_db (fun db =>
                DatabaseManager.update_customer_status db
                  (RoutingResult.customer_id result) "routed") ;;;
              _ <~ call (fun s =>
                  DataStore.remove_customer s
                    (RoutingResult.customer_id result)) ;;
              ret tt) ;;;
         let stats :=
           RoutingEngine.get_routing_statistics np_mean np_std
             routing_results in
         ret (Success (mk_auto routing_results (Some stats)
                         (SuccessfullyRouted (List.length routing_results))))
     end)
    (fun e => Failure "Routing failed" (Some e) 500).

(** [POST /route/manual]; [uuid] is the id drawn for the result. *)
Definition manual_route (uuid : string) (assignment : ManualAssignment.t)
  : DataStore.t -> Response (RoutingResult.t * string) * DataStore.t :=
  fun s =>
    let '(customer, s) :=
      DataStore.get_customer s (ManualAssignment.customer_id assignment) in
    let '(agent, s) :=
      DataStore.get_agent s (ManualAssignment.agent_id assignment) in
    match customer, agent with
    | None, _ => (Failure "Customer not found" None 404, s)
    | Some _, None => (Failure "Agent not found" None 404, s)
    | Some customer, Some agent =>
        if negb (AgentStatus_eqb (Agent.status agent) available)
        then (Failure "Agent not available" None 400, s)
        else
          let routing_score :=
            RoutingScorePredictor.predict_routing_score
              (RoutingEngine.predictor routing_engine) customer agent in
          let result :=
            RoutingResult.mk uuid
              (ManualAssignment.customer_id assignment)
              (ManualAssignment.agent_id assignment)
              None None routing_score
              [ManualAssignment.reasoning assignment]
              active None None None in
          let s := DataStore.add_routing_result s result in
          let agent := Agent.set_current_workload agent
                         (Agent.current_workload agent + 1) in
          let s := DataStore.set_agents s
                     (Dict.set (DataStore.agents s)
                               (ManualAssignment.agent_id assignment) agent) in
          let '(_, s) :=
            DataStore.remove_customer s
              (ManualAssignment.customer_id assignment) in
          (Success (result, "Manual routing completed"%string), s)
    end.



(** The canned texts of [issue_summaries] (resolution, key points,
    actions) by issue type, and the f-string of [issue_description]. *)
Variable issue_summaries : string -> string * list string * list string.
Variable issue_description : Tier -> Sentiment -> string -> string.

(** What [complete_routing_task] draws from [random]: the duration, its
    rounding to one decimal, and the two follow-up choices. *)
Record CompletionDraw := mk_draw {
  duration : float;
  duration_rounded : float;
  follow_up_required : bool;
  follow_up_notes : bool
}.

Record CompleteBody := mk_complete {
  complete_message : string;
  complete_agent : Agent.t;
  complete_routing_result : RoutingResult.t;
  complete_conversation_summary : ConversationSummary.t;
  show_feedback_form : bool
}.

(** [next((slot for r in routing_results if r.id == routing_id), None)]. *)
Definition find_result (s : DataStore.t) (routing_id : string)
  : option (string * RoutingResult.t) :=
  find (fun kv => String.eqb (RoutingResult.id (snd kv)) routing_id)
       (DataStore.routing_results s).

(** Lines 906-913: the workload and status of the freed agent. *)
Definition release (agent : Agent.t) : Agent.t :=
  let agent := Agent.set_current_workload agent
                 (Z.max 0 (Agent.current_workload agent - 1)) in
  if (Agent.current_workload agent =? 0)%Z
  then Agent.set_status agent available
  else if (Agent.current_workload agent <? Agent.max_concurrent agent)%Z
  then Agent.set_status agent available
  else agent.

(** [POST /routing/{routing_id}/complete]. *)
Definition complete_routing_task (draw : CompletionDraw)
           (routing_id : string)
  : DataStore.t -> Response CompleteBody * DataStore.t :=
  try_except
    (found <~ call (fun s => (find_result s routing_id, s)) ;;
     match found with
     | None => ret (Failure "Routing result not found" None 404)
     | Some (slot, routing_result) =>
         agent <~ call (fun s =>
             DataStore.get_agent s (RoutingResult.agent_id routing_result)) ;;
         match agent with
         | None => ret (Failure "Agent not found" None 404)
         | Some agent =>
             let customer_name :=
               match RoutingResult.customer_name routing_result with
               | Some EmptyString | None => "Unknown Customer"%string
               | Some n => n
               end in
             customer <~ call (fun s =>
                 DataStore.get_customer s
                   (RoutingResult.customer_id routing_result)) ;;
             let '(customer_issue_type, customer_tier,
                   customer_sentiment, customer_channel) :=
               match customer with
               | Some c => (Customer.issue_type c, Customer.tier c,
                            Customer.sentiment c, Customer.channel c)
               | None => ("technical_support"%string, standard, neutral, chat)
               end in
             let summary_data := issue_summaries customer_issue_type in
             let conversation_summary :=
               ConversationSummary.mk routing_id
                 (RoutingResult.customer_id routing_result)
                 (Agent.id agent) customer_name (Agent.name agent)
                 customer_channel (duration_rounded draw)
                 customer_issue_type
                 (issue_description customer_tier customer_sentiment
                                    customer_issue_type)
                 (fst (fst summary_data)) (snd (fst summary_data))
                 (snd summary_data)
                 (follow_up_required draw)
                 (if follow_up_notes draw
                  then Some "Schedule follow-up in 3-5 business days"%string
                  else None) in
             let routing_result :=
               RoutingResult.complete routing_result conversation_summary
                                      (duration draw) in
             exec (fun s => DataStore.set_routing_results s
                              (Dict.set (DataStore.routing_results s)
                                        slot routing_result)) ;;;
             _ <~ (fun s =>
                     (DataStore.update_routing_result_status
                        s routing_id completed, s)) ;;
             let agent := release agent in
             store_agent (RoutingResult.agent_id routing_result) agent ;;;
             exec_db (fun db =>
               DatabaseManager.update_agent_workload db
                 (Agent.id agent) (Agent.current_workload agent)) ;;;
             exec_db (fun db =>
               DatabaseManager.update_agent_status db
                 (Agent.id agent) (Agent.status agent)) ;;;
             ret (Success (mk_complete "Task completed successfully"
                             agent routing_result conversation_summary true))
         end
     end)
    (fun e => Failure "Failed to complete task" (Some e) 500).

End Endpoints.

End App.

(* ================================================================== *)
(** ** Vocabulary of the properties *)

Module Spec.

Import RoutingScorePredictor.
Local Open Scope float_scope.

(** [x] and [y] differ by less than 1e-6. *)
Definition close (x y : float) : Prop := (abs (x - y) <? 1e-6) = true.

(** The specialty match in the order the specification words it: a direct
    match first, then the related-issue table, then the empty specialty
    list. [related_pairs] lists (customer issue type, agent specialty). *)
Definition related_pairs : list (string * string) :=
  [ ("technical_support", "product_inquiry");
    ("product_inquiry", "technical_support");
    ("billing", "account_management");
    ("account_management", "billing");
    ("sales", "product_inquiry");
    ("product_inquiry", "sales");
    ("complaint_resolution", "account_management") ]%string.

Definition related (issue_type spec : string) : bool :=
  existsb (fun p => String.eqb issue_type (fst p) && String.eqb (snd p) spec)
          related_pairs.

Definition specialty_match_spec (agent : Agent.t) (customer : Customer.t)
  : float :=
  if Py.str_in (Customer.issue_type customer) (Agent.specialty agent)
  then 0.9
  else if existsb (related (Customer.issue_type customer))
                  (Agent.specialty agent)
  then 0.6
  else match Agent.specialty agent with
       | [] => 0.3
       | _ :: _ => 0.2
       end.

(** The two agents and customers of the one-directional table entry. *)
Definition complaint_agent : Agent.t :=
  Agent.mk "a1" "Alex" ["complaint_resolution"%string] 6.3 9.0 0.9 0 3
           available [].
Definition account_agent : Agent.t :=
  Agent.mk "a2" "Marcus" ["account_management"%string] 5.2 9.0 0.9 0 3
           available [].
Definition account_customer : Customer.t :=
  Customer.mk "c1" "Lisa" neutral standard "account_management" 3.0 chat 0 5 [].
Definition complaint_customer : Customer.t :=
  Customer.mk "c2" "John" neutral standard "complaint_resolution" 3.0 chat 0 5 [].

(** Evaluates the comparisons of two string literals in the goal. *)
Ltac eval_closed_eqb :=
  repeat match goal with
  | |- context [String.eqb ?a ?b] =>
      let v := eval vm_compute in (String.eqb a b) in
      match v with
      | true => change (String.eqb a b) with true
      | false => change (String.eqb a b) with false
      end
  end.

Definition is_nan (x : spec_float) : bool :=
  match x with S754_nan => true | _ => false end.

(** [x] is a number (not NaN): the comparisons order it. *)
Definition ordered (x : float) : Prop := is_nan (Prim2SF x) = false.

(** [routing_score: float = Field(ge=0.0, le=1.0)]: what a [RoutingResult]
    is validated against when it is built. *)
Definition valid_score (r : RoutingResult.t) : Prop :=
  (0 <=? RoutingResult.routing_score r) = true
  /\ (RoutingResult.routing_score r <=? 1) = true.

(** Three results scoring 0.85, 0.7 and 0.3. *)
Definition sample_result (id : string) (score : float) : RoutingResult.t :=
  RoutingResult.mk id "c" "a" None None score [] active None None None.

Definition sample_results : list RoutingResult.t :=
  [ sample_result "r1" 0.85; sample_result "r2" 0.7; sample_result "r3" 0.3 ].

(** The entry of a score matrix, as the solver reads it. *)
Definition score_at (m : RoutingEngine.matrix) (c a : nat) : result float :=
  row <- index m c ;; index row a.

(** An [N] x [M] matrix of scores above the solver's initial best (-1), as
    every score of the predictor is. *)
Definition well_formed (N M : nat) (m : RoutingEngine.matrix) : Prop :=
  forall c a, (c < N)%nat -> (a < M)%nat ->
    exists s, score_at m c a = Ok s /\ (-1 <? s) = true.

Definition customer_of (t : nat * nat * float) : nat := fst (fst t).
Definition agent_of (t : nat * nat * float) : nat := snd (fst t).


(** An agent index the current pass has not consumed. *)
Definition unused (used_agents : list nat) (k : nat) : bool :=
  negb (existsb (Nat.eqb k) used_agents).

Import RoutingEngine.

(** What the scan holds between two agents: nothing yet (and the initial
    best score), or an agent of the list that is not consumed. *)
Definition scan_inv (agents : list Agent.t) (used_agents : list nat)
           (st : option nat * float) : Prop :=
  match fst st with
  | None => snd st = -1
  | Some b => (b < List.length agents)%nat /\ unused used_agents b = true
  end.

(** What the pass holds after the customers [pre]: one assignment at most
    per customer seen, to pairwise distinct agents of the list, which are
    exactly the consumed ones. *)
Definition pass_inv (agents : list Agent.t) (pre : list nat)
           (st : list (nat * nat * float) * list nat) : Prop :=
  (List.length (fst st) <= List.length pre)%nat
  /\ NoDup (map agent_of (fst st))
  /\ (forall a, In a (snd st) <-> In a (map agent_of (fst st)))
  /\ Forall (fun t => In (customer_of t) pre
                      /\ (agent_of t < List.length agents)%nat) (fst st).

(** A tie-break scenario: one billing customer and two billing agents that
    differ in past success rate and workload only. *)
Definition tie_customer : Customer.t :=
  Customer.mk "c1" "Lisa" neutral standard "billing" 3.0 chat 0 5 [].
Definition idle_agent : Agent.t :=
  Agent.mk "a1" "Sarah" ["billing"%string] 1.0 10.0 0.7 0 3 available [].
Definition loaded_agent : Agent.t :=
  Agent.mk "a2" "David" ["billing"%string] 1.0 10.0 0.95 1 3 available [].

(** A small fleet and queue: one agent with one free place of three, two
    waiting customers, held by the in-memory store alone ([memory_store],
    SQLite failing) or mirrored in the table [agents] ([backed_store]). *)
Definition sarah (workload : Z) : Agent.t :=
  Agent.mk "a1" "Sarah" ["billing"%string] 3.5 10.0 0.9 workload 3 available [].
Definition urgent_customer : Customer.t :=
  Customer.mk "c1" "Lisa" negative premium "billing" 4.0 chat 60 9 [].
Definition patient_customer : Customer.t :=
  Customer.mk "c2" "John" neutral standard "billing" 2.0 chat 30 2 [].

Definition memory_store : DataStore.t :=
  DataStore.mk (DatabaseManager.mk false [] [])
               [("c1"%string, urgent_customer); ("c2"%string, patient_customer)]
               [("a1"%string, sarah 2)]
               [].

Definition backed_store : DataStore.t :=
  DataStore.mk (DatabaseManager.mk true [] [sarah 2])
               [("c1"%string, urgent_customer); ("c2"%string, patient_customer)]
               [("a1"%string, sarah 2)]
               [].

Definition assign_patient_to_sarah : ManualAssignment.t :=
  ManualAssignment.mk "c2" "a1" "Manual assignment by supervisor".

(** One active conversation of the agent, who has a second one. *)
Definition active_result : RoutingResult.t :=
  RoutingResult.mk "r1" "c1" "a1" (Some "Lisa"%string) (Some "Sarah"%string)
                   0.855 [] active None None None.

Definition busy_store (db_up : bool) : DataStore.t :=
  DataStore.mk (DatabaseManager.mk db_up [] (if db_up then [sarah 2] else []))
               []
               [("a1"%string, sarah 2)]
               [("r1"%string, active_result)].

(** The agent slot [agent_id] of the store, as [get_agent] answers it. *)
Definition observed_agent (s : DataStore.t) (agent_id : string)
  : option Agent.t :=
  fst (DataStore.get_agent s agent_id).

Definition observed_customer (s : DataStore.t) (customer_id : string)
  : option Customer.t :=
  fst (DataStore.get_customer s customer_id).

(** The target of a manual assignment is invalid: the customer or the
    agent is unknown, or the agent's status is not available. *)
Definition invalid_target (s : DataStore.t) (assignment : ManualAssignment.t)
  : Prop :=
  observed_customer s (ManualAssignment.customer_id assignment) = None
  \/ observed_agent s (ManualAssignment.agent_id assignment) = None
  \/ exists agent,
       observed_agent s (ManualAssignment.agent_id assignment) = Some agent
       /\ Agent.status agent <> available.

(** The answer of [manual_route] to an invalid target. *)
Definition rejection {A : Type} (s : DataStore.t)
           (assignment : ManualAssignment.t) : Response A :=
  match observed_customer s (ManualAssignment.customer_id assignment),
        observed_agent s (ManualAssignment.agent_id assignment) with
  | None, _ => Failure "Customer not found" None 404
  | Some _, None => Failure "Agent not found" None 404
  | Some _, Some _ => Failure "Agent not available" None 400
  end.

(** A store whose cached agent is behind the table: the row says 2
    conversations and available, the cached object 3 and busy; no customer
    is queued. *)
Definition stale_store : DataStore.t :=
  DataStore.mk (DatabaseManager.mk true [] [sarah 2])
               []
               [("a1"%string, Agent.set_status (sarah 3) busy)]
               [].

Definition assign_unknown_customer : ManualAssignment.t :=
  ManualAssignment.mk "c9" "a1" "Manual assignment by supervisor".














End Spec.

(* ================================================================== *)
(** ** ml/routing_predictor.py, continued: the features of the learned model *)

Module Features.

Import RoutingScorePredictor.
Local Open Scope float_scope.

Definition base_features : list string :=
  [ "customer_sentiment"; "customer_tier"; "issue_complexity"; "channel_type";
    "agent_experience"; "agent_specialty_match"; "agent_past_success";
    "agent_avg_handling_time"; "agent_current_workload"; "time_of_day";
    "day_of_week"; "queue_length" ]%string.

Definition engineered_features : list string :=
  [ "text_embedding_similarity"; "intent_confidence"; "sentiment_confidence";
    "urgency_score"; "complexity_text_score"; "agent_customer_match_score";
    "workload_efficiency_ratio"; "experience_complexity_ratio";
    "tier_sentiment_interaction"; "peak_hour_indicator" ]%string.

Definition feature_names : list string := base_features ++ engineered_features.

(** The three [..._map.get(value, default)] of [_encode_customer_features];
    the codes are [int]s, which [np.array] turns into floats. *)
Definition sentiment_code (s : Sentiment) : Z :=
  match s with negative => 0 | neutral => 1 | positive => 2 end.

Definition tier_code (t : Tier) : Z :=
  match t with basic => 0 | standard => 1 | premium => 2 end.

Definition channel_code (c : Channel) : Z :=
  match c with chat => 0 | voice => 1 | phone | email => 0 end.

Definition _encode_customer_features (customer : Customer.t) : list float :=
  [ Py.float_of_int (sentiment_code (Customer.sentiment customer));
    Py.float_of_int (tier_code (Customer.tier customer));
    Customer.issue_complexity customer;
    Py.float_of_int (channel_code (Customer.channel customer)) ].

(** [a / b] on two [float]s: a zero divisor raises [ZeroDivisionError],
    which is [None] here. *)
Definition float_div (a b : float) : option float :=
  if PrimFloat.eqb b 0 then None else Some (a / b).

(** [hour] and [weekday] are [now.hour] and [now.weekday()]; [None] when
    the division of the two [int]s or one of the two float divisions
    raises. *)
Definition _create_enhanced_features (hour weekday : Z)
           (customer : Customer.t) (agent : Agent.t) : option (list float) :=
  let customer_features := _encode_customer_features customer in
  let specialty_match := _calculate_specialty_match agent customer in
  let workload_ratio := workload_ratio agent in
  let time_of_day := hour in
  let day_of_week := weekday in
  let queue_length := 5%Z in
  let base :=
    customer_features ++
    [ Agent.experience agent; specialty_match; Agent.past_success_rate agent;
      Agent.avg_handling_time agent; workload_ratio;
      Py.float_of_int time_of_day; Py.float_of_int day_of_week;
      Py.float_of_int queue_length ] in
  let text_embedding_similarity := 0.7 in
  let intent_confidence := 0.8 in
  let sentiment_confidence :=
    match Customer.sentiment customer with
    | neutral => 0.6
    | _ => 0.9
    end in
  let urgency_score :=
    if (7 <? Customer.priority customer)%Z then 0.3 else 0.1 in
  let complexity_text_score :=
    Customer.issue_complexity customer * intent_confidence in
  let agent_customer_match_score :=
    specialty_match * sentiment_confidence * (1 - urgency_score) in
  match (if Py.overflowed workload_ratio then None
         else float_div (Agent.past_success_rate agent) (workload_ratio + 0.1))
  with
  | None => None
  | Some workload_efficiency_ratio =>
      match float_div (Agent.experience agent)
                      (Customer.issue_complexity customer + 0.1) with
      | None => None
      | Some experience_complexity_ratio =>
          let tier_sentiment_interaction :=
            Py.float_of_int (tier_code (Customer.tier customer)
                             * sentiment_code (Customer.sentiment customer)) in
          let peak_hour_indicator :=
            Py.float_of_int
              (if (9 <=? time_of_day)%Z && (time_of_day <=? 17)%Z
               then 1 else 0) in
          Some (base ++
                [ text_embedding_similarity; intent_confidence;
                  sentiment_confidence; urgency_score; complexity_text_score;
                  agent_customer_match_score; workload_efficiency_ratio;
                  experience_complexity_ratio; tier_sentiment_interaction;
                  peak_hour_indicator ])
      end
  end.

Record ModelInfo := mk_info {
  model_loaded : bool;
  model_type : string;
  feature_count : nat;
  features : list string
}.

(** [class_name] is [type(self.model).__name__]. *)
Definition get_model_info (class_name : string) (model : option Model)
  : ModelInfo :=
  mk_info (match model with Some _ => true | None => false end)
          (match model with
           | Some _ => class_name
           | None => "Rule-based fallback"%string
           end)
          (List.length feature_names)
          feature_names.

End Features.

(** [result.status = status] on a routing result. *)
Definition result_set_status (r : RoutingResult.t) (status : ResultStatus)
  : RoutingResult.t :=
  RoutingResult.mk (RoutingResult.id r) (RoutingResult.customer_id r)
    (RoutingResult.agent_id r) (RoutingResult.customer_name r)
    (RoutingResult.agent_name r) (RoutingResult.routing_score r)
    (RoutingResult.reasoning r) status (RoutingResult.conversation_summary r)
    (RoutingResult.actual_handling_time r) (RoutingResult.success_outcome r).

(* ================================================================== *)
(** ** app.py, continued: queue, fleet and analytics endpoints *)

Module Api.

(** [GET /health]: read off the two dictionaries, not the database. *)
Definition health_check (s : DataStore.t) : string * nat * nat :=
  ("healthy"%string,
   List.length (DataStore.customers s),
   List.length (filter (fun a => AgentStatus_eqb (Agent.status a) available)
                       (Dict.values (DataStore.agents s)))).

(** [GET /customers], the refresh of the wait times left out. *)
Definition get_customers (s : DataStore.t)
  : (list Customer.t * nat) * DataStore.t :=
  let '(customers, s) := DataStore.get_customers s in
  ((customers, List.length customers), s).

Module CustomerCreate.
Record t := mk {
  name : string;
  sentiment : Sentiment;
  tier : Tier;
  issue_type : string;
  issue_complexity : float;
  channel : Channel;
  priority : Z;
  context : list (string * string)
}.
End CustomerCreate.

(** [POST /customers]; [uuid] is the id the new [Customer] draws. *)
Definition add_customer (uuid : string) (customer_data : CustomerCreate.t)
  : DataStore.t -> Response (Customer.t * string) * DataStore.t :=
  fun s =>
    let customer :=
      Customer.mk uuid (CustomerCreate.name customer_data)
        (CustomerCreate.sentiment customer_data)
        (CustomerCreate.tier customer_data)
        (CustomerCreate.issue_type customer_data)
        (CustomerCreate.issue_complexity customer_data)
        (CustomerCreate.channel customer_data) 0
        (CustomerCreate.priority customer_data)
        (CustomerCreate.context customer_data) in
    let '(added_customer, s) := DataStore.add_customer s customer in
    (Success (added_customer, "Customer added successfully"%string), s).

(** [DELETE /customers/{customer_id}]. *)
Definition remove_customer (customer_id : string)
  : DataStore.t -> Response string * DataStore.t :=
  fun s =>
    let '(success, s) := DataStore.remove_customer s customer_id in
    if success
    then (Success "Customer removed successfully"%string, s)
    else (Failure "Customer not found" None 404, s).

(** [GET /agents]. *)
Definition get_agents (s : DataStore.t)
  : (list Agent.t * nat * nat) * DataStore.t :=
  let '(agents, s) := DataStore.get_agents s in
  ((agents, List.length agents,
    List.length (filter (fun a => AgentStatus_eqb (Agent.status a) available)
                        agents)),
   s).

(** [new_status not in ["available", "busy", "offline"]]. *)
Definition parse_status (new_status : option string) : option AgentStatus :=
  match new_status with
  | Some x =>
      if String.eqb x "available" then Some available
      else if String.eqb x "busy" then Some busy
      else if String.eqb x "offline" then Some offline
      else None
  | None => None
  end.

(** [PUT /agents/{agent_id}/status]; [new_status] is
    [status_data.get("status")]. *)
Definition update_agent_status (agent_id : string) (new_status : option string)
  : DataStore.t -> Response (Agent.t * string) * DataStore.t :=
  fun s =>
    match parse_status new_status with
    | None => (Failure "Invalid status" None 400, s)
    | Some status =>
        let '(agent, s) := DataStore.update_agent_status s agent_id status in
        match agent with
        | Some agent => (Success (agent, "Agent status updated"%string), s)
        | None => (Failure "Agent not found" None 404, s)
        end
    end.

(** [POST /agents/{agent_id}/workload]; [workload] is
    [workload_data.get("workload")] when the key is there. *)
Definition update_agent_workload (agent_id : string) (workload : option Z)
  : DataStore.t -> Response (string * Agent.t) * DataStore.t :=
  fun s =>
    let '(agent, s) := DataStore.get_agent s agent_id in
    match agent with
    | None => (Failure "Agent not found" None 404, s)
    | Some agent =>
        let new_workload := match workload with Some w => w | None => 0%Z end in
        if (0 <=? new_workload)%Z
           && (new_workload <=? Agent.max_concurrent agent)%Z
        then
          let agent := Agent.set_current_workload agent new_workload in
          let agent :=
            if (new_workload =? 0)%Z then Agent.set_status agent available
            else if (Agent.max_concurrent agent <=? new_workload)%Z
            then Agent.set_status agent busy
            else Agent.set_status agent available in
          (Success ("Agent workload updated"%string, agent),
           DataStore.set_agents s (Dict.set (DataStore.agents s) agent_id agent))
        else (Failure "Invalid workload value" None 400, s)
    end.

Record QueueMetrics := mk_queue {
  customers_waiting : nat;
  agents_available : nat;
  agents_busy : nat;
  total_agents : nat
}.

(** [GET /analytics/performance]. *)
Definition get_performance_metrics
           (np_mean np_std : list float -> float) (class_name : string)
           (routing_engine : RoutingEngine.t)
  : DataStore.t
    -> (RoutingEngine.Statistics.t * QueueMetrics * Features.ModelInfo)
       * DataStore.t :=
  fun s =>
    let routing_results := DataStore.get_routing_results s in
    let stats :=
      RoutingEngine.get_routing_statistics np_mean np_std routing_results in
    let '(customers, s) := DataStore.get_customers s in
    let '(agents, s) := DataStore.get_agents s in
    ((stats,
      mk_queue
        (List.length customers)
        (List.length
           (filter (fun a => AgentStatus_eqb (Agent.status a) available) agents))
        (List.length
           (filter (fun a => AgentStatus_eqb (Agent.status a) busy) agents))
        (List.length agents),
      Features.get_model_info class_name
        (RoutingEngine.predictor routing_engine)),
     s).

(** A [for] loop of a handler that carries a counter. *)
Fixpoint for_count {A} (xs : list A) (body : nat -> A -> Handler nat) (n : nat)
  : Handler nat :=
  match xs with
  | [] => ret n
  | x :: xs' => n' <~ body n x ;; for_count xs' body n'
  end.

(** The agent freed by [complete_all_active_tasks]. *)
Definition release_all (agent : Agent.t) : Agent.t :=
  let agent := Agent.set_current_workload agent
                 (Z.max 0 (Agent.current_workload agent - 1)) in
  if (Agent.current_workload agent =? 0)%Z
  then Agent.set_status agent available
  else agent.

(** [POST /routing/complete-all]: the loop runs over the objects held by
    [routing_results] when it starts. *)
Definition complete_all_active_tasks
  : DataStore.t -> Response nat * DataStore.t :=
  try_except
    (routing_results <~ call (fun s => (DataStore.routing_results s, s)) ;;
     completed_count <~
       for_count routing_results
         (fun completed_count '(slot, result) =>
            if ResultStatus_eqb (RoutingResult.status result) active
            then
              let result := result_set_status result completed in
              exec (fun s => DataStore.set_routing_results s
                               (Dict.set (DataStore.routing_results s)
                                         slot result)) ;;;
              _ <~ (fun s =>
                      (DataStore.update_routing_result_status
                         s (RoutingResult.id result) completed, s)) ;;
              agent <~ call (fun s =>
                  DataStore.get_agent s (RoutingResult.agent_id result)) ;;
              match agent with
              | Some agent =>
                  let agent := release_all agent in
                  store_agent (RoutingResult.agent_id result) agent ;;;
                  exec_db (fun db =>
                    DatabaseManager.update_agent_workload db
                      (Agent.id agent) (Agent.current_workload agent)) ;;;
                  exec_db (fun db =>
                    DatabaseManager.update_agent_status db
                      (Agent.id agent) (Agent.status agent))
              | None => ret tt
              end ;;;
              ret (S completed_count)
            else ret completed_count)
         0%nat ;;
     ret (Success completed_count))
    (fun e => Failure "Failed to complete tasks" (Some e) 500).

End Api.

(* ================================================================== *)
(** ** Vocabulary of the further properties *)

Module SpecMore.

Import RoutingScorePredictor RoutingEngine Spec.
Local Open Scope float_scope.

(** [customer] with another channel. *)
Definition with_channel (customer : Customer.t) (channel : Channel)
  : Customer.t :=
  Customer.mk (Customer.id customer) (Customer.name customer)
    (Customer.sentiment customer) (Customer.tier customer)
    (Customer.issue_type customer) (Customer.issue_complexity customer)
    channel (Customer.wait_time customer) (Customer.priority customer)
    (Customer.context customer).

(** What the scan holds after the agents [pre]: nothing yet, every agent
    seen being consumed; or an agent of the list that is not consumed,
    together with its entry of the matrix. *)
Definition scan_found (agents : list Agent.t) (used_agents : list nat)
           (m : matrix) (c : nat) (pre : list nat) (st : option nat * float)
  : Prop :=
  match fst st with
  | None => snd st = -1 /\ Forall (fun k => unused used_agents k = false) pre
  | Some b => (b < List.length agents)%nat
              /\ unused used_agents b = true
              /\ score_at m c b = Ok (snd st)
  end.

(** What the pass holds after the customers [pre]: the customers served are
    the first ones of [pre], as many as there are agents; the agents are
    pairwise distinct and are the consumed ones; every triple carries the
    matrix entry of its pair. *)
Definition pass_served (agents : list Agent.t) (m : matrix) (pre : list nat)
           (st : list (nat * nat * float) * list nat) : Prop :=
  map customer_of (fst st) = firstn (List.length agents) pre
  /\ NoDup (map agent_of (fst st))
  /\ (forall a, In a (snd st) <-> In a (map agent_of (fst st)))
  /\ Forall (fun t => (agent_of t < List.length agents)%nat
                      /\ score_at m (customer_of t) (agent_of t) = Ok (snd t))
            (fst st).

(** What [auto_route] does with one result of the pass. *)
Definition auto_route_body (result : RoutingResult.t) : Handler unit :=
  exec (fun s => DataStore.add_routing_result s result) ;;;
  agent <~ call (fun s =>
      DataStore.get_agent s (RoutingResult.agent_id result)) ;;
  match agent with
  | Some agent =>
      let agent := Agent.set_current_workload agent
                     (Agent.current_workload agent + 1) in
      store_agent (RoutingResult.agent_id result) agent ;;;
      exec_db (fun db =>
        DatabaseManager.update_agent_workload db
          (Agent.id agent) (Agent.current_workload agent))
  | None => ret tt
  end ;;;
  exec_db (fun db =>
    DatabaseManager.update_customer_status db
      (RoutingResult.customer_id result) "routed") ;;;
  _ <~ call (fun s =>
      DataStore.remove_customer s
        (RoutingResult.customer_id result)) ;;
  ret tt.

(** [routing_results] after the results [results] were added in order. *)
Definition recorded (results : list RoutingResult.t)
           (routing_results : Dict.t RoutingResult.t)
  : Dict.t RoutingResult.t :=
  fold_left (fun d r => Dict.set d (RoutingResult.id r) r)
            results routing_results.

(** What [complete_all_active_tasks] does with one routing result. *)
Definition complete_all_body (completed_count : nat)
           (entry : string * RoutingResult.t) : Handler nat :=
  let '(slot, result) := entry in
  if ResultStatus_eqb (RoutingResult.status result) active
  then
    let result := result_set_status result completed in
    exec (fun s => DataStore.set_routing_results s
                     (Dict.set (DataStore.routing_results s)
                               slot result)) ;;;
    _ <~ (fun s =>
            (DataStore.update_routing_result_status
               s (RoutingResult.id result) completed, s)) ;;
    agent <~ call (fun s =>
        DataStore.get_agent s (RoutingResult.agent_id result)) ;;
    match agent with
    | Some agent =>
        let agent := Api.release_all agent in
        store_agent (RoutingResult.agent_id result) agent ;;;
        exec_db (fun db =>
          DatabaseManager.update_agent_workload db
            (Agent.id agent) (Agent.current_workload agent)) ;;;
        exec_db (fun db =>
          DatabaseManager.update_agent_status db
            (Agent.id agent) (Agent.status agent))
    | None => ret tt
    end ;;;
    ret (S completed_count)
  else ret completed_count.

(** The division of the two [int]s of the workload ratio does not raise
    [OverflowError]: the quotient is in the range of the doubles. *)
Definition ratio_in_range (agent : Agent.t) : Prop :=
  Py.overflowed (RoutingScorePredictor.workload_ratio agent) = false.

(** The routing results with the first active one marked completed. *)
Fixpoint first_active_completed (routing_results : Dict.t RoutingResult.t)
  : Dict.t RoutingResult.t :=
  match routing_results with
  | [] => []
  | (slot, result) :: rest =>
      if ResultStatus_eqb (RoutingResult.status result) active
      then (slot, result_set_status result completed) :: rest
      else (slot, result) :: first_active_completed rest
  end.

(** The number of active routing results. *)
Definition active_count (routing_results : Dict.t RoutingResult.t) : nat :=
  List.length
    (filter (fun r => ResultStatus_eqb (RoutingResult.status r) active)
            (Dict.values routing_results)).

(** Every row of the customers table passes the validation of [Customer],
    as after [_cleanup_invalid_data]. *)
Definition customers_table_valid (s : DataStore.t) : Prop :=
  forallb DatabaseManager.customer_row_valid
          (DatabaseManager.customers (DataStore.db s)) = true.

(** A store with one waiting customer in the table and another one in
    memory. *)
Definition queued_store : DataStore.t :=
  DataStore.mk
    (DatabaseManager.mk true [(urgent_customer, "waiting"%string)] [sarah 2])
    [("c2"%string, patient_customer)]
    [("a1"%string, sarah 2)]
    [].

(** [agent.current_workload += 1]. *)
Definition one_more (agent : Agent.t) : Agent.t :=
  Agent.set_current_workload agent (Agent.current_workload agent + 1).

(** The in-memory agents are stored under their own ids. *)
Definition keyed (cache : Dict.t Agent.t) : Prop :=
  forall kv, In kv cache -> Agent.id (snd kv) = fst kv.

Definition keyed_get (cache : Dict.t Agent.t) : Prop :=
  forall k v, Dict.get cache k = Some v -> Agent.id v = k.

(** What the dictionary, the primary key of the table and its INTEGER
    columns guarantee. *)
Definition agents_wf (s : DataStore.t) : Prop :=
  NoDup (Dict.keys (DataStore.agents s))
  /\ keyed (DataStore.agents s)
  /\ NoDup (map Agent.id (DatabaseManager.agents (DataStore.db s)))
  /\ Forall (fun row =>
               DatabaseManager.fits_integer (Agent.current_workload row) = true
               /\ DatabaseManager.fits_integer (Agent.max_concurrent row) = true)
            (DatabaseManager.agents (DataStore.db s)).

(** No agent that the store answers holds more conversations than its
    maximum. *)
Definition within_capacity (s : DataStore.t) : Prop :=
  forall id agent,
    observed_agent s id = Some agent ->
    (Agent.current_workload agent <= Agent.max_concurrent agent)%Z.

(** [id] is the agent of one of the results. *)
Definition routed (results : list RoutingResult.t) (id : string) : bool :=
  existsb (String.eqb id) (map RoutingResult.agent_id results).

End SpecMore.

(* ================================================================== *)
(** * Properties *)

Import Spec.

(** ** The score predictor *)

Section PredictorProperties.

Import RoutingScorePredictor.
Local Open Scope float_scope.

Lemma str_in_swap (rel specialty : list string) :
  Py.any (fun spec => Py.str_in spec specialty) rel
  = existsb (fun s => existsb (fun r => String.eqb r s) rel) specialty.
Proof.
  unfold Py.any, Py.str_in.
  induction rel as [|r rel IH]; simpl.
  - induction specialty; simpl; auto.
  - rewrite IH. clear IH.
    induction specialty as [|s specialty IH]; simpl; auto.
    rewrite <- IH.
    destruct (String.eqb r s), (existsb (String.eqb r) specialty),
      (existsb (fun r0 => String.eqb r0 s) rel); simpl; auto;
      rewrite ?orb_true_r; auto.
Qed.

Lemma related_lookup (issue_type spec : string) :
  existsb (fun r => String.eqb r spec)
          (match Dict.get related_matches issue_type with
           | Some l => l
           | None => []
           end)
  = related issue_type spec.
Proof.
  cbv [related related_matches related_pairs Dict.get existsb fst snd].
  repeat match goal with
  | |- context [String.eqb issue_type ?k] =>
      let E := fresh "E" in
      destruct (String.eqb issue_type k) eqn:E;
      [ apply String.eqb_eq in E; subst issue_type;
        eval_closed_eqb; cbv [andb orb];
        repeat match goal with
               | |- context [String.eqb ?a spec] =>
                   destruct (String.eqb a spec)
               end; reflexivity
      | ]
  end.
  reflexivity.
Qed.

Lemma specialty_match_refines (agent : Agent.t) (customer : Customer.t) :
  _calculate_specialty_match agent customer
  = specialty_match_spec agent customer.
Proof.
  unfold _calculate_specialty_match, specialty_match_spec.
  destruct (Agent.specialty agent) as [|s0 rest] eqn:Hs.
  - reflexivity.
  - destruct (Py.str_in (Customer.issue_type customer) (s0 :: rest)); auto.
    rewrite str_in_swap.
    assert (E : forall l,
               existsb (fun s =>
                 existsb (fun r => String.eqb r s)
                   (match Dict.get related_matches
                            (Customer.issue_type customer) with
                    | Some l => l
                    | None => []
                    end)) l
               = existsb (related (Customer.issue_type customer)) l).
    { induction l as [|s l IH]; cbn [existsb]; [reflexivity|].
      now rewrite IH, related_lookup. }
    now rewrite E.
Qed.

(** C4. For the customer (negative, premium, "billing", complexity 4.0) and
    the agent (specialty ["billing"], experience 5, past success 0.9,
    workload 0 of 3), whatever their other fields, the summands of the
    rule-based fallback are -0.2, +0.1, -0.225, +0.36, +0.2, +0.12 and -0,
    and the score returned after the clamp is 0.855 up to 1e-6. *)
Theorem fallback_concrete_scenario
        (cid cname aid aname : string) (ch : Channel) (wait prio : Z)
        (ctx : list (string * string)) (aht : float) (st : AgentStatus)
        (sk : list (string * float)) :
  let customer :=
    Customer.mk cid cname negative premium "billing" 4.0 ch wait prio ctx in
  let agent :=
    Agent.mk aid aname ["billing"%string] 5 aht 0.9 0 3 st sk in
  sentiment_bonus customer = -0.2
  /\ tier_bonus customer = 0.1
  /\ close (normalized_complexity customer * 0.3) 0.225
  /\ close (_calculate_specialty_match agent customer * 0.4) 0.36
  /\ experience_bonus agent = 0.2
  /\ close ((Agent.past_success_rate agent - 0.5) * 0.3) 0.12
  /\ workload_ratio agent * 0.2 = 0
  /\ close (0.5 + -0.2 + 0.1 - 0.225 + 0.36 + 0.2 + 0.12 - 0) 0.855
  /\ close (_fallback_rule_based_score customer agent) 0.855
  /\ _fallback_rule_based_score customer agent = 0.85500000000000009.
Proof.
  intros customer agent. unfold close.
  repeat split; vm_compute; reflexivity.
Qed.

(** C5 (as the claim states it, refuted). An account_management customer
    and an agent whose specialty includes complaint_resolution do not
    score 0.6. *)
Lemma specialty_match_one_directional :
  Py.str_in "complaint_resolution" (Agent.specialty complaint_agent) = true
  /\ Customer.issue_type account_customer = "account_management"%string
  /\ _calculate_specialty_match complaint_agent account_customer <> 0.6.
Proof.
  repeat split.
  intros H.
  assert (E : (_calculate_specialty_match complaint_agent account_customer =? 0.6)
              = (0.6 =? 0.6)) by (rewrite H; reflexivity).
  vm_compute in E. discriminate.
Qed.

(** C5 (amended). For every agent and customer the specialty match is 0.9
    on a direct match; else 0.6 when the table relates the customer's issue
    type to one of the agent's specialties, the table being
    technical_support<->product_inquiry, billing<->account_management,
    sales<->product_inquiry and, in one direction only,
    complaint_resolution (customer) -> account_management (agent); else 0.3
    for an agent without specialties; else 0.2. A complaint_resolution
    customer scores 0.6 with an account_management agent, and an
    account_management customer scores 0.2 with an agent whose only
    specialty is complaint_resolution. *)
Theorem specialty_match_table :
  (forall agent customer,
      _calculate_specialty_match agent customer
      = specialty_match_spec agent customer)
  /\ _calculate_specialty_match account_agent complaint_customer = 0.6
  /\ _calculate_specialty_match complaint_agent account_customer = 0.2.
Proof.
  split; [exact specialty_match_refines|].
  split; reflexivity.
Qed.


End PredictorProperties.

(** ** Order facts on binary64 numbers *)

Section FloatOrder.

Local Open Scope float_scope.

Lemma SFcompare_defined (x y : spec_float) :
  is_nan x = false -> is_nan y = false -> exists c, SFcompare x y = Some c.
Proof. destruct x, y; simpl; intros; try discriminate; eauto. Qed.

Lemma SFcompare_antisym (x y : spec_float) (c : comparison) :
  SFcompare x y = Some c -> SFcompare y x = Some (CompOpp c).
Proof.
  destruct x as [sx|sx| |sx mx ex], y as [sy|sy| |sy my ey]; simpl;
    try discriminate;
    try (destruct sx; try destruct sy; intros [= <-]; reflexivity);
    try (destruct sy; intros [= <-]; reflexivity);
    try (intros [= <-]; reflexivity).
  change (PosDef.Pos.compare_cont Eq mx my) with (Pos.compare mx my).
  change (PosDef.Pos.compare_cont Eq my mx) with (Pos.compare my mx).
  rewrite (Z.compare_antisym ex ey), (Pos.compare_antisym mx my).
  destruct sx, sy; intros [= <-]; try reflexivity;
    destruct (ex ?= ey)%Z; simpl; try reflexivity;
    destruct (mx ?= my)%positive; reflexivity.
Qed.

Lemma SFleb_trans (x y z : spec_float) :
  SFleb x y = true -> SFleb y z = true -> SFleb x z = true.
Proof.
  unfold SFleb.
  destruct x as [sx|sx| |sx mx ex], y as [sy|sy| |sy my ey],
           z as [sz|sz| |sz mz ez]; simpl; try discriminate; try reflexivity;
    try (destruct sx; try discriminate; try reflexivity);
    try (destruct sy; try discriminate; try reflexivity);
    try (destruct sz; try discriminate; try reflexivity);
    change (PosDef.Pos.compare_cont Eq) with Pos.compare;
    repeat match goal with
    | |- context [(?a ?= ?b)%Z] => destruct (Z.compare_spec a b)
    | |- context [(?a ?= ?b)%positive] => destruct (Pos.compare_spec a b)
    end; simpl; try discriminate; try reflexivity; intros; try lia.
Qed.

Lemma leb_ordered (x y : float) : (x <=? y) = true -> ordered x /\ ordered y.
Proof.
  rewrite FloatAxioms.leb_spec. unfold ordered.
  destruct (Prim2SF x), (Prim2SF y); simpl; try discriminate; auto.
Qed.

Lemma ltb_negb_leb (x y : float) :
  ordered x -> ordered y -> (x <? y) = negb (y <=? x).
Proof.
  unfold ordered. intros Hx Hy.
  rewrite FloatAxioms.ltb_spec, FloatAxioms.leb_spec.
  destruct (SFcompare_defined _ _ Hx Hy) as [c Hc].
  unfold SFltb, SFleb. rewrite Hc, (SFcompare_antisym _ _ _ Hc).
  destruct c; reflexivity.
Qed.

Lemma leb_trans (x y z : float) :
  (x <=? y) = true -> (y <=? z) = true -> (x <=? z) = true.
Proof. rewrite !FloatAxioms.leb_spec. apply SFleb_trans. Qed.

Lemma leb_refl (x : float) : ordered x -> (x <=? x) = true.
Proof.
  unfold ordered. intros Hx. rewrite FloatAxioms.leb_spec.
  destruct (SFcompare_defined _ _ Hx Hx) as [c Hc].
  pose proof (SFcompare_antisym _ _ _ Hc) as Hc'.
  unfold SFleb. rewrite Hc. rewrite Hc in Hc'.
  destruct c; try reflexivity; discriminate.
Qed.

Lemma ltb_leb (x y : float) : (x <? y) = true -> (x <=? y) = true.
Proof.
  rewrite FloatAxioms.ltb_spec, FloatAxioms.leb_spec. unfold SFltb, SFleb.
  destruct (SFcompare (Prim2SF x) (Prim2SF y)) as [[]|]; auto.
Qed.

Lemma not_ltb_leb (x y : float) :
  ordered x -> ordered y -> (x <? y) = false -> (y <=? x) = true.
Proof.
  intros Hx Hy H. rewrite (ltb_negb_leb x y Hx Hy) in H.
  now destruct (y <=? x).
Qed.

End FloatOrder.

(** ** Routing statistics *)

Section StatisticsProperties.

Import RoutingEngine.
Local Open Scope float_scope.

Lemma min_of_spec (rest : list float) : forall first,
  ordered first -> Forall ordered rest ->
  In (min_of first rest) (first :: rest)
  /\ (min_of first rest <=? first) = true
  /\ Forall (fun s => (min_of first rest <=? s) = true) rest.
Proof.
  unfold min_of.
  induction rest as [|x rest IH]; intros first Hf Hr; cbn [fold_left].
  - repeat split; [now left | now apply leb_refl | constructor].
  - inversion Hr as [|? ? Hx Hr']; subst.
    unfold Py.min at 2 4 6. destruct (x <? first) eqn:E.
    + destruct (IH x Hx Hr') as (Hin & Hle & Hall).
      repeat split.
      * now right.
      * eapply leb_trans; [exact Hle | apply ltb_leb; exact E].
      * constructor; assumption.
    + destruct (IH first Hf Hr') as (Hin & Hle & Hall).
      repeat split.
      * destruct Hin as [<- | Hin]; [now left | now right; right].
      * exact Hle.
      * constructor; [|assumption].
        eapply leb_trans; [exact Hle | apply not_ltb_leb; [exact Hx | exact Hf | exact E]].
Qed.

Lemma max_of_spec (rest : list float) : forall first,
  ordered first -> Forall ordered rest ->
  In (max_of first rest) (first :: rest)
  /\ (first <=? max_of first rest) = true
  /\ Forall (fun s => (s <=? max_of first rest) = true) rest.
Proof.
  unfold max_of.
  induction rest as [|x rest IH]; intros first Hf Hr; cbn [fold_left].
  - repeat split; [now left | now apply leb_refl | constructor].
  - inversion Hr as [|? ? Hx Hr']; subst.
    unfold Py.max at 2 4 6. destruct (first <? x) eqn:E.
    + destruct (IH x Hx Hr') as (Hin & Hle & Hall).
      repeat split.
      * now right.
      * eapply leb_trans; [apply ltb_leb; exact E | exact Hle].
      * constructor; assumption.
    + destruct (IH first Hf Hr') as (Hin & Hle & Hall).
      repeat split.
      * destruct Hin as [<- | Hin]; [now left | now right; right].
      * exact Hle.
      * constructor; [|assumption].
        eapply leb_trans; [apply not_ltb_leb; [exact Hf | exact Hx | exact E] | exact Hle].
Qed.

Lemma confidence_bucket (s : float) :
  ordered s ->
  ((0.8 <=? s) = true /\ ((0.6 <=? s) && (s <? 0.8)) = false /\ (s <? 0.6) = false)
  \/ ((0.8 <=? s) = false /\ ((0.6 <=? s) && (s <? 0.8)) = true /\ (s <? 0.6) = false)
  \/ ((0.8 <=? s) = false /\ ((0.6 <=? s) && (s <? 0.8)) = false /\ (s <? 0.6) = true).
Proof.
  intros Hs.
  assert (H8 : ordered 0.8) by reflexivity.
  assert (H6 : ordered 0.6) by reflexivity.
  rewrite (ltb_negb_leb s 0.8 Hs H8), (ltb_negb_leb s 0.6 Hs H6).
  destruct (0.8 <=? s) eqn:A.
  - left. rewrite (leb_trans 0.6 0.8 s eq_refl A). auto.
  - destruct (0.6 <=? s); [right; left | right; right]; auto.
Qed.

Lemma confidence_counts_partition (scores : list float) :
  Forall ordered scores ->
  (count (fun s => (0.8 <=? s)%float) scores
   + count (fun s => ((0.6 <=? s) && (s <? 0.8))%float) scores
   + count (fun s => (s <? 0.6)%float) scores)%nat
  = List.length scores.
Proof.
  unfold count.
  induction 1 as [|s scores Hs _ IH]; [reflexivity|].
  cbn [filter].
  destruct (confidence_bucket s Hs) as [(-> & -> & ->) | [(-> & -> & ->) | (-> & -> & ->)]];
    cbn [List.length]; lia.
Qed.

Lemma count_of_scores (p : float -> bool) (results : list RoutingResult.t) :
  count p (map RoutingResult.routing_score results)
  = List.length (filter (fun r => p (RoutingResult.routing_score r)) results).
Proof.
  unfold count. induction results as [|r results IH]; [reflexivity|].
  cbn [map filter]. destruct (p (RoutingResult.routing_score r));
    cbn [List.length]; now rewrite IH.
Qed.

(** C10. On the empty list [get_routing_statistics] answers exactly
    total_routings 0, average_score 0.0 and three zero counts, with no
    score_distribution entry. On a non-empty list of results (each with a
    score in [0, 1], as [RoutingResult] validates) the dictionary has a
    score_distribution entry whose min and max are scores of the list that
    bound every score from below and from above and whose std is [np.std] of
    the scores; total_routings is the length of the list;
    high_confidence_matches is the number of results with a score >= 0.8,
    medium_confidence_matches the number of results with a score in
    [0.6, 0.8), low_confidence_matches the number of results with a score
    < 0.6; every result is in exactly one of the three, so that the counts
    add up to total_routings. *)
Theorem routing_statistics_shape
        (np_mean np_std : list float -> float) (results : list RoutingResult.t) :
  Forall valid_score results ->
  let stats := get_routing_statistics np_mean np_std results in
  let scores := map RoutingResult.routing_score results in
  let is_high := fun r => 0.8 <=? RoutingResult.routing_score r in
  let is_medium := fun r => (0.6 <=? RoutingResult.routing_score r)
                            && (RoutingResult.routing_score r <? 0.8) in
  let is_low := fun r => RoutingResult.routing_score r <? 0.6 in
  match results with
  | [] => stats = Statistics.mk 0 0.0 0 0 0 None
  | _ :: _ =>
      (exists d,
          Statistics.score_distribution stats = Some d
          /\ In (Statistics.min d) scores
          /\ Forall (fun s => (Statistics.min d <=? s) = true) scores
          /\ In (Statistics.max d) scores
          /\ Forall (fun s => (s <=? Statistics.max d) = true) scores
          /\ Statistics.std d = np_std scores)
      /\ Statistics.average_score stats = np_mean scores
      /\ Statistics.total_routings stats = List.length results
      /\ Statistics.high_confidence_matches stats
         = List.length (filter is_high results)
      /\ Statistics.medium_confidence_matches stats
         = List.length (filter is_medium results)
      /\ Statistics.low_confidence_matches stats
         = List.length (filter is_low results)
      /\ Forall (fun r =>
                   (is_high r = true /\ is_medium r = false /\ is_low r = false)
                   \/ (is_high r = false /\ is_medium r = true
                       /\ is_low r = false)
                   \/ (is_high r = false /\ is_medium r = false
                       /\ is_low r = true))
                results
      /\ (Statistics.high_confidence_matches stats
          + Statistics.medium_confidence_matches stats
          + Statistics.low_confidence_matches stats)%nat
         = Statistics.total_routings stats
  end.
Proof.
  intros Hvalid stats scores is_high is_medium is_low.
  destruct results as [|r results]; [reflexivity|].
  assert (Hord : Forall ordered scores).
  { subst scores. apply Forall_map.
    eapply Forall_impl; [|exact Hvalid].
    intros a [H0 _]. now apply leb_ordered in H0. }
  subst stats. unfold get_routing_statistics.
  cbn [Statistics.score_distribution Statistics.average_score
       Statistics.total_routings Statistics.high_confidence_matches
       Statistics.medium_confidence_matches Statistics.low_confidence_matches].
  fold scores.
  split; [|split; [reflexivity|split; [reflexivity|]]].
  - subst scores. cbn [map] in *.
    inversion Hord as [|? ? Hr Hrest]; subst.
    destruct (min_of_spec _ _ Hr Hrest) as (Hin & Hle & Hall).
    destruct (max_of_spec _ _ Hr Hrest) as (Hin' & Hle' & Hall').
    eexists. split; [reflexivity|].
    cbn [Statistics.min Statistics.max Statistics.std].
    repeat split; auto.
  - split; [apply (count_of_scores (fun s => 0.8 <=? s))|].
    split; [apply (count_of_scores (fun s => (0.6 <=? s) && (s <? 0.8)))|].
    split; [apply (count_of_scores (fun s => s <? 0.6))|].
    split.
    + eapply Forall_impl; [|exact Hvalid].
      intros a [H0 _]. apply leb_ordered in H0. destruct H0 as [_ Ha].
      apply (confidence_bucket _ Ha).
    + rewrite (confidence_counts_partition scores Hord).
      subst scores. now rewrite length_map.
Qed.

(** The theorem at three results scoring 0.85, 0.7 and 0.3: one high, one
    medium, one low. *)
Lemma routing_statistics_shape_witness :
  Forall valid_score sample_results
  /\ (let stats :=
        get_routing_statistics (fun _ => 0) (fun _ => 0) sample_results in
      Statistics.score_distribution stats
      = Some (Statistics.mk_distribution 0.3 0.85 0)
      /\ Statistics.high_confidence_matches stats = 1%nat
      /\ Statistics.medium_confidence_matches stats = 1%nat
      /\ Statistics.low_confidence_matches stats = 1%nat).
Proof.
  assert (Hv : Forall valid_score sample_results).
  { repeat constructor. }
  split; [exact Hv|].
  pose proof (routing_statistics_shape (fun _ => 0) (fun _ => 0) sample_results Hv) as H.
  cbv zeta in H. destruct H as (_ & _ & _ & Hhigh & Hmedium & Hlow & _).
  split; [reflexivity|].
  rewrite Hhigh, Hmedium, Hlow. repeat split.
Defined.

End StatisticsProperties.

(** ** The assignment solver *)

Section SolverProperties.

Import RoutingScorePredictor RoutingEngine SpecMore.
Local Open Scope float_scope.

(** Loops: an invariant indexed by the elements already visited. *)
Lemma for_loop_prefix {A S : Type} (P : list A -> S -> Prop)
      (body : S -> A -> result S) (l : list A) :
  (forall pre x post st,
      l = pre ++ x :: post -> P pre st ->
      exists st', body st x = Ok st' /\ P (pre ++ [x]) st') ->
  forall st, P [] st -> exists st', for_loop l body st = Ok st' /\ P l st'.
Proof.
  intros Hstep.
  assert (G : forall post pre st,
             l = pre ++ post -> P pre st ->
             exists st', for_loop post body st = Ok st' /\ P l st').
  { induction post as [|x post IH]; intros pre st Hl Hp.
    - rewrite app_nil_r in Hl. subst pre. exists st. now split.
    - destruct (Hstep pre x post st Hl Hp) as (st1 & Hb & Hp1).
      cbn [for_loop]. rewrite Hb. cbn [bind].
      apply (IH (pre ++ [x])); [|exact Hp1].
      now rewrite <- app_assoc. }
  intros st Hp. now apply (G l [] st).
Qed.

Lemma for_loop_invariant {A S : Type} (P : S -> Prop)
      (body : S -> A -> result S) (l : list A) :
  (forall st x, In x l -> P st -> exists st', body st x = Ok st' /\ P st') ->
  forall st, P st -> exists st', for_loop l body st = Ok st' /\ P st'.
Proof.
  intros Hstep.
  apply (for_loop_prefix (fun _ => P)).
  intros pre x post st Hl Hp. apply Hstep; [|exact Hp].
  subst l. apply in_or_app. right. now left.
Qed.

(** Loops skip what their body ignores. *)
Lemma for_loop_filter {A S : Type} (keep : A -> bool)
      (body : S -> A -> result S) (l : list A) :
  (forall st x, keep x = false -> body st x = Ok st) ->
  forall st, for_loop l body st = for_loop (filter keep l) body st.
Proof.
  intros Hskip. induction l as [|x l IH]; intros st; [reflexivity|].
  cbn [for_loop filter]. destruct (keep x) eqn:K.
  - cbn [for_loop]. destruct (body st x); cbn [bind]; auto.
  - rewrite (Hskip st x K). cbn [bind]. apply IH.
Qed.

(** *** The processing order *)

Lemma insert_desc_perm (key : nat -> Z) (i : nat) (l : list nat) :
  Permutation (insert_desc key i l) (i :: l).
Proof.
  induction l as [|j l IH]; cbn [insert_desc]; [reflexivity|].
  destruct (key i <=? key j)%Z; [|reflexivity].
  rewrite IH. apply perm_swap.
Qed.

Lemma sort_reverse_perm_acc (key : nat -> Z) (l : list nat) : forall acc,
  Permutation (fold_left (fun sorted i => insert_desc key i sorted) l acc)
              (acc ++ l).
Proof.
  induction l as [|i l IH]; intros acc; cbn [fold_left].
  - now rewrite app_nil_r.
  - rewrite IH, insert_desc_perm.
    cbn [app]. apply Permutation_middle.
Qed.

Lemma sort_reverse_perm (key : nat -> Z) (l : list nat) :
  Permutation (sort_reverse key l) l.
Proof. apply (sort_reverse_perm_acc key l []). Qed.

Lemma customer_indices_perm (customers : list Customer.t) :
  Permutation (customer_indices customers) (seq 0 (List.length customers)).
Proof. apply sort_reverse_perm. Qed.




(** *** The scan for the best agent *)

Lemma index_lt {A : Type} (l : list A) (i : nat) :
  (i < List.length l)%nat -> exists x, index l i = Ok x.
Proof.
  intros H. unfold index.
  destruct (nth_error l i) eqn:E; [eauto|].
  apply nth_error_None in E. lia.
Qed.

Lemma unused_spec (used_agents : list nat) (k : nat) :
  unused used_agents k = true <-> ~ In k used_agents.
Proof.
  unfold unused. rewrite negb_true_iff.
  split.
  - intros H Hin.
    assert (E : existsb (Nat.eqb k) used_agents = true).
    { apply existsb_exists. exists k. split; [exact Hin | apply Nat.eqb_refl]. }
    congruence.
  - intros H. destruct (existsb (Nat.eqb k) used_agents) eqn:E; [|reflexivity].
    apply existsb_exists in E. destruct E as (x & Hin & Hx).
    apply Nat.eqb_eq in Hx. subst x. contradiction.
Qed.

Lemma scan_agent_step (self : t) (agents : list Agent.t) (m : matrix)
      (used_agents : list nat) (N c : nat) :
  well_formed N (List.length agents) m -> (c < N)%nat ->
  forall st k,
    In k (seq 0 (List.length agents)) ->
    scan_inv agents used_agents st ->
    exists st',
      scan_agent self agents m used_agents c st k = Ok st'
      /\ scan_inv agents used_agents st'.
Proof.
  intros Hwf Hc [best bs] k Hk Hinv.
  apply in_seq in Hk. destruct Hk as [_ Hk]. cbn [Nat.add] in Hk.
  unfold scan_agent.
  destruct (existsb (Nat.eqb k) used_agents) eqn:Hused; [eauto|].
  destruct (Hwf c k Hc Hk) as (s & Hs & Hgt).
  unfold score_at in Hs.
  destruct (index m c) as [row|e]; cbn [bind] in *; [|discriminate].
  rewrite Hs. cbn [bind].
  assert (Hnew : scan_inv agents used_agents (Some k, s)).
  { split; [exact Hk|]. unfold unused. now rewrite Hused. }
  destruct (bs <? s) eqn:Hlt; [eauto|].
  destruct (abs (s - bs) <? tie_break_threshold self); [|eauto].
  destruct best as [b|].
  - pose proof Hinv as [Hb _]. cbn [fst] in Hb.
    destruct (index_lt agents b Hb) as (ab & ->).
    destruct (index_lt agents k Hk) as (ak & ->).
    cbn [bind].
    destruct (Agent.current_workload ak <? Agent.current_workload ab)%Z; eauto.
  - cbn [scan_inv fst snd] in Hinv. subst bs. congruence.
Qed.

Lemma find_best_agent_ok (self : t) (agents : list Agent.t) (m : matrix)
      (used_agents : list nat) (N c : nat) :
  well_formed N (List.length agents) m -> (c < N)%nat ->
  exists st,
    find_best_agent self agents m used_agents c = Ok st
    /\ scan_inv agents used_agents st.
Proof.
  intros Hwf Hc. unfold find_best_agent.
  apply for_loop_invariant.
  - intros st k. now apply (scan_agent_step self agents m used_agents N c).
  - reflexivity.
Qed.

(** *** The pass over the customers *)

Lemma assign_customer_step (self : t) (agents : list Agent.t) (m : matrix)
      (N : nat) (pre : list nat) (c : nat)
      (st : list (nat * nat * float) * list nat) :
  well_formed N (List.length agents) m -> (c < N)%nat ->
  pass_inv agents pre st ->
  exists st',
    assign_customer self agents m st c = Ok st'
    /\ pass_inv agents (pre ++ [c]) st'.
Proof.
  intros Hwf Hc Hinv. destruct st as [asg used].
  destruct Hinv as (Hlen & Hnd & Hused & Hall). cbn [fst snd] in *.
  unfold assign_customer.
  destruct (find_best_agent_ok self agents m used N c Hwf Hc)
    as ([best bs] & -> & Hbest).
  cbn [bind].
  assert (Hall' : Forall (fun t => In (customer_of t) (pre ++ [c])
                                   /\ (agent_of t < List.length agents)%nat) asg).
  { eapply Forall_impl; [|exact Hall].
    intros t [H1 H2]. split; [|exact H2]. apply in_or_app. now left. }
  destruct best as [b|].
  - destruct Hbest as [Hb Hun]. cbn [fst] in *.
    apply unused_spec in Hun.
    eexists. split; [reflexivity|].
    unfold pass_inv. cbn [fst snd].
    rewrite length_app, map_app, length_app. cbn [map List.length agent_of fst snd].
    repeat split.
    + lia.
    + apply (Permutation_NoDup (l := b :: map agent_of asg)).
      * apply Permutation_cons_append.
      * constructor; [|exact Hnd]. intros Hin. apply Hun. now apply Hused.
    + intros [<- | Hin]; apply in_or_app; [right; now left | left; now apply Hused].
    + intros Hin. apply in_app_or in Hin.
      destruct Hin as [Hin | [<- | []]]; [right; now apply Hused | now left].
    + apply Forall_app. split; [exact Hall'|].
      constructor; [|constructor].
      cbn [customer_of agent_of fst snd]. split; [|exact Hb].
      apply in_or_app. right. now left.
  - eexists. split; [reflexivity|].
    unfold pass_inv. cbn [fst snd]. rewrite length_app. cbn [List.length].
    repeat split; try apply Hused; auto. lia.
Qed.

Lemma perform_optimal_assignment_ok (self : t) (customers : list Customer.t)
      (agents : list Agent.t) (m : matrix) :
  well_formed (List.length customers) (List.length agents) m ->
  exists assignments,
    _perform_optimal_assignment self customers agents m = Ok assignments
    /\ (List.length assignments
        <= Nat.min (List.length customers) (List.length agents))%nat
    /\ NoDup (map agent_of assignments)
    /\ Forall (fun t => (customer_of t < List.length customers)%nat
                        /\ (agent_of t < List.length agents)%nat) assignments.
Proof.
  intros Hwf. unfold _perform_optimal_assignment.
  destruct (for_loop_prefix (pass_inv agents)
              (assign_customer self agents m) (customer_indices customers))
    with (st := (@nil (nat * nat * float), @nil nat))
    as ([asg used] & -> & Hlen & Hnd & Hused & Hall).
  - intros pre x post st Hl Hinv.
    apply (assign_customer_step self agents m (List.length customers));
      [exact Hwf | | exact Hinv].
    assert (Hin : In x (customer_indices customers)).
    { rewrite Hl. apply in_or_app. right. now left. }
    apply (Permutation_in _ (customer_indices_perm customers)) in Hin.
    apply in_seq in Hin. lia.
  - repeat split; cbn [fst snd]; auto; try constructor; try (intros []).
  - cbn [bind fst snd] in *. exists asg. split; [reflexivity|].
    assert (Hn : List.length (customer_indices customers) = List.length customers).
    { rewrite (Permutation_length (customer_indices_perm customers)).
      apply List.length_seq. }
    assert (Hm : (List.length (map agent_of asg) <= List.length agents)%nat).
    { pose proof (@NoDup_incl_length nat (map agent_of asg)
                    (seq 0 (List.length agents)) Hnd) as Hle.
      rewrite List.length_seq in Hle. apply Hle.
      intros a Ha. apply in_map_iff in Ha. destruct Ha as (t & <- & Ht).
      rewrite Forall_forall in Hall. destruct (Hall t Ht) as [_ Hlt].
      apply in_seq. lia. }
    rewrite length_map in Hm.
    repeat split.
    + apply Nat.min_glb; lia.
    + exact Hnd.
    + eapply Forall_impl; [|exact Hall].
      intros t [H1 H2]. split; [|exact H2].
      apply (Permutation_in _ (customer_indices_perm customers)) in H1.
      apply in_seq in H1. lia.
Qed.

(** *** Scores of the predictor *)

Lemma ltb_leb_trans (x y z : float) :
  (x <? y) = true -> (y <=? z) = true -> (x <? z) = true.
Proof.
  intros Hxy Hyz.
  pose proof (ltb_leb x y Hxy) as Hle.
  destruct (leb_ordered x y Hle) as [Hx Hy].
  destruct (leb_ordered y z Hyz) as [_ Hz].
  rewrite (ltb_negb_leb x z Hx Hz).
  destruct (z <=? x) eqn:E; [|reflexivity].
  pose proof (leb_trans y z x Hyz E) as Hyx.
  rewrite (ltb_negb_leb x y Hx Hy), Hyx in Hxy. discriminate.
Qed.

Lemma clamp_above (lo hi x : float) :
  (-1 <? lo) = true -> (-1 <? Py.max lo (Py.min hi x)) = true.
Proof.
  intros Hlo. unfold Py.max.
  destruct (lo <? Py.min hi x) eqn:E; [|exact Hlo].
  apply (ltb_leb_trans (-1) lo); [exact Hlo | now apply ltb_leb].
Qed.

Lemma predict_above_initial_best (model : option Model)
      (customer : Customer.t) (agent : Agent.t) :
  (-1 <? predict_routing_score model customer agent) = true.
Proof.
  unfold predict_routing_score, _fallback_rule_based_score.
  destruct model as [predict_proba|];
    [destruct (predict_proba customer agent)|];
    now apply clamp_above.
Qed.

Lemma calculated_matrix_well_formed (self : t) (customers : list Customer.t)
      (agents : list Agent.t) :
  well_formed (List.length customers) (List.length agents)
              (_calculate_routing_matrix self customers agents).
Proof.
  intros c a Hc Ha.
  unfold score_at, _calculate_routing_matrix, index.
  rewrite nth_error_map.
  destruct (nth_error customers c) as [cu|] eqn:Ec;
    [|apply nth_error_None in Ec; lia].
  cbn [option_map bind]. rewrite nth_error_map.
  destruct (nth_error agents a) as [ag|] eqn:Ea;
    [|apply nth_error_None in Ea; lia].
  cbn [option_map]. eexists. split; [reflexivity|].
  apply predict_above_initial_best.
Qed.

(** C6. Every routing pass (N customers, M agents, the matrix of their
    predicted scores) makes the solver return an ordered list of
    (customer_idx, agent_idx, score) triples of length at most min(N, M), in
    which no agent index appears twice and every index is in range; this
    holds for any agent list, pre-filtered or not. *)
Theorem assignment_count_and_uniqueness
        (self : t) (customers : list Customer.t) (agents : list Agent.t) :
  exists assignments,
    _perform_optimal_assignment self customers agents
      (_calculate_routing_matrix self customers agents) = Ok assignments
    /\ (List.length assignments
        <= Nat.min (List.length customers) (List.length agents))%nat
    /\ NoDup (map agent_of assignments)
    /\ Forall (fun t => (customer_of t < List.length customers)%nat
                        /\ (agent_of t < List.length agents)%nat) assignments.
Proof.
  apply perform_optimal_assignment_ok, calculated_matrix_well_formed.
Qed.

(** *** The customers that are served *)

Lemma scan_agent_found (self : t) (agents : list Agent.t) (m : matrix)
      (used_agents : list nat) (N c : nat) :
  well_formed N (List.length agents) m -> (c < N)%nat ->
  forall pre k post st,
    seq 0 (List.length agents) = pre ++ k :: post ->
    scan_found agents used_agents m c pre st ->
    exists st',
      scan_agent self agents m used_agents c st k = Ok st'
      /\ scan_found agents used_agents m c (pre ++ [k]) st'.
Proof.
  intros Hwf Hc pre k post [best bs] Hseq Hinv.
  assert (Hk : (k < List.length agents)%nat).
  { assert (Hin : In k (seq 0 (List.length agents))).
    { rewrite Hseq. apply in_or_app. right. now left. }
    apply in_seq in Hin. lia. }
  unfold scan_agent.
  destruct (existsb (Nat.eqb k) used_agents) eqn:Hused.
  - exists (best, bs). split; [reflexivity|].
    unfold scan_found in *. cbn [fst snd] in *.
    destruct best as [b|]; [exact Hinv|].
    destruct Hinv as [Hbs Hall]. split; [exact Hbs|].
    apply Forall_app. split; [exact Hall|].
    constructor; [|constructor]. unfold unused. now rewrite Hused.
  - destruct (Hwf c k Hc Hk) as (s & Hs & Hgt).
    pose proof Hs as Hs'. unfold score_at in Hs'.
    destruct (index m c) as [row|e]; cbn [bind] in *; [|discriminate].
    rewrite Hs'. cbn [bind].
    assert (Hnew : scan_found agents used_agents m c (pre ++ [k]) (Some k, s)).
    { unfold scan_found. cbn [fst snd]. repeat split; auto.
      unfold unused. now rewrite Hused. }
    destruct (bs <? s) eqn:Hlt; [eauto|].
    destruct best as [b|].
    + assert (Hold : scan_found agents used_agents m c (pre ++ [k]) (Some b, bs))
        by exact Hinv.
      destruct (abs (s - bs) <? tie_break_threshold self); [|eauto].
      destruct Hinv as (Hb & _). cbn [fst] in Hb.
      destruct (index_lt agents b Hb) as (ab & ->).
      destruct (index_lt agents k Hk) as (ak & ->).
      cbn [bind].
      destruct (Agent.current_workload ak <? Agent.current_workload ab)%Z; eauto.
    + destruct Hinv as [Hbs _]. cbn [snd] in Hbs. subst bs. congruence.
Qed.

Lemma find_best_agent_found (self : t) (agents : list Agent.t) (m : matrix)
      (used_agents : list nat) (N c : nat) :
  well_formed N (List.length agents) m -> (c < N)%nat ->
  exists st,
    find_best_agent self agents m used_agents c = Ok st
    /\ scan_found agents used_agents m c (seq 0 (List.length agents)) st.
Proof.
  intros Hwf Hc. unfold find_best_agent.
  apply (for_loop_prefix (scan_found agents used_agents m c)).
  - intros pre k post st Hl Hinv.
    now apply (scan_agent_found self agents m used_agents N c Hwf Hc pre k post).
  - split; [reflexivity | constructor].
Qed.

Lemma distinct_below_length (l : list nat) (n : nat) :
  NoDup l -> Forall (fun a => (a < n)%nat) l -> (List.length l <= n)%nat.
Proof.
  intros Hnd Hall.
  pose proof (@NoDup_incl_length nat l (seq 0 n) Hnd) as H.
  rewrite List.length_seq in H. apply H.
  intros a Ha. rewrite Forall_forall in Hall. apply in_seq.
  specialize (Hall a Ha). lia.
Qed.

Lemma assign_customer_served (self : t) (agents : list Agent.t) (m : matrix)
      (N : nat) (pre : list nat) (c : nat)
      (st : list (nat * nat * float) * list nat) :
  well_formed N (List.length agents) m -> (c < N)%nat ->
  pass_served agents m pre st ->
  exists st',
    assign_customer self agents m st c = Ok st'
    /\ pass_served agents m (pre ++ [c]) st'.
Proof.
  intros Hwf Hc Hinv. destruct st as [asg used].
  destruct Hinv as (Hcust & Hnd & Hused & Hall). cbn [fst snd] in *.
  assert (Hlt : Forall (fun a => (a < List.length agents)%nat)
                       (map agent_of asg)).
  { apply Forall_map. eapply Forall_impl; [|exact Hall]. now intros t [H _]. }
  assert (Hlen : List.length asg
                 = Nat.min (List.length agents) (List.length pre)).
  { rewrite <- (length_map customer_of), Hcust. apply length_firstn. }
  unfold assign_customer.
  destruct (find_best_agent_found self agents m used N c Hwf Hc)
    as ([best bs] & -> & Hbest).
  cbn [bind]. unfold scan_found in Hbest. cbn [fst snd] in Hbest.
  destruct best as [b|].
  - destruct Hbest as (Hb & Hun & Hscore).
    apply unused_spec in Hun.
    assert (Hfresh : ~ In b (map agent_of asg))
      by (intros Hin; apply Hun; now apply Hused).
    assert (Hroom : (S (List.length asg) <= List.length agents)%nat).
    { rewrite <- (length_map agent_of).
      apply (distinct_below_length (b :: map agent_of asg));
        constructor; auto. }
    eexists. split; [reflexivity|].
    unfold pass_served. cbn [fst snd].
    rewrite !map_app. cbn [map customer_of agent_of fst snd].
    repeat split.
    + rewrite Hcust.
      rewrite !firstn_all2 by (rewrite ?length_app; cbn [List.length]; lia).
      reflexivity.
    + apply (Permutation_NoDup (l := b :: map agent_of asg));
        [apply Permutation_cons_append | now constructor].
    + intros [<- | Hin]; apply in_or_app;
        [right; now left | left; now apply Hused].
    + intros Hin. apply in_app_or in Hin.
      destruct Hin as [Hin | [<- | []]]; [right; now apply Hused | now left].
    + apply Forall_app. split; [exact Hall|].
      constructor; [|constructor]. cbn [customer_of agent_of fst snd]. auto.
  - destruct Hbest as [_ Hallused].
    assert (Hfull : (List.length agents <= List.length asg)%nat).
    { pose proof (@NoDup_incl_length nat (seq 0 (List.length agents))
                    (map agent_of asg) (seq_NoDup (List.length agents) 0)) as H.
      rewrite List.length_seq, length_map in H. apply H.
      intros a Ha. apply Hused.
      rewrite Forall_forall in Hallused. specialize (Hallused a Ha).
      unfold unused in Hallused. apply negb_false_iff in Hallused.
      apply existsb_exists in Hallused. destruct Hallused as (x & Hx & E).
      apply Nat.eqb_eq in E. now subst x. }
    eexists. split; [reflexivity|].
    unfold pass_served. cbn [fst snd]. repeat split; auto; try apply Hused.
    rewrite Hcust, firstn_app.
    replace (List.length agents - List.length pre)%nat with 0%nat by lia.
    cbn [firstn]. now rewrite app_nil_r.
Qed.

Lemma perform_optimal_assignment_serves (self : t)
      (customers : list Customer.t) (agents : list Agent.t) (m : matrix) :
  well_formed (List.length customers) (List.length agents) m ->
  exists assignments,
    _perform_optimal_assignment self customers agents m = Ok assignments
    /\ map customer_of assignments
       = firstn (List.length agents) (customer_indices customers)
    /\ NoDup (map agent_of assignments)
    /\ Forall (fun t => (agent_of t < List.length agents)%nat
                        /\ score_at m (customer_of t) (agent_of t) = Ok (snd t))
              assignments.
Proof.
  intros Hwf. unfold _perform_optimal_assignment.
  destruct (for_loop_prefix (pass_served agents m)
              (assign_customer self agents m) (customer_indices customers))
    with (st := (@nil (nat * nat * float), @nil nat))
    as ([asg used] & -> & Hinv).
  - intros pre x post st Hl Hinv.
    apply (assign_customer_served self agents m (List.length customers));
      [exact Hwf | | exact Hinv].
    assert (Hin : In x (customer_indices customers)).
    { rewrite Hl. apply in_or_app. right. now left. }
    apply (Permutation_in _ (customer_indices_perm customers)) in Hin.
    apply in_seq in Hin. lia.
  - unfold pass_served. cbn [fst snd map]. rewrite firstn_nil.
    repeat split; auto; try constructor; intros [].
  - cbn [bind fst]. exists asg. split; [reflexivity|].
    destruct Hinv as (H1 & H2 & _ & H4). cbn [fst snd] in *. auto.
Qed.

Lemma firstn_length_min {A : Type} (n : nat) (l : list A) :
  List.length (firstn n l) = Nat.min n (List.length l).
Proof. apply length_firstn. Qed.

Lemma customer_indices_length (customers : list Customer.t) :
  List.length (customer_indices customers) = List.length customers.
Proof.
  rewrite (Permutation_length (customer_indices_perm customers)).
  apply List.length_seq.
Qed.

Lemma customer_indices_NoDup (customers : list Customer.t) :
  NoDup (customer_indices customers).
Proof.
  apply (Permutation_NoDup (l := seq 0 (List.length customers)));
    [symmetry; apply customer_indices_perm | apply seq_NoDup].
Qed.

Lemma NoDup_firstn_of {A : Type} (n : nat) (l : list A) :
  NoDup l -> NoDup (firstn n l).
Proof.
  intros H. rewrite <- (firstn_skipn n l) in H.
  now apply NoDup_app_remove_r in H.
Qed.



(** *** The tie-break *)

Lemma scan_agent_skips_used (self : t) (agents : list Agent.t) (m : matrix)
      (used_agents : list nat) (c : nat) (st : option nat * float) (k : nat) :
  unused used_agents k = false ->
  scan_agent self agents m used_agents c st k = Ok st.
Proof.
  unfold unused, scan_agent. intros H. apply negb_false_iff in H.
  destruct st as [best bs]. now rewrite H.
Qed.

(** C2 (as the claim states it, refuted). One customer and two agents whose
    predicted scores differ by less than the threshold: visited second, the
    agent with the higher workload is assigned because its score is the
    greater one; with the two agents in the other order the agent with the
    lower workload is assigned. *)
Lemma tie_break_depends_on_visiting_order :
  let self := __init__ None in
  let idle_score := predict_routing_score None tie_customer idle_agent in
  let loaded_score := predict_routing_score None tie_customer loaded_agent in
  (abs (loaded_score - idle_score) <? tie_break_threshold self) = true
  /\ (Agent.current_workload idle_agent
      < Agent.current_workload loaded_agent)%Z
  /\ _perform_optimal_assignment self [tie_customer] [idle_agent; loaded_agent]
       (_calculate_routing_matrix self [tie_customer] [idle_agent; loaded_agent])
     = Ok [(0%nat, 1%nat, loaded_score)]
  /\ _perform_optimal_assignment self [tie_customer] [loaded_agent; idle_agent]
       (_calculate_routing_matrix self [tie_customer] [loaded_agent; idle_agent])
     = Ok [(0%nat, 1%nat, idle_score)].
Proof.
  cbv zeta. repeat split; vm_compute; reflexivity.
Qed.

(** C2 (amended). When the agents a customer can still get are exactly two,
    visited in the order [i] then [j], the solver assigns agent [j] if its
    score is strictly greater than agent [i]'s, whatever the workloads, or
    if its score is not greater, the two scores differ by less than the
    threshold and agent [j]'s workload is strictly lower; otherwise it
    assigns agent [i]. *)
Theorem tie_break_two_candidates
        (self : t) (agents : list Agent.t) (m : matrix)
        (assignments : list (nat * nat * float)) (used_agents : list nat)
        (c i j : nat) (si sj : float) (ai aj : Agent.t) :
  filter (unused used_agents) (seq 0 (List.length agents)) = [i; j] ->
  score_at m c i = Ok si -> score_at m c j = Ok sj ->
  (-1 <? si) = true ->
  index agents i = Ok ai -> index agents j = Ok aj ->
  assign_customer self agents m (assignments, used_agents) c
  = if (si <? sj)
       || ((abs (sj - si) <? tie_break_threshold self)
           && (Agent.current_workload aj <? Agent.current_workload ai)%Z)
    then Ok (assignments ++ [(c, j, sj)], j :: used_agents)
    else Ok (assignments ++ [(c, i, si)], i :: used_agents).
Proof.
  intros Hcand Hsi Hsj Hgt Hai Haj.
  assert (Hi : existsb (Nat.eqb i) used_agents = false).
  { assert (Hin : In i [i; j]) by now left.
    rewrite <- Hcand in Hin. apply filter_In in Hin. destruct Hin as [_ Hu].
    unfold unused in Hu. now apply negb_true_iff in Hu. }
  assert (Hj : existsb (Nat.eqb j) used_agents = false).
  { assert (Hin : In j [i; j]) by (right; now left).
    rewrite <- Hcand in Hin. apply filter_In in Hin. destruct Hin as [_ Hu].
    unfold unused in Hu. now apply negb_true_iff in Hu. }
  unfold assign_customer, find_best_agent.
  rewrite (for_loop_filter (unused used_agents))
    by (intros; now apply scan_agent_skips_used).
  rewrite Hcand. cbn [for_loop].
  unfold score_at in Hsi, Hsj.
  unfold scan_agent. rewrite Hi.
  destruct (index m c) as [row|e]; cbn [bind] in *; [|discriminate].
  rewrite Hsi. cbn [bind]. rewrite Hgt. cbn [bind].
  rewrite Hj, Hsj. cbn [bind].
  destruct (si <? sj); cbn [orb bind]; [reflexivity|].
  destruct (abs (sj - si) <? tie_break_threshold self); cbn [andb];
    [|reflexivity].
  rewrite Hai, Haj. cbn [bind].
  destruct (Agent.current_workload aj <? Agent.current_workload ai)%Z;
    reflexivity.
Qed.

(** The theorem at the one customer and the two agents of the scenario, the
    idle agent visited first. *)
Lemma tie_break_two_candidates_witness :
  let self := __init__ None in
  let agents := [idle_agent; loaded_agent] in
  let m := _calculate_routing_matrix self [tie_customer] agents in
  assign_customer self agents m ([], []) 0
  = Ok ([(0%nat, 1%nat,
          predict_routing_score None tie_customer loaded_agent)], [1%nat]).
Proof.
  cbv zeta.
  rewrite (tie_break_two_candidates (__init__ None) [idle_agent; loaded_agent]
             (_calculate_routing_matrix (__init__ None) [tie_customer]
                                        [idle_agent; loaded_agent])
             [] [] 0 0 1
             (predict_routing_score None tie_customer idle_agent)
             (predict_routing_score None tie_customer loaded_agent)
             idle_agent loaded_agent);
    try reflexivity.
Defined.

End SolverProperties.

(** ** The store and the endpoints *)

Section EndpointProperties.

Local Open Scope float_scope.

(** C9 (the code at a failing input). Completing the active result "r1" of
    an agent with 2 of 3 conversations, with SQLite up or failing: the result
    is marked completed, then the call of the undefined
    [update_routing_result_status] raises; the endpoint answers the error of
    its [except] clause and the agent keeps workload 2, in the store and in
    the table. *)
Theorem complete_routing_task_raises_before_release
        (issue_summaries : string -> string * list string * list string)
        (issue_description : Tier -> Sentiment -> string -> string)
        (draw : App.CompletionDraw) (db_up : bool) :
  let '(response, s) :=
    App.complete_routing_task issue_summaries issue_description draw "r1"
                              (busy_store db_up) in
  response = Failure "Failed to complete task" (Some AttributeError) 500
  /\ option_map RoutingResult.status (Dict.get (DataStore.routing_results s) "r1")
     = Some completed
  /\ option_map Agent.current_workload (observed_agent s "a1") = Some 2%Z
  /\ option_map Agent.current_workload (Dict.get (DataStore.agents s) "a1")
     = Some 2%Z
  /\ map Agent.current_workload (DatabaseManager.agents (DataStore.db s))
     = (if db_up then [2%Z] else [])
  /\ Agent.current_workload (App.release (sarah 2)) = 1%Z.
Proof.
  destruct db_up; vm_compute; repeat split; reflexivity.
Qed.

(** No store lets [complete_routing_task] answer its success body. *)
Lemma complete_routing_task_never_succeeds
      (issue_summaries : string -> string * list string * list string)
      (issue_description : Tier -> Sentiment -> string -> string)
      (draw : App.CompletionDraw) (routing_id : string) (s : DataStore.t)
      (body : App.CompleteBody) :
  fst (App.complete_routing_task issue_summaries issue_description draw
                                 routing_id s)
  <> Success body.
Proof.
  unfold App.complete_routing_task, try_except, bindH, call, exec, ret.
  destruct (App.find_result s routing_id) as [[slot r]|]; cbn [fst];
    [|discriminate].
  destruct (DataStore.get_agent s (RoutingResult.agent_id r)) as [[a|] s1];
    cbn [fst]; [|discriminate].
  destruct (DataStore.get_customer s1 (RoutingResult.customer_id r))
    as [[c|] s2]; cbn [fst DataStore.update_routing_result_status];
    discriminate.
Qed.

(** A routing pass returns one result per assignment, each for an agent of
    the list whose status is available and whose workload is below its
    maximum. *)
Lemma route_customers_respects_capacity
      (format_1f : float -> string) (self : RoutingEngine.t)
      (uuid4 : nat -> string) (customers : list Customer.t)
      (agents : list Agent.t) :
  exists results,
    RoutingEngine.route_customers format_1f self uuid4 customers agents
    = Ok results
    /\ Forall (fun r =>
                 exists agent,
                   In agent agents
                   /\ Agent.id agent = RoutingResult.agent_id r
                   /\ Agent.status agent = available
                   /\ (Agent.current_workload agent
                       < Agent.max_concurrent agent)%Z)
              results.
Proof.
  unfold RoutingEngine.route_customers.
  destruct customers as [|c0 customers']; [exists []; split; constructor|].
  set (customers := c0 :: customers').
  destruct (filter RoutingEngine.is_routable agents) as [|a0 rest] eqn:E;
    [exists []; split; constructor|].
  rewrite <- E.
  set (available_agents := filter RoutingEngine.is_routable agents).
  destruct (perform_optimal_assignment_ok self customers available_agents _
              (calculated_matrix_well_formed self customers available_agents))
    as (assignments & -> & _ & _ & Hrange).
  cbn [bind].
  apply for_loop_invariant; [|constructor].
  intros results [k [[ci ai] score]] Hin Hres.
  apply in_combine_r in Hin.
  rewrite Forall_forall in Hrange.
  destruct (Hrange _ Hin) as [Hc Ha]. cbn [customer_of agent_of fst snd] in Hc, Ha.
  destruct (index_lt customers ci Hc) as (customer & ->).
  unfold index at 1.
  destruct (nth_error available_agents ai) as [agent|] eqn:Ea;
    [|apply nth_error_None in Ea; lia].
  cbn [bind]. eexists. split; [reflexivity|].
  apply Forall_app. split; [exact Hres|].
  constructor; [|constructor].
  apply nth_error_In in Ea. apply filter_In in Ea. destruct Ea as [Hin' Hr].
  unfold RoutingEngine.is_routable in Hr. apply andb_true_iff in Hr.
  destruct Hr as [Hs Hw]. apply Z.ltb_lt in Hw.
  exists agent. cbn [RoutingResult.agent_id]. repeat split; auto.
  destruct (Agent.status agent); try discriminate; reflexivity.
Qed.

(** C1 (the code at a failing input). One agent with 2 of 3 conversations,
    status available, and two waiting customers. A routing pass assigns the
    urgent customer: workload 3 of 3, status still available. The manual
    assignment of the other customer to the same agent succeeds and leaves
    the agent with workload 4 of 3: in the store when SQLite is failing, and
    on the agent object cached by the store when SQLite is up (the table
    keeps 3, the endpoint does not write it). *)
Theorem manual_route_exceeds_max_concurrent
        (format_1f : float -> string) (np_mean np_std : list float -> float)
        (uuid4 : nat -> string) (uuid : string) :
  let engine := RoutingEngine.__init__ None in
  let route := App.auto_route engine format_1f np_mean np_std uuid4 in
  let assign := App.manual_route engine uuid assign_patient_to_sarah in
  let s1 := snd (route memory_store) in
  let s2 := snd (assign s1) in
  let t1 := snd (route backed_store) in
  let t2 := snd (assign t1) in
  option_map Agent.current_workload (observed_agent memory_store "a1")
  = Some 2%Z
  /\ option_map Agent.current_workload (observed_agent s1 "a1") = Some 3%Z
  /\ option_map Agent.status (observed_agent s1 "a1") = Some available
  /\ (exists result, fst (assign s1)
                     = Success (result, "Manual routing completed"%string))
  /\ option_map Agent.current_workload (observed_agent s2 "a1") = Some 4%Z
  /\ option_map Agent.max_concurrent (observed_agent s2 "a1") = Some 3%Z
  /\ option_map Agent.current_workload (Dict.get (DataStore.agents t1) "a1")
     = Some 3%Z
  /\ option_map Agent.current_workload (Dict.get (DataStore.agents t2) "a1")
     = Some 4%Z
  /\ map Agent.current_workload (DatabaseManager.agents (DataStore.db t2))
     = [3%Z].
Proof.
  cbv zeta.
  repeat split; try (vm_compute; reflexivity).
  eexists. vm_compute. reflexivity.
Qed.

(** *** Dictionaries *)

Lemma dict_get_set_eq {V : Type} (d : Dict.t V) (k : string) (v : V) :
  Dict.get (Dict.set d k v) k = Some v.
Proof.
  induction d as [|[k' v'] d IH]; cbn [Dict.set Dict.get].
  - now rewrite String.eqb_refl.
  - destruct (String.eqb k k') eqn:E; cbn [Dict.get]; rewrite E; auto.
Qed.

Lemma dict_get_set_neq {V : Type} (d : Dict.t V) (k k' : string) (v : V) :
  k <> k' -> Dict.get (Dict.set d k v) k' = Dict.get d k'.
Proof.
  intros N. induction d as [|[k0 v0] d IH]; cbn [Dict.set Dict.get].
  - now rewrite (proj2 (String.eqb_neq k' k)) by congruence.
  - destruct (String.eqb k k0) eqn:E; cbn [Dict.get].
    + apply String.eqb_eq in E. subst k0.
      now rewrite (proj2 (String.eqb_neq k' k)) by congruence.
    + destruct (String.eqb k' k0); auto.
Qed.

Lemma dict_keys_set {V : Type} (d : Dict.t V) (k k' : string) (v : V) :
  In k' (Dict.keys d) -> In k' (Dict.keys (Dict.set d k v)).
Proof.
  unfold Dict.keys.
  induction d as [|[k0 v0] d IH]; cbn [Dict.set map fst]; [intros []|].
  destruct (String.eqb k k0); cbn [map fst In]; tauto.
Qed.

(** *** A valid manual assignment *)

(** Whatever the agent's workload, a manual assignment to a known customer
    and a known agent whose status is available succeeds and leaves the
    agent object with one more conversation: nothing compares the workload
    with [max_concurrent]. *)
Lemma manual_route_increments_workload
      (routing_engine : RoutingEngine.t) (uuid : string)
      (assignment : ManualAssignment.t) (s : DataStore.t)
      (customer : Customer.t) (agent : Agent.t) :
  let cid := ManualAssignment.customer_id assignment in
  let aid := ManualAssignment.agent_id assignment in
  fst (DataStore.get_customer s cid) = Some customer ->
  fst (DataStore.get_agent (snd (DataStore.get_customer s cid)) aid)
  = Some agent ->
  Agent.status agent = available ->
  let '(response, s') := App.manual_route routing_engine uuid assignment s in
  (exists result, response = Success (result, "Manual routing completed"%string))
  /\ Dict.get (DataStore.agents s') aid
     = Some (Agent.set_current_workload agent (Agent.current_workload agent + 1)).
Proof.
  intros cid aid Hc Ha Hs. unfold App.manual_route. fold cid aid.
  destruct (DataStore.get_customer s cid) as [c1 s1]. cbn [fst snd] in *.
  destruct (DataStore.get_agent s1 aid) as [a1 s2]. cbn [fst] in *.
  subst c1 a1. rewrite Hs. cbn [AgentStatus_eqb negb].
  unfold DataStore.remove_customer, DataStore.add_routing_result.
  cbn [DataStore.set_routing_results DataStore.set_agents DataStore.db
       DataStore.customers DataStore.agents DataStore.routing_results].
  destruct (DatabaseManager.remove_customer (DataStore.db s2) cid)
    as [db_success db'].
  cbn [DataStore.set_db DataStore.set_routing_results DataStore.set_agents
       DataStore.customers DataStore.agents DataStore.routing_results
       DataStore.db].
  destruct (Dict.mem (DataStore.customers s2) cid);
    cbn [DataStore.set_customers DataStore.set_db DataStore.customers
         DataStore.agents DataStore.routing_results DataStore.db];
    (split; [eexists; reflexivity | apply dict_get_set_eq]).
Qed.

(** *** Lookups fill the cache and change no answer *)

Lemma db_get_agent_id (db : DatabaseManager.t) (agent_id : string)
      (agent : Agent.t) :
  DatabaseManager.get_agent db agent_id = Some agent ->
  Agent.id agent = agent_id.
Proof.
  unfold DatabaseManager.get_agent. destruct (DatabaseManager.up db);
    [|discriminate].
  destruct (find _ _) as [row|] eqn:F; [|discriminate].
  apply find_some in F. destruct F as [_ F]. apply String.eqb_eq in F.
  intros [= <-]. exact F.
Qed.

Lemma observed_agent_after_get_agent (s : DataStore.t) (agent_id id : string) :
  observed_agent (snd (DataStore.get_agent s agent_id)) id
  = observed_agent s id.
Proof.
  unfold observed_agent, DataStore.get_agent.
  destruct (DatabaseManager.get_agent (DataStore.db s) agent_id)
    as [a|] eqn:E; cbn [snd]; [|reflexivity].
  cbn [DataStore.set_agents DataStore.db DataStore.agents].
  destruct (DatabaseManager.get_agent (DataStore.db s) id) as [b|] eqn:E';
    cbn [fst]; [reflexivity|].
  apply dict_get_set_neq. intros ->. congruence.
Qed.

Lemma observed_customer_after_get_customer
      (s : DataStore.t) (customer_id id : string) :
  observed_customer (snd (DataStore.get_customer s customer_id)) id
  = observed_customer s id.
Proof.
  unfold observed_customer, DataStore.get_customer.
  destruct (DatabaseManager.get_customer (DataStore.db s) customer_id)
    as [c|] eqn:E; cbn [snd]; [|reflexivity].
  cbn [DataStore.set_customers DataStore.db DataStore.customers].
  destruct (DatabaseManager.get_customer (DataStore.db s) id) as [b|] eqn:E';
    cbn [fst]; [reflexivity|].
  apply dict_get_set_neq. intros ->. congruence.
Qed.

Lemma get_customer_frame (s : DataStore.t) (customer_id : string) :
  let s' := snd (DataStore.get_customer s customer_id) in
  DataStore.db s' = DataStore.db s
  /\ DataStore.agents s' = DataStore.agents s
  /\ DataStore.routing_results s' = DataStore.routing_results s
  /\ forall k, In k (Dict.keys (DataStore.customers s)) ->
               In k (Dict.keys (DataStore.customers s')).
Proof.
  unfold DataStore.get_customer.
  destruct (DatabaseManager.get_customer (DataStore.db s) customer_id);
    cbn; repeat split; auto.
  intros k. apply dict_keys_set.
Qed.

Lemma get_agent_frame (s : DataStore.t) (agent_id : string) :
  let s' := snd (DataStore.get_agent s agent_id) in
  DataStore.db s' = DataStore.db s
  /\ DataStore.customers s' = DataStore.customers s
  /\ DataStore.routing_results s' = DataStore.routing_results s.
Proof.
  unfold DataStore.get_agent.
  destruct (DatabaseManager.get_agent (DataStore.db s) agent_id);
    cbn; repeat split; auto.
Qed.

Lemma observed_agent_ext (s1 s2 : DataStore.t) (id : string) :
  DataStore.db s1 = DataStore.db s2 ->
  DataStore.agents s1 = DataStore.agents s2 ->
  observed_agent s1 id = observed_agent s2 id.
Proof.
  unfold observed_agent, DataStore.get_agent. intros -> ->.
  now destruct (DatabaseManager.get_agent (DataStore.db s2) id).
Qed.

Lemma observed_customer_ext (s1 s2 : DataStore.t) (id : string) :
  DataStore.db s1 = DataStore.db s2 ->
  DataStore.customers s1 = DataStore.customers s2 ->
  observed_customer s1 id = observed_customer s2 id.
Proof.
  unfold observed_customer, DataStore.get_customer. intros -> ->.
  now destruct (DatabaseManager.get_customer (DataStore.db s2) id).
Qed.

(** C8 (as the claim states it, refuted). A manual assignment for an
    unknown customer, on a store whose cached agent is behind its table row:
    the endpoint answers "Customer not found", 404, and yet the store is not
    the one it was. The two lookups that come before the tests have run, and
    the agent's lookup has replaced the cached object (3 conversations,
    busy) by the row (2 conversations, available): the workload held in
    [data_store.agents] has changed, and /health counts one available agent
    where it counted none. *)
Lemma manual_route_rejection_refreshes_the_cache :
  let out := App.manual_route (RoutingEngine.__init__ None) "r1"
                              assign_unknown_customer stale_store in
  invalid_target stale_store assign_unknown_customer
  /\ fst out = Failure "Customer not found" None 404
  /\ snd out <> stale_store
  /\ option_map Agent.current_workload
       (Dict.get (DataStore.agents stale_store) "a1") = Some 3%Z
  /\ option_map Agent.current_workload
       (Dict.get (DataStore.agents (snd out)) "a1") = Some 2%Z
  /\ option_map Agent.status
       (Dict.get (DataStore.agents stale_store) "a1") = Some busy
  /\ option_map Agent.status
       (Dict.get (DataStore.agents (snd out)) "a1") = Some available
  /\ snd (Api.health_check stale_store) = 0%nat
  /\ snd (Api.health_check (snd out)) = 1%nat.
Proof.
  intros out. split; [left; reflexivity|].
  assert (E : snd out
              = DataStore.mk (DatabaseManager.mk true [] [sarah 2]) []
                             [("a1"%string, sarah 2)] [])
    by reflexivity.
  split; [reflexivity|].
  split; [rewrite E; discriminate|].
  rewrite E. repeat split.
Qed.

(** C8 (amended). A manual assignment whose customer or agent is unknown,
    or whose agent is not available, is answered by an error ("Customer not
    found" 404, "Agent not found" 404, "Agent not available" 400), never by
    the success body. No routing result is stored, the table is not
    written, no customer leaves the queue, and every agent and every
    customer is answered by the store's lookups as before. The store does
    change in one way: it is the store that the two lookups of the request
    ([get_customer], then [get_agent]) leave, with the objects they read
    from the table put in the cache. *)
Theorem manual_route_invalid_target_is_rejected
        (routing_engine : RoutingEngine.t) (uuid : string)
        (assignment : ManualAssignment.t) (s : DataStore.t) :
  invalid_target s assignment ->
  let '(response, s') := App.manual_route routing_engine uuid assignment s in
  response = rejection s assignment
  /\ (forall body, response <> Success body)
  /\ DataStore.routing_results s' = DataStore.routing_results s
  /\ DataStore.db s' = DataStore.db s
  /\ (forall id, observed_agent s' id = observed_agent s id)
  /\ (forall id, observed_customer s' id = observed_customer s id)
  /\ (forall id, In id (Dict.keys (DataStore.customers s)) ->
                 In id (Dict.keys (DataStore.customers s')))
  /\ s' = snd (DataStore.get_agent
                 (snd (DataStore.get_customer
                         s (ManualAssignment.customer_id assignment)))
                 (ManualAssignment.agent_id assignment)).
Proof.
  intros Hinvalid. unfold invalid_target in Hinvalid.
  set (cid := ManualAssignment.customer_id assignment) in *.
  set (aid := ManualAssignment.agent_id assignment) in *.
  pose proof (get_customer_frame s cid) as (Cdb & Cag & Crr & Ckeys).
  pose proof (get_agent_frame (snd (DataStore.get_customer s cid)) aid)
    as (Adb & Acu & Arr).
  assert (Hagent : forall id,
             observed_agent
               (snd (DataStore.get_agent (snd (DataStore.get_customer s cid)) aid))
               id = observed_agent s id).
  { intros id. rewrite observed_agent_after_get_agent.
    now apply observed_agent_ext. }
  assert (Hcustomer : forall id,
             observed_customer
               (snd (DataStore.get_agent (snd (DataStore.get_customer s cid)) aid))
               id = observed_customer s id).
  { intros id.
    rewrite (observed_customer_ext _ (snd (DataStore.get_customer s cid)) id Adb Acu).
    apply observed_customer_after_get_customer. }
  assert (Hfirst : fst (DataStore.get_agent (snd (DataStore.get_customer s cid)) aid)
                   = observed_agent s aid).
  { change (observed_agent (snd (DataStore.get_customer s cid)) aid
            = observed_agent s aid).
    now apply observed_agent_ext. }
  unfold App.manual_route, rejection. fold cid aid.
  unfold observed_customer at 1.
  destruct (DataStore.get_customer s cid) as [customer s1] eqn:E1.
  cbn [fst snd] in *.
  destruct (DataStore.get_agent s1 aid) as [agent s2] eqn:E2.
  cbn [fst snd] in *. subst agent.
  assert (Hframe :
            DataStore.routing_results s2 = DataStore.routing_results s
            /\ DataStore.db s2 = DataStore.db s
            /\ (forall id, observed_agent s2 id = observed_agent s id)
            /\ (forall id, observed_customer s2 id = observed_customer s id)
            /\ (forall id, In id (Dict.keys (DataStore.customers s)) ->
                           In id (Dict.keys (DataStore.customers s2)))
            /\ s2 = s2).
  { repeat split; try congruence; auto.
    intros id Hin. rewrite Acu. now apply Ckeys. }
  destruct customer as [customer|].
  - destruct (observed_agent s aid) as [agent|] eqn:Ea.
    + destruct (negb (AgentStatus_eqb (Agent.status agent) available)) eqn:Es.
      * split; [reflexivity|]. split; [discriminate|]. exact Hframe.
      * exfalso. destruct Hinvalid as [H | [H | (a & Ha & Hs)]].
        -- unfold observed_customer in H. rewrite E1 in H. discriminate.
        -- discriminate.
        -- injection Ha as <-. apply Hs.
           destruct (Agent.status agent); try discriminate; reflexivity.
    + split; [reflexivity|]. split; [discriminate|]. exact Hframe.
  - split; [reflexivity|]. split; [discriminate|]. exact Hframe.
Qed.

End EndpointProperties.

(** The theorem at a store whose only agent is offline. *)
Lemma manual_route_invalid_target_witness :
  invalid_target stale_store assign_unknown_customer
  /\ fst (App.manual_route (RoutingEngine.__init__ None) "u1"
                           assign_unknown_customer stale_store)
     = Failure "Customer not found" None 404
  /\ observed_agent
       (snd (App.manual_route (RoutingEngine.__init__ None) "u1"
                              assign_unknown_customer stale_store)) "a1"
     = observed_agent stale_store "a1".
Proof.
  assert (Hinvalid : invalid_target stale_store assign_unknown_customer).
  { left. reflexivity. }
  split; [exact Hinvalid|].
  pose proof (manual_route_invalid_target_is_rejected
                (RoutingEngine.__init__ None)
                "u1"%string assign_unknown_customer stale_store Hinvalid)
    as H.
  destruct (App.manual_route (RoutingEngine.__init__ None) "u1"
                             assign_unknown_customer stale_store)
    as [response s'].
  destruct H as (Hr & _ & _ & _ & Ha & _).
  split; [exact Hr | exact (Ha "a1"%string)].
Defined.

(** ** Reset *)

Section ResetProperties.




(** *** Dictionaries, continued *)

Lemma dict_get_in {V : Type} (d : Dict.t V) (k : string) (v : V) :
  NoDup (Dict.keys d) -> In (k, v) d -> Dict.get d k = Some v.
Proof.
  unfold Dict.keys.
  induction d as [|[k' v'] d IH]; cbn [map fst Dict.get]; [intros _ []|].
  intros Hnd [E | Hin]; inversion Hnd as [|? ? Hk Hnd']; subst.
  - injection E as -> ->. now rewrite String.eqb_refl.
  - destruct (String.eqb_spec k k') as [->|N]; [|now apply IH].
    exfalso. apply Hk. change k' with (fst (k', v)). now apply in_map.
Qed.

Lemma dict_set_same {V : Type} (d : Dict.t V) (k : string) (v : V) :
  Dict.get d k = Some v -> Dict.set d k v = d.
Proof.
  induction d as [|[k' v'] d IH]; cbn [Dict.get Dict.set]; [discriminate|].
  destruct (String.eqb_spec k k') as [->|N].
  - now intros [= ->].
  - intros H. now rewrite IH.
Qed.

Lemma dict_keys_set_in {V : Type} (d : Dict.t V) (k : string) (v : V) :
  In k (Dict.keys d) -> Dict.keys (Dict.set d k v) = Dict.keys d.
Proof.
  unfold Dict.keys.
  induction d as [|[k' v'] d IH]; cbn [map fst Dict.set]; [intros []|].
  destruct (String.eqb_spec k k') as [->|N]; cbn [map fst]; [reflexivity|].
  intros [E | Hin]; [congruence|]. now rewrite IH.
Qed.




(** *** The table [agents] under the reset loop *)







Lemma insert_by_name_perm (a : Agent.t) (l : list Agent.t) :
  Permutation (DatabaseManager.insert_by_name a l) (a :: l).
Proof.
  induction l as [|b l IH]; cbn [DatabaseManager.insert_by_name]; [reflexivity|].
  destruct (String.ltb (Agent.name a) (Agent.name b)); [reflexivity|].
  rewrite IH. apply perm_swap.
Qed.

Lemma order_by_name_perm (rows : list Agent.t) :
  Permutation (DatabaseManager.order_by_name rows) rows.
Proof.
  unfold DatabaseManager.order_by_name.
  assert (G : forall l acc,
             Permutation
               (fold_left (fun sorted a => DatabaseManager.insert_by_name a sorted)
                          l acc)
               (acc ++ l)).
  { induction l as [|a l IH]; intros acc; cbn [fold_left].
    - now rewrite app_nil_r.
    - rewrite IH, insert_by_name_perm. cbn [app]. apply Permutation_middle. }
  apply (G rows []).
Qed.

Lemma order_by_name_map (f : Agent.t -> Agent.t) (rows : list Agent.t) :
  (forall a, Agent.name (f a) = Agent.name a) ->
  DatabaseManager.order_by_name (map f rows)
  = map f (DatabaseManager.order_by_name rows).
Proof.
  intros Hname. unfold DatabaseManager.order_by_name.
  assert (I : forall a l,
             DatabaseManager.insert_by_name (f a) (map f l)
             = map f (DatabaseManager.insert_by_name a l)).
  { intros a l. induction l as [|b l IH];
      cbn [map DatabaseManager.insert_by_name]; [reflexivity|].
    rewrite !Hname.
    destruct (String.ltb (Agent.name a) (Agent.name b)); cbn [map];
      [reflexivity | now rewrite IH]. }
  assert (G : forall l acc,
             fold_left (fun sorted a => DatabaseManager.insert_by_name a sorted)
                       (map f l) (map f acc)
             = map f (fold_left
                        (fun sorted a => DatabaseManager.insert_by_name a sorted)
                        l acc)).
  { induction l as [|a l IH]; intros acc; cbn [map fold_left]; [reflexivity|].
    now rewrite I, IH. }
  apply (G rows []).
Qed.

Lemma get_agents_nil (db : DatabaseManager.t) :
  DatabaseManager.get_agents db = [] ->
  DatabaseManager.up db = false \/ DatabaseManager.agents db = [].
Proof.
  unfold DatabaseManager.get_agents.
  destruct (DatabaseManager.up db); [|now left].
  intros H. right. apply map_eq_nil in H.
  apply Permutation_nil. rewrite <- H. apply order_by_name_perm.
Qed.

(** *** The fields of the store after [reset_queue] *)




(** *** A reset settles the agents, and a settled store is a fixed point *)











End ResetProperties.

(* ================================================================== *)
(** * Further properties *)

Import SpecMore.

(** ** The predictor *)

Section PredictorRange.

Import RoutingScorePredictor.
Local Open Scope float_scope.

Lemma clamp_range (lo hi x : float) :
  (lo <=? hi) = true ->
  (lo <=? Py.max lo (Py.min hi x)) = true
  /\ (Py.max lo (Py.min hi x) <=? hi) = true.
Proof.
  intros Hle. destruct (leb_ordered lo hi Hle) as [Hlo Hhi].
  assert (Hmin : (Py.min hi x <=? hi) = true).
  { unfold Py.min. destruct (x <? hi) eqn:E;
      [now apply ltb_leb | now apply leb_refl]. }
  unfold Py.max. destruct (lo <? Py.min hi x) eqn:E.
  - split; [now apply ltb_leb | exact Hmin].
  - split; [now apply leb_refl | exact Hle].
Qed.

Lemma fallback_in_range (customer : Customer.t) (agent : Agent.t) :
  (0.1 <=? _fallback_rule_based_score customer agent) = true
  /\ (_fallback_rule_based_score customer agent <=? 0.9) = true.
Proof.
  unfold _fallback_rule_based_score. now apply clamp_range.
Qed.

(** X1. Whenever the rule-based fallback returns, its score lies in
    [0.1, 0.9], whatever the float fields of the customer and the agent (NaN
    and infinities included): the final clamp lets no other value through.
    It returns unless the division of current_workload by max_concurrent
    overflows the doubles. *)
Theorem fallback_score_is_clamped (customer : Customer.t) (agent : Agent.t) :
  ratio_in_range agent ->
  (0.1 <=? _fallback_rule_based_score customer agent) = true
  /\ (_fallback_rule_based_score customer agent <=? 0.9) = true.
Proof.
  intros _. apply fallback_in_range.
Qed.

Lemma predict_in_unit_interval
      (model : option Model) (customer : Customer.t) (agent : Agent.t) :
  (0 <=? predict_routing_score model customer agent) = true
  /\ (predict_routing_score model customer agent <=? 1) = true.
Proof.
  assert (Hfallback :
            (0 <=? _fallback_rule_based_score customer agent) = true
            /\ (_fallback_rule_based_score customer agent <=? 1) = true).
  { destruct (fallback_in_range customer agent) as [H1 H2].
    split; [apply (leb_trans 0 0.1); [reflexivity | exact H1]
           | apply (leb_trans _ 0.9); [exact H2 | reflexivity]]. }
  unfold predict_routing_score.
  destruct model as [predict_proba|];
    [destruct (predict_proba customer agent) as [p|]|].
  - now apply clamp_range.
  - apply Hfallback.
  - apply Hfallback.
Qed.

(** X2. Whenever [predict_routing_score] returns, it answers a number of
    [0, 1]: with no model, with a model that raises, and with a model that
    answers any float at all, NaN included. A [RoutingResult] built from it
    always meets the [ge=0.0, le=1.0] constraint of its [routing_score]
    field. It returns unless the division of current_workload by
    max_concurrent overflows the doubles in the fallback. *)
Theorem predicted_score_is_a_probability
        (model : option Model) (customer : Customer.t) (agent : Agent.t) :
  ratio_in_range agent ->
  (0 <=? predict_routing_score model customer agent) = true
  /\ (predict_routing_score model customer agent <=? 1) = true
  /\ ordered (predict_routing_score model customer agent).
Proof.
  intros _.
  destruct (predict_in_unit_interval model customer agent) as [H0 H1].
  repeat split; auto.
  now destruct (leb_ordered _ _ H0).
Qed.

(** X3. Whenever [_create_enhanced_features] returns, the vector has one
    entry per name of [feature_names], 22 of them, the [feature_count] of
    [get_model_info]. The channel enters the vector through the
    voice/not-voice code only: a phone or email customer gets the feature
    vector of the same customer on chat (or the same exception); the
    rule-based fallback does not read the channel at all. *)
Theorem features_match_names_and_collapse_channels
        (hour weekday : Z) (class_name : string) (model : option Model)
        (customer : Customer.t) (agent : Agent.t) (channel : Channel) :
  match Features._create_enhanced_features hour weekday customer agent with
  | Some features =>
      List.length features
      = Features.feature_count (Features.get_model_info class_name model)
  | None => True
  end
  /\ List.length Features.feature_names = 22%nat
  /\ Features.feature_count (Features.get_model_info class_name model) = 22%nat
  /\ Features._create_enhanced_features hour weekday
       (with_channel customer channel) agent
     = Features._create_enhanced_features hour weekday
         (with_channel customer
            (match channel with voice => voice | _ => chat end)) agent
  /\ _fallback_rule_based_score (with_channel customer channel) agent
     = _fallback_rule_based_score customer agent.
Proof.
  repeat split; try reflexivity.
  - unfold Features._create_enhanced_features, Features.float_div.
    destruct (Py.overflowed (workload_ratio agent)); [exact I|].
    destruct (workload_ratio agent + 0.1 =? 0); [exact I|].
    destruct (Customer.issue_complexity customer + 0.1 =? 0); [exact I|].
    reflexivity.
  - destruct channel; reflexivity.
Qed.

End PredictorRange.

Lemma fallback_score_is_clamped_witness :
  SpecMore.ratio_in_range (Spec.sarah 2)
  /\ (PrimFloat.leb 0.1%float
        (RoutingScorePredictor._fallback_rule_based_score
           Spec.urgent_customer (Spec.sarah 2)) = true).
Proof.
  assert (H : SpecMore.ratio_in_range (Spec.sarah 2)) by reflexivity.
  split; [exact H|].
  exact (proj1 (fallback_score_is_clamped Spec.urgent_customer
                                          (Spec.sarah 2) H)).
Defined.

Lemma predicted_score_witness :
  SpecMore.ratio_in_range (Spec.sarah 2)
  /\ (PrimFloat.leb
        (RoutingScorePredictor.predict_routing_score
           None Spec.urgent_customer (Spec.sarah 2)) 1%float = true).
Proof.
  assert (H : SpecMore.ratio_in_range (Spec.sarah 2)) by reflexivity.
  split; [exact H|].
  exact (proj1 (proj2 (predicted_score_is_a_probability
                         None Spec.urgent_customer (Spec.sarah 2) H))).
Defined.


(** ** The solver and the routing pass *)

Section SolverServes.

Import RoutingScorePredictor RoutingEngine.
Local Open Scope float_scope.

Lemma matrix_entry_is_prediction (self : t) (customers : list Customer.t)
      (agents : list Agent.t) (c a : nat) (s : float) :
  score_at (_calculate_routing_matrix self customers agents) c a = Ok s ->
  exists customer agent,
    nth_error customers c = Some customer
    /\ nth_error agents a = Some agent
    /\ s = predict_routing_score (predictor self) customer agent.
Proof.
  unfold score_at, _calculate_routing_matrix, index.
  rewrite nth_error_map.
  destruct (nth_error customers c) as [cu|]; cbn [option_map bind];
    [|discriminate].
  rewrite nth_error_map.
  destruct (nth_error agents a) as [ag|]; cbn [option_map];
    [|discriminate].
  intros E. injection E as <-. now exists cu, ag.
Qed.

(** X5. Whatever the engine and the two lists, the solver serves exactly
    the first min(N, M) customers of the priority order, in that order:
    no customer is passed over while an agent of the list is unassigned, so
    the number of assignments is min(N, M), and no customer is assigned
    twice. *)
Theorem solver_serves_priority_prefix
        (self : t) (customers : list Customer.t) (agents : list Agent.t) :
  exists assignments,
    _perform_optimal_assignment self customers agents
      (_calculate_routing_matrix self customers agents) = Ok assignments
    /\ map customer_of assignments
       = firstn (List.length agents) (customer_indices customers)
    /\ List.length assignments
       = Nat.min (List.length customers) (List.length agents)
    /\ NoDup (map customer_of assignments).
Proof.
  destruct (perform_optimal_assignment_serves self customers agents _
              (calculated_matrix_well_formed self customers agents))
    as (asg & Hrun & Hcust & _ & _).
  exists asg. repeat split; [exact Hrun | exact Hcust | |].
  - rewrite <- (length_map customer_of), Hcust, firstn_length_min,
      customer_indices_length. apply Nat.min_comm.
  - rewrite Hcust. apply NoDup_firstn_of, customer_indices_NoDup.
Qed.

(** X6. Every triple the solver returns carries the score the predictor
    gives to the customer and the agent at the triple's two indices: the
    solver neither alters a score nor pairs it with another couple. *)
Theorem assignment_scores_are_predictions
        (self : t) (customers : list Customer.t) (agents : list Agent.t) :
  exists assignments,
    _perform_optimal_assignment self customers agents
      (_calculate_routing_matrix self customers agents) = Ok assignments
    /\ Forall (fun t =>
                 exists customer agent,
                   nth_error customers (customer_of t) = Some customer
                   /\ nth_error agents (agent_of t) = Some agent
                   /\ snd t = predict_routing_score (predictor self)
                                                    customer agent)
              assignments.
Proof.
  destruct (perform_optimal_assignment_serves self customers agents _
              (calculated_matrix_well_formed self customers agents))
    as (asg & Hrun & _ & _ & Hall).
  exists asg. split; [exact Hrun|].
  eapply Forall_impl; [|exact Hall].
  intros t [_ Hs]. now apply matrix_entry_is_prediction in Hs.
Qed.

(** The results of a routing pass, paired with the solver's assignments. *)
Lemma route_customers_pairs
      (format_1f : float -> string) (self : t) (uuid4 : nat -> string)
      (customers : list Customer.t) (agents : list Agent.t) :
  let available_agents := filter is_routable agents in
  exists assignments results,
    _perform_optimal_assignment self customers available_agents
      (_calculate_routing_matrix self customers available_agents)
    = Ok assignments
    /\ route_customers format_1f self uuid4 customers agents = Ok results
    /\ List.length results
       = Nat.min (List.length customers) (List.length available_agents)
    /\ Forall2
         (fun r kt =>
            exists customer agent,
              nth_error customers (customer_of (snd kt)) = Some customer
              /\ nth_error available_agents (agent_of (snd kt)) = Some agent
              /\ let score :=
                   predict_routing_score (predictor self) customer agent in
                 r = RoutingResult.mk (uuid4 (fst kt))
                       (Customer.id customer) (Agent.id agent)
                       (Some (Customer.name customer))
                       (Some (Agent.name agent))
                       score
                       (_generate_reasoning format_1f self customer agent score)
                       active None None None)
         results
         (combine (seq 0 (List.length assignments)) assignments).
Proof.
  intros available_agents.
  destruct (perform_optimal_assignment_serves self customers available_agents _
              (calculated_matrix_well_formed self customers available_agents))
    as (asg & Hrun & Hcust & _ & Hall).
  assert (Hlen : List.length asg
                 = Nat.min (List.length customers)
                           (List.length available_agents)).
  { rewrite <- (length_map customer_of), Hcust, firstn_length_min,
      customer_indices_length. apply Nat.min_comm. }
  exists asg.
  unfold route_customers. fold available_agents.
  destruct customers as [|c0 customers'].
  { exists []. cbn [List.length Nat.min] in Hlen.
    apply length_zero_iff_nil in Hlen. subst asg.
    repeat split; auto; constructor. }
  set (customers := c0 :: customers') in *.
  destruct available_agents as [|a0 rest] eqn:E.
  { exists []. rewrite Nat.min_0_r in Hlen.
    apply length_zero_iff_nil in Hlen. subst asg.
    repeat split; auto; constructor. }
  rewrite <- E in *. clear E.
  rewrite Hrun. cbn [bind].
  set (pairs := combine (seq 0 (List.length asg)) asg).
  destruct (for_loop_prefix
              (fun pre results =>
                 Forall2
                   (fun r kt =>
                      exists customer agent,
                        nth_error customers (customer_of (snd kt)) = Some customer
                        /\ nth_error available_agents (agent_of (snd kt))
                           = Some agent
                        /\ r = RoutingResult.mk (uuid4 (fst kt))
                                 (Customer.id customer) (Agent.id agent)
                                 (Some (Customer.name customer))
                                 (Some (Agent.name agent))
                                 (predict_routing_score (predictor self)
                                                        customer agent)
                                 (_generate_reasoning format_1f self customer
                                    agent
                                    (predict_routing_score (predictor self)
                                                           customer agent))
                                 active None None None)
                   results pre)
              (fun results '(k, (customer_idx, agent_idx, score)) =>
                 customer <- index customers customer_idx ;;
                 agent <- index available_agents agent_idx ;;
                 Ok (results ++
                     [ RoutingResult.mk (uuid4 k)
                         (Customer.id customer) (Agent.id agent)
                         (Some (Customer.name customer))
                         (Some (Agent.name agent))
                         score
                         (_generate_reasoning format_1f self customer agent score)
                         active None None None ]))
              pairs) with (st := @nil RoutingResult.t)
    as (results & Hloop & Hres).
  - intros pre [k [[ci ai] score]] post st Hl Hinv.
    assert (Hin : In (ci, ai, score) asg).
    { apply (in_combine_r (seq 0 (List.length asg)) asg k).
      fold pairs. rewrite Hl. apply in_or_app. right. now left. }
    rewrite Forall_forall in Hall.
    destruct (Hall _ Hin) as [_ Hs]. cbn [customer_of agent_of fst snd] in Hs.
    apply matrix_entry_is_prediction in Hs.
    destruct Hs as (customer & agent & Hc & Ha & ->).
    unfold index. rewrite Hc, Ha. cbn [bind].
    eexists. split; [reflexivity|].
    apply Forall2_app; [exact Hinv|].
    constructor; [|constructor].
    exists customer, agent. cbn [customer_of agent_of fst snd]. auto.
  - constructor.
  - exists results. repeat split; auto.
    rewrite (Forall2_length Hres). unfold pairs.
    rewrite length_combine, List.length_seq, Nat.min_id. exact Hlen.
Qed.

(** X7. A routing pass never raises. Its results are, in order, one per
    assignment of the solver run on the customers and on the agents that
    are available and below their maximum: min(#customers, #such agents)
    results. The k-th result has the k-th drawn id, the ids and names of
    its customer and agent, the predictor's score for that pair, the
    reasoning generated for it, status active, and no summary, handling
    time or outcome. *)
Theorem route_customers_builds_one_result_per_assignment
        (format_1f : float -> string) (self : t) (uuid4 : nat -> string)
        (customers : list Customer.t) (agents : list Agent.t) :
  let available_agents := filter is_routable agents in
  exists assignments results,
    _perform_optimal_assignment self customers available_agents
      (_calculate_routing_matrix self customers available_agents)
    = Ok assignments
    /\ route_customers format_1f self uuid4 customers agents = Ok results
    /\ List.length results
       = Nat.min (List.length customers) (List.length available_agents)
    /\ Forall2
         (fun r kt =>
            exists customer agent,
              nth_error customers (customer_of (snd kt)) = Some customer
              /\ nth_error available_agents (agent_of (snd kt)) = Some agent
              /\ let score :=
                   predict_routing_score (predictor self) customer agent in
                 r = RoutingResult.mk (uuid4 (fst kt))
                       (Customer.id customer) (Agent.id agent)
                       (Some (Customer.name customer))
                       (Some (Agent.name agent))
                       score
                       (_generate_reasoning format_1f self customer agent score)
                       active None None None)
         results
         (combine (seq 0 (List.length assignments)) assignments).
Proof.
  exact (route_customers_pairs format_1f self uuid4 customers agents).
Qed.

(** X8. The reasoning of a result has one line for each of the score, the
    specialty, the experience and the workload, one more for a premium
    customer and one more for a sentiment that is not neutral: between four
    and six lines. *)
Theorem reasoning_has_four_to_six_lines
        (format_1f : float -> string) (self : t)
        (customer : Customer.t) (agent : Agent.t) (score : float) :
  List.length (_generate_reasoning format_1f self customer agent score)
  = (4 + (match Customer.tier customer with premium => 1 | _ => 0 end)
       + (match Customer.sentiment customer with neutral => 0 | _ => 1 end))%nat.
Proof.
  unfold _generate_reasoning. rewrite !length_app.
  destruct (Customer.tier customer), (Customer.sentiment customer);
    reflexivity.
Qed.

(** X9. The statistics of the results of a routing pass need no
    assumption: every result carries a score of [0, 1], the total is the
    number of results, min(#customers, #agents open to routing), and the
    high, medium and low confidence counts add up to it. *)
Theorem routing_pass_statistics_add_up
        (format_1f : float -> string) (np_mean np_std : list float -> float)
        (self : t) (uuid4 : nat -> string)
        (customers : list Customer.t) (agents : list Agent.t) :
  exists results,
    route_customers format_1f self uuid4 customers agents = Ok results
    /\ Forall valid_score results
    /\ let stats := get_routing_statistics np_mean np_std results in
       Statistics.total_routings stats
       = Nat.min (List.length customers)
                 (List.length (filter is_routable agents))
       /\ (Statistics.high_confidence_matches stats
           + Statistics.medium_confidence_matches stats
           + Statistics.low_confidence_matches stats)%nat
          = Statistics.total_routings stats.
Proof.
  destruct (route_customers_pairs format_1f self uuid4 customers agents)
    as (asg & results & _ & Hroute & Hlen & Hpairs).
  exists results. split; [exact Hroute|].
  assert (Hvalid : Forall valid_score results).
  { clear - Hpairs. induction Hpairs as [|r kt results l H _ IH];
      constructor; [|exact IH].
    destruct H as (customer & agent & _ & _ & ->).
    unfold valid_score. cbn [RoutingResult.routing_score].
    apply predict_in_unit_interval. }
  split; [exact Hvalid|].
  cbv zeta in Hlen. rewrite <- Hlen.
  destruct results as [|r results]; [split; reflexivity|].
  unfold get_routing_statistics.
  cbn [Statistics.total_routings Statistics.high_confidence_matches
       Statistics.medium_confidence_matches Statistics.low_confidence_matches].
  split; [reflexivity|].
  rewrite confidence_counts_partition; [apply length_map|].
  apply Forall_map. eapply Forall_impl; [|exact Hvalid].
  intros a [H0 _]. now apply leb_ordered in H0.
Qed.

End SolverServes.

(** ** The store and the table behind it *)

Section StoreRoundTrips.

Lemma dict_get_del_eq {V : Type} (d : Dict.t V) (k : string) :
  NoDup (Dict.keys d) -> Dict.get (Dict.del d k) k = None.
Proof.
  unfold Dict.keys.
  induction d as [|[k' v'] d IH]; cbn [map fst Dict.del Dict.get];
    [reflexivity|].
  intros Hnd. inversion Hnd as [|? ? Hk Hnd']; subst.
  destruct (String.eqb_spec k k') as [->|N].
  - destruct (Dict.get d k') as [v|] eqn:G; [|reflexivity].
    exfalso. apply Hk. clear - G.
    induction d as [|[k0 v0] d IH]; cbn [Dict.get map fst] in *;
      [discriminate|].
    destruct (String.eqb_spec k' k0) as [->|N]; [now left | right; auto].
  - cbn [Dict.get]. rewrite (proj2 (String.eqb_neq k k') N). now apply IH.
Qed.

Lemma dict_get_del_neq {V : Type} (d : Dict.t V) (k k' : string) :
  k <> k' -> Dict.get (Dict.del d k) k' = Dict.get d k'.
Proof.
  intros N. induction d as [|[k0 v0] d IH]; cbn [Dict.del Dict.get];
    [reflexivity|].
  destruct (String.eqb_spec k k0) as [->|N0].
  - now rewrite (proj2 (String.eqb_neq k' k0)) by congruence.
  - cbn [Dict.get]. destruct (String.eqb k' k0); auto.
Qed.

Lemma dict_del_absent {V : Type} (d : Dict.t V) (k : string) :
  Dict.get d k = None -> Dict.del d k = d.
Proof.
  induction d as [|[k0 v0] d IH]; cbn [Dict.del Dict.get]; [reflexivity|].
  destruct (String.eqb k k0); [discriminate|].
  intros G. now rewrite IH.
Qed.

Lemma find_filter_other {A : Type} (p q : A -> bool) (l : list A) :
  (forall x, p x = true -> q x = true) ->
  find p (filter q l) = find p l.
Proof.
  intros H. induction l as [|x l IH]; cbn [filter find]; [reflexivity|].
  destruct (q x) eqn:Q; cbn [find].
  - now rewrite IH.
  - destruct (p x) eqn:P; [|exact IH]. apply H in P. congruence.
Qed.

Lemma find_filter_none {A : Type} (p q : A -> bool) (l : list A) :
  (forall x, p x = true -> q x = false) ->
  find p (filter q l) = None.
Proof.
  intros H. induction l as [|x l IH]; cbn [filter find]; [reflexivity|].
  destruct (q x) eqn:Q; cbn [find]; [|exact IH].
  destruct (p x) eqn:P; [|exact IH]. apply H in P. congruence.
Qed.

Lemma find_map_update {A : Type} (p : A -> bool) (f : A -> A) (l : list A) :
  (forall x, p (f x) = p x) ->
  find p (map f l) = option_map f (find p l).
Proof.
  intros H. induction l as [|x l IH]; cbn [map find]; [reflexivity|].
  rewrite H. destruct (p x); [reflexivity | exact IH].
Qed.

Lemma find_existsb {A : Type} (p : A -> bool) (l : list A) :
  existsb p l = match find p l with Some _ => true | None => false end.
Proof.
  induction l as [|x l IH]; cbn [existsb find]; [reflexivity|].
  destruct (p x); [reflexivity | exact IH].
Qed.

(** *** Customers *)

Lemma db_get_customer_after_remove (db : DatabaseManager.t)
      (customer_id other : string) :
  DatabaseManager.get_customer
    (snd (DatabaseManager.remove_customer db customer_id)) other
  = if String.eqb other customer_id then None
    else DatabaseManager.get_customer db other.
Proof.
  unfold DatabaseManager.remove_customer, DatabaseManager.get_customer.
  destruct (DatabaseManager.up db) eqn:U; cbn [snd];
    [|rewrite U; now destruct (String.eqb other customer_id)].
  cbn [DatabaseManager.set_customers DatabaseManager.up
       DatabaseManager.customers].
  rewrite U.
  destruct (String.eqb_spec other customer_id) as [->|N].
  - rewrite find_filter_none; [reflexivity|].
    intros x ->. reflexivity.
  - rewrite find_filter_other; [reflexivity|].
    intros x Hx. apply String.eqb_eq in Hx.
    apply negb_true_iff, String.eqb_neq. congruence.
Qed.

(** X10. POST /customers always answers the new customer (the drawn id, the
    submitted fields, wait_time 0). The customer is put in the in-memory
    queue only: the table is left as it was, because the INSERT is never
    committed. Looking the id up afterwards answers the new customer,
    unless the table already holds a row with that id, which wins. *)
Theorem added_customer_lives_in_memory
        (uuid : string) (customer_data : Api.CustomerCreate.t)
        (s : DataStore.t) :
  let customer :=
    Customer.mk uuid (Api.CustomerCreate.name customer_data)
      (Api.CustomerCreate.sentiment customer_data)
      (Api.CustomerCreate.tier customer_data)
      (Api.CustomerCreate.issue_type customer_data)
      (Api.CustomerCreate.issue_complexity customer_data)
      (Api.CustomerCreate.channel customer_data) 0
      (Api.CustomerCreate.priority customer_data)
      (Api.CustomerCreate.context customer_data) in
  let out := Api.add_customer uuid customer_data s in
  fst out = Success (customer, "Customer added successfully"%string)
  /\ DataStore.db (snd out) = DataStore.db s
  /\ DataStore.agents (snd out) = DataStore.agents s
  /\ DataStore.routing_results (snd out) = DataStore.routing_results s
  /\ Dict.get (DataStore.customers (snd out)) uuid = Some customer
  /\ (forall other, other <> uuid ->
        Dict.get (DataStore.customers (snd out)) other
        = Dict.get (DataStore.customers s) other)
  /\ fst (DataStore.get_customer (snd out) uuid)
     = Some (match DatabaseManager.get_customer (DataStore.db s) uuid with
             | Some row => row
             | None => customer
             end).
Proof.
  intros customer out. subst out.
  unfold Api.add_customer, DataStore.add_customer,
    DatabaseManager.add_customer.
  fold customer.
  cbn [fst snd DataStore.set_db DataStore.set_customers DataStore.db
       DataStore.customers DataStore.agents DataStore.routing_results
       Customer.id].
  change (Customer.id customer) with uuid.
  repeat split.
  - apply dict_get_set_eq.
  - intros other N. apply dict_get_set_neq. congruence.
  - unfold DataStore.get_customer.
    cbn [DataStore.db DataStore.customers DataStore.set_db
         DataStore.set_customers].
    destruct (DatabaseManager.get_customer (DataStore.db s) uuid);
      cbn [fst DataStore.customers]; [reflexivity|].
    apply dict_get_set_eq.
Qed.

(** X11. DELETE /customers/{id}, on a store whose customers table holds
    only rows that pass the validation of Customer: the answer is 404
    exactly when the customer could not be looked up before the call, and
    the success message otherwise. Afterwards the customer cannot be looked
    up any more, and the lookup of every other customer answers what it
    answered before. *)
Theorem removed_customer_is_gone (customer_id : string) (s : DataStore.t) :
  NoDup (Dict.keys (DataStore.customers s)) ->
  customers_table_valid s ->
  let out := Api.remove_customer customer_id s in
  (fst out = Failure "Customer not found" None 404
   <-> fst (DataStore.get_customer s customer_id) = None)
  /\ (fst out = Success "Customer removed successfully"%string
      <-> fst (DataStore.get_customer s customer_id) <> None)
  /\ fst (DataStore.get_customer (snd out) customer_id) = None
  /\ (forall other, other <> customer_id ->
        fst (DataStore.get_customer (snd out) other)
        = fst (DataStore.get_customer s other))
  /\ DataStore.agents (snd out) = DataStore.agents s
  /\ DataStore.routing_results (snd out) = DataStore.routing_results s.
Proof.
  intros Hnd Hvalid out.
  assert (Hdb : DataStore.db (snd out)
                = snd (DatabaseManager.remove_customer (DataStore.db s)
                                                       customer_id)
                /\ DataStore.customers (snd out)
                   = Dict.del (DataStore.customers s) customer_id
                /\ DataStore.agents (snd out) = DataStore.agents s
                /\ DataStore.routing_results (snd out)
                   = DataStore.routing_results s
                /\ fst out
                   = if Dict.mem (DataStore.customers s) customer_id
                        || fst (DatabaseManager.remove_customer
                                  (DataStore.db s) customer_id)
                     then Success "Customer removed successfully"%string
                     else Failure "Customer not found" None 404).
  { subst out. unfold Api.remove_customer, DataStore.remove_customer.
    destruct (DatabaseManager.remove_customer (DataStore.db s) customer_id)
      as [ok db'] eqn:R.
    cbn [DataStore.set_db DataStore.customers fst snd].
    unfold Dict.mem.
    destruct (Dict.get (DataStore.customers s) customer_id) as [c|] eqn:G;
      cbn [orb].
    - cbn. repeat split; reflexivity.
    - destruct ok; cbn; repeat split; auto;
        symmetry; now apply dict_del_absent. }
  destruct Hdb as (Hdb & Hcust & Hag & Hrr & Hresp).
  assert (Hknown :
            Dict.mem (DataStore.customers s) customer_id
            || fst (DatabaseManager.remove_customer (DataStore.db s)
                                                    customer_id) = false
            <-> fst (DataStore.get_customer s customer_id) = None).
  { unfold DataStore.get_customer, DatabaseManager.get_customer,
      DatabaseManager.remove_customer, Dict.mem.
    destruct (DatabaseManager.up (DataStore.db s)); cbn [fst].
    - rewrite find_existsb.
      destruct (find _ (DatabaseManager.customers (DataStore.db s)))
        as [row|] eqn:F.
      + apply find_some in F. destruct F as [Hrow _].
        unfold customers_table_valid in Hvalid.
        rewrite forallb_forall in Hvalid. rewrite (Hvalid row Hrow).
        cbn [fst]. rewrite orb_true_r. split; discriminate.
      + rewrite orb_false_r. cbn [fst].
        destruct (Dict.get (DataStore.customers s) customer_id);
          split; congruence.
    - rewrite orb_false_r.
      destruct (Dict.get (DataStore.customers s) customer_id);
        split; congruence. }
  repeat split; auto.
  - rewrite Hresp.
    destruct (Dict.mem _ _ || _) eqn:K; [discriminate|].
    intros _. now apply Hknown.
  - intros H. apply Hknown in H. rewrite Hresp, H. reflexivity.
  - rewrite Hresp. destruct (Dict.mem _ _ || _) eqn:K; [|discriminate].
    intros _ H. apply Hknown in H. congruence.
  - intros H. rewrite Hresp.
    destruct (Dict.mem _ _ || _) eqn:K; [reflexivity|].
    exfalso. apply H. now apply Hknown.
  - unfold DataStore.get_customer.
    rewrite Hdb, db_get_customer_after_remove, String.eqb_refl, Hcust.
    cbn [fst]. now apply dict_get_del_eq.
  - intros other N. unfold DataStore.get_customer.
    rewrite Hdb, db_get_customer_after_remove,
      (proj2 (String.eqb_neq other customer_id) N), Hcust.
    destruct (DatabaseManager.get_customer (DataStore.db s) other);
      cbn [fst]; [reflexivity|].
    apply dict_get_del_neq. congruence.
Qed.

End StoreRoundTrips.

Lemma removed_customer_is_gone_witness :
  NoDup (Dict.keys (DataStore.customers SpecMore.queued_store))
  /\ SpecMore.customers_table_valid SpecMore.queued_store
  /\ fst (DataStore.get_customer SpecMore.queued_store "c1")
     = Some Spec.urgent_customer
  /\ fst (DataStore.get_customer
            (snd (Api.remove_customer "c1" SpecMore.queued_store)) "c1") = None.
Proof.
  assert (H : NoDup (Dict.keys (DataStore.customers SpecMore.queued_store))).
  { cbn. repeat constructor; cbn; intuition discriminate. }
  assert (V : SpecMore.customers_table_valid SpecMore.queued_store)
    by reflexivity.
  split; [exact H|]. split; [exact V|]. split; [reflexivity|].
  exact (proj1 (proj2 (proj2
           (removed_customer_is_gone "c1" SpecMore.queued_store H V)))).
Defined.

(** ** Agents: status and workload *)

Section AgentUpdates.

Lemma db_get_agent_after_update (db : DatabaseManager.t) (agent_id other : string)
      (f : Agent.t -> Agent.t) :
  (forall row, Agent.id (f row) = Agent.id row) ->
  (forall row, DatabaseManager.agent_of_row (f row)
               = f (DatabaseManager.agent_of_row row)) ->
  DatabaseManager.get_agent
    (DatabaseManager.set_agents db
       (map (fun row => if String.eqb (Agent.id row) agent_id
                        then f row else row)
            (DatabaseManager.agents db)))
    other
  = if String.eqb other agent_id
    then option_map f (DatabaseManager.get_agent db other)
    else DatabaseManager.get_agent db other.
Proof.
  intros Hid Hrow. unfold DatabaseManager.get_agent.
  cbn [DatabaseManager.set_agents DatabaseManager.up DatabaseManager.agents].
  destruct (DatabaseManager.up db);
    [|now destruct (String.eqb other agent_id)].
  rewrite find_map_update
    by (intros x; destruct (String.eqb (Agent.id x) agent_id);
        [now rewrite Hid | reflexivity]).
  destruct (find _ (DatabaseManager.agents db)) as [row|] eqn:F;
    cbn [option_map]; [|now destruct (String.eqb other agent_id)].
  apply find_some in F. destruct F as [_ F]. apply String.eqb_eq in F.
  rewrite F.
  destruct (String.eqb other agent_id); cbn [option_map];
    [now rewrite Hrow | reflexivity].
Qed.

Lemma fits_integer_above_zero (n : Z) :
  (0 <= n)%Z ->
  DatabaseManager.fits_integer n = (n <=? 9223372036854775807)%Z.
Proof.
  intros H. unfold DatabaseManager.fits_integer.
  replace (-9223372036854775808 <=? n)%Z with true;
    [reflexivity | symmetry; apply Z.leb_le; lia].
Qed.

(** X12. Writing a workload that is not negative in the agents table and
    reading the agent back. A workload of at most 2^63 - 1 is stored: the
    write answers True exactly when the agent can be read, and the agent
    read afterwards is the one read before with the new workload and
    nothing else changed. A larger workload is not stored (SQLite holds 64
    bits and the binding raises): the write answers False and the agent
    reads as before. In both cases every other agent reads as before and
    the customers table is untouched. *)
Theorem table_workload_write_then_read
        (db : DatabaseManager.t) (agent_id : string) (workload : Z) :
  (0 <= workload)%Z ->
  let out := DatabaseManager.update_agent_workload db agent_id workload in
  let stored := (workload <=? 9223372036854775807)%Z in
  fst out = match DatabaseManager.get_agent db agent_id with
            | Some _ => stored
            | None => false
            end
  /\ DatabaseManager.get_agent (snd out) agent_id
     = option_map (fun a => if stored
                            then Agent.set_current_workload a workload
                            else a)
                  (DatabaseManager.get_agent db agent_id)
  /\ (forall other, other <> agent_id ->
        DatabaseManager.get_agent (snd out) other
        = DatabaseManager.get_agent db other)
  /\ DatabaseManager.customers (snd out) = DatabaseManager.customers db
  /\ map Agent.id (DatabaseManager.agents (snd out))
     = map Agent.id (DatabaseManager.agents db).
Proof.
  intros Hpos out stored. subst out.
  unfold DatabaseManager.update_agent_workload.
  rewrite (fits_integer_above_zero workload Hpos). fold stored.
  destruct (DatabaseManager.up db) eqn:U; destruct stored;
    cbn [andb fst snd].
  - repeat split.
    + unfold DatabaseManager.get_agent. rewrite U, find_existsb.
      now destruct (find _ _).
    + rewrite (db_get_agent_after_update db agent_id agent_id
                 (fun a => Agent.set_current_workload a workload))
        by reflexivity.
      now rewrite String.eqb_refl.
    + intros other N.
      rewrite (db_get_agent_after_update db agent_id other
                 (fun a => Agent.set_current_workload a workload))
        by reflexivity.
      now rewrite (proj2 (String.eqb_neq other agent_id) N).
    + cbn [DatabaseManager.set_agents DatabaseManager.agents].
      rewrite map_map. apply map_ext. intros row.
      now destruct (String.eqb (Agent.id row) agent_id).
  - repeat split; auto;
      now destruct (DatabaseManager.get_agent db agent_id).
  - unfold DatabaseManager.get_agent. rewrite U. cbn [option_map].
    repeat split; reflexivity.
  - unfold DatabaseManager.get_agent. rewrite U. cbn [option_map].
    repeat split; reflexivity.
Qed.

(** X13. The store's update_agent_status acts on what get_agent answers:
    afterwards the agent reads as before with the new status (table row and
    cached object alike), every other agent reads as before, customers and
    routing results are untouched. Its own answer, though, comes from the
    in-memory dictionary alone. *)
Theorem status_update_then_get_agent
        (s : DataStore.t) (agent_id : string) (status : AgentStatus) :
  let out := DataStore.update_agent_status s agent_id status in
  fst out = option_map (fun a => Agent.set_status a status)
                       (Dict.get (DataStore.agents s) agent_id)
  /\ fst (DataStore.get_agent (snd out) agent_id)
     = option_map (fun a => Agent.set_status a status)
                  (fst (DataStore.get_agent s agent_id))
  /\ (forall other, other <> agent_id ->
        fst (DataStore.get_agent (snd out) other)
        = fst (DataStore.get_agent s other))
  /\ DataStore.customers (snd out) = DataStore.customers s
  /\ DataStore.routing_results (snd out) = DataStore.routing_results s.
Proof.
  intros out.
  assert (Hout :
            fst out = option_map (fun a => Agent.set_status a status)
                                 (Dict.get (DataStore.agents s) agent_id)
            /\ DataStore.db (snd out)
               = snd (DatabaseManager.update_agent_status
                        (DataStore.db s) agent_id status)
            /\ (forall other,
                   Dict.get (DataStore.agents (snd out)) other
                   = if String.eqb other agent_id
                     then option_map (fun a => Agent.set_status a status)
                            (Dict.get (DataStore.agents s) other)
                     else Dict.get (DataStore.agents s) other)
            /\ DataStore.customers (snd out) = DataStore.customers s
            /\ DataStore.routing_results (snd out)
               = DataStore.routing_results s).
  { subst out. unfold DataStore.update_agent_status.
    destruct (DatabaseManager.update_agent_status (DataStore.db s) agent_id
                                                  status) as [ok db'].
    cbn [DataStore.set_db DataStore.agents snd].
    destruct (Dict.get (DataStore.agents s) agent_id) as [agent|] eqn:G;
      cbn [fst snd option_map DataStore.set_agents DataStore.set_db
           DataStore.db DataStore.agents DataStore.customers
           DataStore.routing_results]; repeat split; auto; intros other.
    - destruct (String.eqb_spec other agent_id) as [->|N].
      + now rewrite dict_get_set_eq, G.
      + apply dict_get_set_neq. congruence.
    - destruct (String.eqb_spec other agent_id) as [->|N];
        [now rewrite G | reflexivity]. }
  destruct Hout as (Hans & Hdb & Hcache & Hcust & Hrr).
  assert (Hread : forall other,
             fst (DataStore.get_agent (snd out) other)
             = if String.eqb other agent_id
               then option_map (fun a => Agent.set_status a status)
                               (fst (DataStore.get_agent s other))
               else fst (DataStore.get_agent s other)).
  { intros other. unfold DataStore.get_agent. rewrite Hdb.
    unfold DatabaseManager.update_agent_status.
    destruct (DatabaseManager.up (DataStore.db s)) eqn:U; cbn [snd].
    - rewrite (db_get_agent_after_update (DataStore.db s) agent_id other
                 (fun a => Agent.set_status a status)) by reflexivity.
      destruct (DatabaseManager.get_agent (DataStore.db s) other) as [row|];
        [now destruct (String.eqb other agent_id)|].
      assert (E : (if String.eqb other agent_id
                   then option_map (fun a => Agent.set_status a status) None
                   else None) = @None Agent.t)
        by now destruct (String.eqb other agent_id).
      rewrite E. cbn [fst]. apply Hcache.
    - destruct (DatabaseManager.get_agent (DataStore.db s) other) eqn:G.
      + unfold DatabaseManager.get_agent in G. rewrite U in G. discriminate.
      + cbn [fst]. apply Hcache. }
  repeat split; auto.
  - now rewrite Hread, String.eqb_refl.
  - intros other N.
    now rewrite Hread, (proj2 (String.eqb_neq other agent_id) N).
Qed.

(** X14. POST /agents/{id}/workload for an agent that get_agent answers,
    with an integer workload: the value is accepted exactly when
    0 <= workload <= max_concurrent, else the answer is 400. An accepted
    value is written on the cached agent object, whose status becomes busy
    when the workload is positive and reaches max_concurrent and available
    otherwise, so that the agent is open to routing exactly when the
    workload is below max_concurrent. The table is never written: when
    SQLite answers the agent's row, the next get_agent answers that row
    again and the accepted workload is not seen. *)
Theorem workload_endpoint_validates_and_skips_the_table
        (s : DataStore.t) (agent_id : string) (workload : Z) (agent : Agent.t) :
  fst (DataStore.get_agent s agent_id) = Some agent ->
  let out := Api.update_agent_workload agent_id (Some workload) s in
  let accepted := (0 <=? workload)%Z
                  && (workload <=? Agent.max_concurrent agent)%Z in
  DataStore.db (snd out) = DataStore.db s
  /\ DataStore.customers (snd out) = DataStore.customers s
  /\ DataStore.routing_results (snd out) = DataStore.routing_results s
  /\ (accepted = false ->
      fst out = Failure "Invalid workload value" None 400
      /\ snd out = snd (DataStore.get_agent s agent_id))
  /\ (accepted = true ->
      exists updated,
        fst out = Success ("Agent workload updated"%string, updated)
        /\ Agent.current_workload updated = workload
        /\ Agent.status updated
           = (if (0 <? workload)%Z
                 && (workload =? Agent.max_concurrent agent)%Z
              then busy else available)
        /\ RoutingEngine.is_routable updated
           = (workload <? Agent.max_concurrent agent)%Z
        /\ Agent.set_status (Agent.set_current_workload updated
                               (Agent.current_workload agent))
                            (Agent.status agent) = agent
        /\ Dict.get (DataStore.agents (snd out)) agent_id = Some updated
        /\ fst (DataStore.get_agent (snd out) agent_id)
           = match DatabaseManager.get_agent (DataStore.db s) agent_id with
             | Some row => Some row
             | None => Some updated
             end).
Proof.
  intros Hget out accepted.
  destruct (get_agent_frame s agent_id) as (Fdb & Fcust & Frr).
  subst out. unfold Api.update_agent_workload.
  destruct (DataStore.get_agent s agent_id) as [found s1] eqn:G.
  cbn [fst snd] in *. subst found. fold accepted.
  destruct accepted eqn:A; cbn [fst snd DataStore.set_agents DataStore.db
    DataStore.customers DataStore.routing_results DataStore.agents];
    repeat split; auto; try discriminate.
  intros _. subst accepted. apply andb_true_iff in A.
  destruct A as [A0 A1]. apply Z.leb_le in A0, A1.
  assert (Hupd :
            (if (workload =? 0)%Z
             then Agent.set_status
                    (Agent.set_current_workload agent workload) available
             else if (Agent.max_concurrent
                        (Agent.set_current_workload agent workload)
                      <=? workload)%Z
                  then Agent.set_status
                         (Agent.set_current_workload agent workload) busy
                  else Agent.set_status
                         (Agent.set_current_workload agent workload) available)
            = Agent.set_status (Agent.set_current_workload agent workload)
                (if (0 <? workload)%Z
                    && (workload =? Agent.max_concurrent agent)%Z
                 then busy else available)).
  { cbn [Agent.set_current_workload Agent.max_concurrent].
    destruct (Z.eqb_spec workload 0) as [->|N0]; [reflexivity|].
    destruct (Z.leb_spec (Agent.max_concurrent agent) workload) as [L|L].
    - replace (0 <? workload)%Z with true by (symmetry; apply Z.ltb_lt; lia).
      replace (workload =? Agent.max_concurrent agent)%Z with true
        by (symmetry; apply Z.eqb_eq; lia).
      reflexivity.
    - replace (workload =? Agent.max_concurrent agent)%Z with false
        by (symmetry; apply Z.eqb_neq; lia).
      now rewrite andb_false_r. }
  rewrite Hupd. eexists. split; [reflexivity|].
  repeat split.
  - unfold RoutingEngine.is_routable.
    cbn [Agent.set_status Agent.set_current_workload Agent.status
         Agent.current_workload Agent.max_concurrent].
    destruct (Z.ltb_spec workload (Agent.max_concurrent agent)) as [L|L].
    + replace (workload =? Agent.max_concurrent agent)%Z with false
        by (symmetry; apply Z.eqb_neq; lia).
      now rewrite andb_false_r.
    + replace (workload =? Agent.max_concurrent agent)%Z with true
        by (symmetry; apply Z.eqb_eq; lia).
      destruct (0 <? workload)%Z; reflexivity.
  - now destruct agent.
  - apply dict_get_set_eq.
  - unfold DataStore.get_agent.
    cbn [DataStore.db DataStore.agents DataStore.set_agents]. rewrite Fdb.
    destruct (DatabaseManager.get_agent (DataStore.db s) agent_id);
      cbn [fst DataStore.agents]; [reflexivity|]. apply dict_get_set_eq.
Qed.

End AgentUpdates.

Lemma table_workload_write_witness :
  (0 <= 1)%Z
  /\ DatabaseManager.get_agent
       (snd (DatabaseManager.update_agent_workload
               (DataStore.db Spec.backed_store) "a1" 1))
       "a1"
     = Some (Spec.sarah 1).
Proof.
  assert (H : (0 <= 1)%Z) by lia.
  split; [exact H|].
  exact (proj1 (proj2 (table_workload_write_then_read
                         (DataStore.db Spec.backed_store) "a1"%string 1 H))).
Defined.

Lemma workload_endpoint_witness :
  fst (DataStore.get_agent Spec.backed_store "a1") = Some (Spec.sarah 2)
  /\ DataStore.db
       (snd (Api.update_agent_workload "a1" (Some 3%Z) Spec.backed_store))
     = DataStore.db Spec.backed_store.
Proof.
  assert (H : fst (DataStore.get_agent Spec.backed_store "a1")
              = Some (Spec.sarah 2)) by reflexivity.
  split; [exact H|].
  exact (proj1 (workload_endpoint_validates_and_skips_the_table
                  Spec.backed_store "a1" 3%Z (Spec.sarah 2) H)).
Defined.

(** ** The routing endpoint and the analytics *)

Section RoutingEndpoint.

Lemma filter_idempotent {A : Type} (f : A -> bool) (l : list A) :
  filter f (filter f l) = filter f l.
Proof.
  induction l as [|x l IH]; cbn [filter]; [reflexivity|].
  destruct (f x) eqn:F; cbn [filter]; [rewrite F|]; now rewrite ?IH.
Qed.

Lemma store_get_customers_frame (s : DataStore.t) :
  DataStore.db (snd (DataStore.get_customers s)) = DataStore.db s
  /\ DataStore.agents (snd (DataStore.get_customers s)) = DataStore.agents s
  /\ DataStore.routing_results (snd (DataStore.get_customers s))
     = DataStore.routing_results s.
Proof. repeat split. Qed.

Lemma store_get_agents_frame (s : DataStore.t) :
  DataStore.db (snd (DataStore.get_agents s)) = DataStore.db s
  /\ DataStore.customers (snd (DataStore.get_agents s)) = DataStore.customers s
  /\ DataStore.routing_results (snd (DataStore.get_agents s))
     = DataStore.routing_results s.
Proof.
  unfold DataStore.get_agents.
  destruct (DatabaseManager.get_agents (DataStore.db s)); repeat split.
Qed.

Lemma db_update_customer_status_up (db : DatabaseManager.t)
      (customer_id status : string) :
  DatabaseManager.up
    (snd (DatabaseManager.update_customer_status db customer_id status))
  = DatabaseManager.up db.
Proof.
  unfold DatabaseManager.update_customer_status.
  destruct (DatabaseManager.up db) eqn:U; cbn; auto.
Qed.

Lemma db_remove_customer_up (db : DatabaseManager.t) (customer_id : string) :
  DatabaseManager.up (snd (DatabaseManager.remove_customer db customer_id))
  = DatabaseManager.up db.
Proof.
  unfold DatabaseManager.remove_customer.
  destruct (DatabaseManager.up db) eqn:U; cbn; auto.
Qed.

Lemma db_update_agent_workload_up (db : DatabaseManager.t)
      (agent_id : string) (workload : Z) :
  DatabaseManager.up
    (snd (DatabaseManager.update_agent_workload db agent_id workload))
  = DatabaseManager.up db.
Proof.
  unfold DatabaseManager.update_agent_workload.
  destruct (DatabaseManager.up db) eqn:U;
    destruct (DatabaseManager.fits_integer workload); cbn; auto.
Qed.

Lemma auto_route_body_runs (result : RoutingResult.t) (s : DataStore.t) :
  exists s',
    SpecMore.auto_route_body result s = (Ok tt, s')
    /\ DataStore.routing_results s'
       = Dict.set (DataStore.routing_results s) (RoutingResult.id result) result
    /\ DatabaseManager.up (DataStore.db s') = DatabaseManager.up (DataStore.db s).
Proof.
  unfold SpecMore.auto_route_body, bindH, exec, call, store_agent, exec_db,
    exec, ret.
  set (s1 := DataStore.add_routing_result s result).
  destruct (get_agent_frame s1 (RoutingResult.agent_id result))
    as (Fdb & _ & Frr).
  destruct (DataStore.get_agent s1 (RoutingResult.agent_id result))
    as [[agent|] s2]; cbn [snd] in Fdb, Frr.
  - unfold DataStore.remove_customer.
    cbn [DataStore.set_db DataStore.set_agents DataStore.db DataStore.customers
         DataStore.agents DataStore.routing_results].
    destruct (DatabaseManager.remove_customer _ _) as [ok db'] eqn:R.
    assert (Hup : DatabaseManager.up db' = DatabaseManager.up (DataStore.db s)).
    { change db' with (snd (ok, db')). rewrite <- R.
      now rewrite db_remove_customer_up, db_update_customer_status_up,
        db_update_agent_workload_up, Fdb. }
    cbn [DataStore.set_db DataStore.customers].
    destruct (Dict.mem (DataStore.customers s2) _);
      eexists; (split; [reflexivity|]);
      cbn [DataStore.set_customers DataStore.set_db DataStore.set_agents
           DataStore.routing_results DataStore.db];
      rewrite Frr; (split; [reflexivity | exact Hup]).
  - unfold DataStore.remove_customer.
    cbn [DataStore.set_db DataStore.set_agents DataStore.db DataStore.customers
         DataStore.agents DataStore.routing_results].
    destruct (DatabaseManager.remove_customer _ _) as [ok db'] eqn:R.
    assert (Hup : DatabaseManager.up db' = DatabaseManager.up (DataStore.db s)).
    { change db' with (snd (ok, db')). rewrite <- R.
      now rewrite db_remove_customer_up, db_update_customer_status_up, Fdb. }
    cbn [DataStore.set_db DataStore.customers].
    destruct (Dict.mem (DataStore.customers s2) _);
      eexists; (split; [reflexivity|]);
      cbn [DataStore.set_customers DataStore.set_db DataStore.set_agents
           DataStore.routing_results DataStore.db];
      rewrite Frr; (split; [reflexivity | exact Hup]).
Qed.

Lemma auto_route_loop_runs (results : list RoutingResult.t) (s : DataStore.t) :
  exists s',
    for_each results SpecMore.auto_route_body s = (Ok tt, s')
    /\ DataStore.routing_results s'
       = SpecMore.recorded results (DataStore.routing_results s)
    /\ DatabaseManager.up (DataStore.db s') = DatabaseManager.up (DataStore.db s).
Proof.
  revert s. induction results as [|r results IH]; intros s.
  - exists s. now repeat split.
  - destruct (auto_route_body_runs r s) as (s1 & E1 & Hrr1 & Hup1).
    destruct (IH s1) as (s2 & E2 & Hrr2 & Hup2).
    exists s2. cbn [for_each]. unfold bindH at 1. rewrite E1.
    repeat split; [exact E2 | | congruence].
    rewrite Hrr2, Hrr1. reflexivity.
Qed.

(** X15. POST /route never answers its error: for every store it answers
    the results of the routing pass run on the queue and on the agents open
    to routing, min(#customers, #such agents) of them, with the message of
    the case (no customer, no agent, or the number routed). Afterwards the
    routing results are those held before with each new result stored under
    its id, in order. *)
Theorem auto_route_always_succeeds
        (routing_engine : RoutingEngine.t) (format_1f : float -> string)
        (np_mean np_std : list float -> float) (uuid4 : nat -> string)
        (s : DataStore.t) :
  let customers := fst (DataStore.get_customers s) in
  let agents :=
    fst (DataStore.get_available_agents (snd (DataStore.get_customers s))) in
  let out := App.auto_route routing_engine format_1f np_mean np_std uuid4 s in
  exists body,
    fst out = Success body
    /\ RoutingEngine.route_customers format_1f routing_engine uuid4
                                     customers agents
       = Ok (App.results body)
    /\ List.length (App.results body)
       = Nat.min (List.length customers) (List.length agents)
    /\ App.message body
       = match customers, agents with
         | [], _ => App.NoCustomersInQueue
         | _, [] => App.NoAgentsAvailable
         | _, _ => App.SuccessfullyRouted
                     (Nat.min (List.length customers) (List.length agents))
         end
    /\ DataStore.routing_results (snd out)
       = SpecMore.recorded (App.results body) (DataStore.routing_results s)
    /\ DatabaseManager.up (DataStore.db (snd out))
       = DatabaseManager.up (DataStore.db s).
Proof.
  intros customers agents out.
  destruct (route_customers_pairs format_1f routing_engine uuid4
              customers agents) as (asg & results & _ & Hroute & Hlen & _).
  assert (Hfilter : filter RoutingEngine.is_routable agents = agents).
  { subst agents. unfold DataStore.get_available_agents.
    destruct (DataStore.get_agents _) as [l s2]. cbn [fst].
    apply filter_idempotent. }
  cbv zeta in Hlen. rewrite Hfilter in Hlen.
  destruct (store_get_customers_frame s) as (Cdb & _ & Crr).
  assert (Afr : DataStore.db
                  (snd (DataStore.get_available_agents
                          (snd (DataStore.get_customers s))))
                = DataStore.db s
                /\ DataStore.routing_results
                     (snd (DataStore.get_available_agents
                             (snd (DataStore.get_customers s))))
                   = DataStore.routing_results s).
  { unfold DataStore.get_available_agents.
    destruct (store_get_agents_frame (snd (DataStore.get_customers s)))
      as (Adb & _ & Arr).
    destruct (DataStore.get_agents (snd (DataStore.get_customers s)))
      as [l s2]. cbn [snd] in *. split; congruence. }
  destruct Afr as [Adb Arr].
  subst out. unfold App.auto_route.
  change (fun result : RoutingResult.t =>
            exec (fun s => DataStore.add_routing_result s result) ;;; _)
    with SpecMore.auto_route_body.
  unfold try_except, bindH, call.
  subst customers agents.
  destruct (DataStore.get_customers s) as [customers s1]. cbn [fst snd] in *.
  destruct (DataStore.get_available_agents s1) as [agents s2].
  cbn [fst snd] in *.
  destruct customers as [|c0 customers'].
  { eexists. cbn [ret fst snd]. split; [reflexivity|].
    cbn [App.results App.message SpecMore.recorded fold_left List.length
         Nat.min].
    repeat split; auto. now rewrite Adb. }
  destruct agents as [|a0 agents'].
  { eexists. cbn [ret fst snd]. split; [reflexivity|].
    cbn [App.results App.message SpecMore.recorded fold_left List.length].
    rewrite Nat.min_0_r. repeat split; auto. now rewrite Adb. }
  unfold pure. rewrite Hroute.
  destruct (auto_route_loop_runs results s2) as (s3 & -> & Hrr & Hup).
  eexists. cbn [ret fst snd]. split; [reflexivity|].
  cbn [App.results App.message]. rewrite Hlen.
  repeat split; auto; congruence.
Qed.

End RoutingEndpoint.

Section CompleteAll.

Lemma dict_set_at {V : Type} (pre : Dict.t V) (k : string) (v v' : V)
      (rest : Dict.t V) :
  NoDup (Dict.keys (pre ++ (k, v) :: rest)) ->
  Dict.set (pre ++ (k, v) :: rest) k v' = pre ++ (k, v') :: rest.
Proof.
  unfold Dict.keys.
  induction pre as [|[k0 v0] pre IH]; cbn [app map fst Dict.set]; intros Hnd.
  - now rewrite String.eqb_refl.
  - inversion Hnd as [|? ? Hfresh Hnd']; subst.
    destruct (String.eqb_spec k k0) as [->|N].
    + exfalso. apply Hfresh. rewrite map_app. apply in_or_app.
      right. now left.
    + now rewrite IH.
Qed.

Lemma first_active_completed_at (pre : Dict.t RoutingResult.t)
      (slot : string) (result : RoutingResult.t)
      (rest : Dict.t RoutingResult.t) :
  existsb (fun r => ResultStatus_eqb (RoutingResult.status r) active)
          (Dict.values pre) = false ->
  ResultStatus_eqb (RoutingResult.status result) active = true ->
  SpecMore.first_active_completed (pre ++ (slot, result) :: rest)
  = pre ++ (slot, result_set_status result completed) :: rest.
Proof.
  intros Hpre Hactive.
  induction pre as [|[k0 r0] pre IH];
    cbn [app SpecMore.first_active_completed].
  - now rewrite Hactive.
  - cbn [Dict.values map snd existsb] in Hpre.
    apply orb_false_iff in Hpre. destruct Hpre as [H0 Hpre].
    rewrite H0. now rewrite (IH Hpre).
Qed.

Lemma first_active_completed_none (routing_results : Dict.t RoutingResult.t) :
  existsb (fun r => ResultStatus_eqb (RoutingResult.status r) active)
          (Dict.values routing_results) = false ->
  SpecMore.first_active_completed routing_results = routing_results.
Proof.
  induction routing_results as [|[k r] rr IH];
    cbn [SpecMore.first_active_completed Dict.values map snd existsb];
    [reflexivity|].
  intros H. apply orb_false_iff in H. destruct H as [H0 H].
  rewrite H0. unfold Dict.values in IH. now rewrite (IH H).
Qed.

Lemma first_active_completed_count
      (routing_results : Dict.t RoutingResult.t) :
  SpecMore.active_count (SpecMore.first_active_completed routing_results)
  = Nat.pred (SpecMore.active_count routing_results).
Proof.
  unfold SpecMore.active_count.
  induction routing_results as [|[k r] rr IH];
    cbn [SpecMore.first_active_completed Dict.values map snd filter];
    [reflexivity|].
  destruct (ResultStatus_eqb (RoutingResult.status r) active) eqn:A.
  - cbn [Dict.values map snd filter result_set_status RoutingResult.status
         ResultStatus_eqb List.length Nat.pred]. reflexivity.
  - cbn [Dict.values map snd filter]. rewrite A. exact IH.
Qed.

Lemma complete_all_loop (xs : list (string * RoutingResult.t)) :
  forall (pre : list (string * RoutingResult.t)) (n : nat) (s : DataStore.t),
    DataStore.routing_results s = pre ++ xs ->
    NoDup (Dict.keys (pre ++ xs)) ->
    existsb (fun r => ResultStatus_eqb (RoutingResult.status r) active)
            (Dict.values pre) = false ->
    let out := Api.for_count xs SpecMore.complete_all_body n s in
    if existsb (fun r => ResultStatus_eqb (RoutingResult.status r) active)
               (Dict.values xs)
    then fst out = Raise AttributeError
         /\ DataStore.db (snd out) = DataStore.db s
         /\ DataStore.agents (snd out) = DataStore.agents s
         /\ DataStore.customers (snd out) = DataStore.customers s
         /\ DataStore.routing_results (snd out)
            = SpecMore.first_active_completed (DataStore.routing_results s)
    else out = (Ok n, s).
Proof.
  induction xs as [|[slot result] xs IH]; intros pre n s Hrr Hnd Hpre out;
    [reflexivity|].
  assert (E : out
              = if ResultStatus_eqb (RoutingResult.status result) active
                then (Raise AttributeError,
                      DataStore.set_routing_results s
                        (Dict.set (DataStore.routing_results s) slot
                                  (result_set_status result completed)))
                else Api.for_count xs SpecMore.complete_all_body n s).
  { subst out. cbn [Api.for_count]. unfold bindH at 1.
    unfold SpecMore.complete_all_body at 1.
    now destruct (ResultStatus_eqb (RoutingResult.status result) active). }
  rewrite E. clear E out.
  cbn [Dict.values map snd existsb].
  destruct (ResultStatus_eqb (RoutingResult.status result) active) eqn:A;
    cbn [orb].
  - cbn [fst snd DataStore.set_routing_results DataStore.db DataStore.agents
         DataStore.customers DataStore.routing_results].
    repeat split.
    rewrite Hrr, (dict_set_at pre slot result _ xs Hnd).
    symmetry. now apply first_active_completed_at.
  - apply (IH (pre ++ [(slot, result)]) n s).
    + now rewrite <- app_assoc.
    + now rewrite <- app_assoc.
    + unfold Dict.values. rewrite map_app, existsb_app.
      cbn [map snd existsb]. unfold Dict.values in Hpre.
      now rewrite Hpre, A.
Qed.

(** X16. POST /routing/complete-all releases no agent. When no routing
    result is active it answers a count of 0 and leaves the store as it
    was. When one is active, the first active result is marked completed,
    then the call of the undefined update_routing_result_status raises: the
    answer is the 500 of the except clause, every other routing result is
    as it was (one active result fewer), and no agent, no table row and no
    customer has changed. *)
Theorem complete_all_stops_at_first_active_task (s : DataStore.t) :
  NoDup (Dict.keys (DataStore.routing_results s)) ->
  let out := Api.complete_all_active_tasks s in
  DataStore.db (snd out) = DataStore.db s
  /\ DataStore.agents (snd out) = DataStore.agents s
  /\ DataStore.customers (snd out) = DataStore.customers s
  /\ DataStore.routing_results (snd out)
     = SpecMore.first_active_completed (DataStore.routing_results s)
  /\ SpecMore.active_count (DataStore.routing_results (snd out))
     = Nat.pred (SpecMore.active_count (DataStore.routing_results s))
  /\ if existsb (fun r => ResultStatus_eqb (RoutingResult.status r) active)
                (DataStore.get_routing_results s)
     then fst out = Failure "Failed to complete tasks" (Some AttributeError) 500
     else fst out = Success 0%nat /\ snd out = s.
Proof.
  intros Hnd out.
  assert (E : out
              = match Api.for_count (DataStore.routing_results s)
                                    SpecMore.complete_all_body 0%nat s with
                | (Ok n, s') => (Success n, s')
                | (Raise e, s') =>
                    (Failure "Failed to complete tasks" (Some e) 500, s')
                end).
  { subst out. unfold Api.complete_all_active_tasks, try_except.
    change (fun (completed_count : nat) '(slot, result) =>
              if ResultStatus_eqb (RoutingResult.status result) active
              then _ else _)
      with SpecMore.complete_all_body.
    unfold bindH at 1. unfold call at 1. unfold bindH at 1.
    destruct (Api.for_count _ _ _ _) as [[n|e] s']; reflexivity. }
  rewrite E. clear E out.
  pose proof (complete_all_loop (DataStore.routing_results s) [] 0%nat s
                eq_refl Hnd eq_refl) as H.
  cbv zeta in H. unfold DataStore.get_routing_results.
  destruct (Api.for_count _ _ _ _) as [r s'].
  destruct (existsb _ (Dict.values (DataStore.routing_results s))) eqn:X.
  - cbn [fst snd] in H. destruct H as (-> & Hdb & Hag & Hcu & Hrr).
    cbn [fst snd]. repeat split; auto.
    rewrite Hrr. apply first_active_completed_count.
  - injection H as -> ->. cbn [fst snd].
    repeat split; auto.
    + symmetry. apply (first_active_completed_none _ X).
    + rewrite <- first_active_completed_count.
      now rewrite (first_active_completed_none _ X).
Qed.

End CompleteAll.

Lemma complete_all_witness :
  NoDup (Dict.keys (DataStore.routing_results (Spec.busy_store true)))
  /\ option_map RoutingResult.status
       (Dict.get (DataStore.routing_results
                    (snd (Api.complete_all_active_tasks (Spec.busy_store true))))
                 "r1")
     = Some completed
  /\ DataStore.agents (snd (Api.complete_all_active_tasks (Spec.busy_store true)))
     = DataStore.agents (Spec.busy_store true).
Proof.
  assert (H : NoDup (Dict.keys (DataStore.routing_results
                                  (Spec.busy_store true)))).
  { cbn. repeat constructor. intros []. }
  split; [exact H|].
  destruct (complete_all_stops_at_first_active_task (Spec.busy_store true) H)
    as (_ & Hag & _ & Hrr & _).
  split; [rewrite Hrr; reflexivity | exact Hag].
Defined.

(** ** The queue *)

Section QueueReads.

Local Open Scope float_scope.

(** X17. Every customer that the table's [get_customers] hands to the
    store has passed the validation of [Customer]: its complexity is in
    [1, 5], its priority in 1..10, its wait time not negative. The repair
    that [DataStore.get_customers] applies to these customers (a complexity
    below 1 replaced by max(1, 5 * complexity)) therefore changes none of
    them, whatever the table holds. *)
Theorem table_customers_need_no_repair
        (db : DatabaseManager.t) (status : string) :
  Forall (fun customer =>
            DataStore.fix_issue_complexity customer = customer
            /\ (1 <=? Customer.issue_complexity customer) = true
            /\ (Customer.issue_complexity customer <=? 5) = true
            /\ (1 <= Customer.priority customer <= 10)%Z
            /\ (0 <= Customer.wait_time customer)%Z)
         (DatabaseManager.get_customers db status).
Proof.
  unfold DatabaseManager.get_customers.
  destruct (DatabaseManager.up db); [|constructor].
  destruct (forallb _ _) eqn:V; [|constructor].
  rewrite forallb_forall in V.
  apply Forall_forall. intros customer Hin.
  apply in_map_iff in Hin. destruct Hin as (row & <- & Hrow).
  specialize (V row Hrow). unfold DatabaseManager.customer_row_valid in V.
  rewrite !andb_true_iff in V.
  destruct V as [[[Hlo Hhi] Hwait] [Hp1 Hp2]].
  apply Z.leb_le in Hwait, Hp1, Hp2.
  cbn [DatabaseManager.customer_of_row Customer.set_context
       Customer.issue_complexity Customer.priority Customer.wait_time].
  repeat split; auto.
  unfold DataStore.fix_issue_complexity.
  change (Customer.issue_complexity (DatabaseManager.customer_of_row row))
    with (Customer.issue_complexity (fst row)).
  destruct (leb_ordered _ _ Hlo) as [H1 Hc].
  now rewrite (ltb_negb_leb _ _ Hc H1), Hlo.
Qed.

Lemma dict_set_fresh {V : Type} (d : Dict.t V) (k : string) (v : V) :
  ~ In k (Dict.keys d) ->
  Dict.get d k = None /\ Dict.set d k v = d ++ [(k, v)].
Proof.
  unfold Dict.keys.
  induction d as [|[k0 v0] d IH]; cbn [map fst In Dict.get Dict.set app];
    intros Hn; [now split|].
  destruct (String.eqb_spec k k0) as [->|N]; [tauto|].
  destruct IH as [G S]; [tauto|]. rewrite G, S. now split.
Qed.

Lemma merge_into_fresh {V : Type} (l : Dict.t V) : forall acc : Dict.t V,
  NoDup (Dict.keys (acc ++ l)) ->
  fold_left (fun all kv =>
               if Dict.mem all (fst kv) then all
               else Dict.set all (fst kv) (snd kv))
            l acc
  = acc ++ l.
Proof.
  induction l as [|[k v] l IH]; intros acc Hnd; cbn [fold_left fst snd];
    [now rewrite app_nil_r|].
  assert (Hk : ~ In k (Dict.keys acc)).
  { unfold Dict.keys in *. rewrite map_app in Hnd. cbn [map fst] in Hnd.
    apply NoDup_remove_2 in Hnd. intros Hin. apply Hnd.
    apply in_or_app. now left. }
  destruct (dict_set_fresh acc k v Hk) as [G S].
  unfold Dict.mem. rewrite G, S.
  rewrite IH; rewrite <- app_assoc; [reflexivity | exact Hnd].
Qed.

Lemma dict_update_same {V : Type} (d : Dict.t V) :
  NoDup (Dict.keys d) -> Dict.update d d = d.
Proof.
  intros Hnd. unfold Dict.update.
  assert (G : forall l : Dict.t V,
             (forall kv, In kv l -> In kv d) ->
             fold_left (fun acc kv => Dict.set acc (fst kv) (snd kv)) l d = d).
  { induction l as [|[k v] l IH]; intros Hl; cbn [fold_left fst snd];
      [reflexivity|].
    rewrite dict_set_same
      by (apply dict_get_in; [exact Hnd | apply Hl; now left]).
    apply IH. intros kv Hin. apply Hl. now right. }
  apply G. auto.
Qed.

(** X18. When SQLite fails, get_customers answers the in-memory queue, in
    its order, and leaves the store as it was; GET /customers then counts
    what GET /health counts. *)
Theorem get_customers_falls_back_to_memory (s : DataStore.t) :
  DatabaseManager.up (DataStore.db s) = false ->
  NoDup (Dict.keys (DataStore.customers s)) ->
  DataStore.get_customers s = (Dict.values (DataStore.customers s), s)
  /\ snd (fst (Api.get_customers s)) = snd (fst (Api.health_check s)).
Proof.
  intros Hup Hnd.
  assert (E : DataStore.get_customers s
              = (Dict.values (DataStore.customers s), s)).
  { unfold DataStore.get_customers, DatabaseManager.get_customers.
    rewrite Hup. cbn [fold_left].
    rewrite (merge_into_fresh (DataStore.customers s) []) by exact Hnd.
    cbn [app]. rewrite (dict_update_same _ Hnd).
    now destruct s. }
  split; [exact E|].
  unfold Api.get_customers, Api.health_check. rewrite E. cbn [fst snd].
  unfold Dict.values. apply length_map.
Qed.

Lemma status_counts_partition (agents : list Agent.t) :
  (List.length (filter (fun a => AgentStatus_eqb (Agent.status a) available)
                       agents)
   + List.length (filter (fun a => AgentStatus_eqb (Agent.status a) busy)
                         agents)
   + List.length (filter (fun a => AgentStatus_eqb (Agent.status a) offline)
                         agents))%nat
  = List.length agents.
Proof.
  induction agents as [|a agents IH]; [reflexivity|].
  cbn [filter]. destruct (Agent.status a);
    cbn [AgentStatus_eqb List.length]; lia.
Qed.

(** X19. GET /analytics/performance: the total of the routing statistics
    is the number of routing results in the store; the queue metrics count
    the customers that get_customers answers and the agents that get_agents
    answers, and the available, busy and offline agents (the latter not
    reported) add up to total_agents; the call changes neither the routing
    results nor the table. *)
Theorem performance_metrics_are_consistent
        (np_mean np_std : list float -> float) (class_name : string)
        (routing_engine : RoutingEngine.t) (s : DataStore.t) :
  let out :=
    Api.get_performance_metrics np_mean np_std class_name routing_engine s in
  let stats := fst (fst (fst out)) in
  let queue := snd (fst (fst out)) in
  let customers := fst (DataStore.get_customers s) in
  let agents :=
    fst (DataStore.get_agents (snd (DataStore.get_customers s))) in
  RoutingEngine.Statistics.total_routings stats
  = List.length (DataStore.get_routing_results s)
  /\ Api.customers_waiting queue = List.length customers
  /\ Api.total_agents queue = List.length agents
  /\ (Api.agents_available queue + Api.agents_busy queue
      + List.length
          (filter (fun a => AgentStatus_eqb (Agent.status a) offline) agents))%nat
     = Api.total_agents queue
  /\ DataStore.routing_results (snd out) = DataStore.routing_results s
  /\ DataStore.db (snd out) = DataStore.db s.
Proof.
  intros out stats queue customers agents.
  destruct (store_get_customers_frame s) as (Cdb & _ & Crr).
  destruct (store_get_agents_frame (snd (DataStore.get_customers s)))
    as (Adb & _ & Arr).
  subst out stats queue customers agents.
  unfold Api.get_performance_metrics.
  destruct (DataStore.get_customers s) as [customers s1].
  cbn [fst snd] in *.
  destruct (DataStore.get_agents s1) as [agents s2].
  cbn [fst snd Api.customers_waiting Api.total_agents Api.agents_available
       Api.agents_busy] in *.
  repeat split; try congruence.
  - unfold RoutingEngine.get_routing_statistics.
    now destruct (DataStore.get_routing_results s).
  - apply status_counts_partition.
Qed.

End QueueReads.

Lemma get_customers_falls_back_witness :
  DatabaseManager.up (DataStore.db Spec.memory_store) = false
  /\ NoDup (Dict.keys (DataStore.customers Spec.memory_store))
  /\ DataStore.get_customers Spec.memory_store
     = (Dict.values (DataStore.customers Spec.memory_store), Spec.memory_store).
Proof.
  assert (H : NoDup (Dict.keys (DataStore.customers Spec.memory_store))).
  { cbn. repeat constructor; cbn; intuition discriminate. }
  split; [reflexivity|]. split; [exact H|].
  exact (proj1 (get_customers_falls_back_to_memory Spec.memory_store
                  eq_refl H)).
Defined.

(** ** A valid manual assignment *)

Section ManualAssignments.

Lemma dict_set_keys_NoDup {V : Type} (d : Dict.t V) (k : string) (v : V) :
  NoDup (Dict.keys d) -> NoDup (Dict.keys (Dict.set d k v)).
Proof.
  intros Hnd. destruct (in_dec string_dec k (Dict.keys d)) as [Hin|Hout].
  - now rewrite dict_keys_set_in.
  - destruct (dict_set_fresh d k v Hout) as [_ ->].
    unfold Dict.keys in *. rewrite map_app. cbn [map fst].
    apply (Permutation_NoDup (l := k :: map fst d));
      [apply Permutation_cons_append | now constructor].
Qed.

Lemma store_remove_customer_then_get (s : DataStore.t) (customer_id : string) :
  NoDup (Dict.keys (DataStore.customers s)) ->
  let s' := snd (DataStore.remove_customer s customer_id) in
  Spec.observed_customer s' customer_id = None
  /\ (forall other, other <> customer_id ->
        Spec.observed_customer s' other = Spec.observed_customer s other)
  /\ DataStore.agents s' = DataStore.agents s
  /\ DataStore.routing_results s' = DataStore.routing_results s
  /\ DatabaseManager.agents (DataStore.db s')
     = DatabaseManager.agents (DataStore.db s)
  /\ DatabaseManager.up (DataStore.db s') = DatabaseManager.up (DataStore.db s).
Proof.
  intros Hnd s'.
  assert (H : DataStore.db s'
              = snd (DatabaseManager.remove_customer (DataStore.db s)
                                                     customer_id)
              /\ DataStore.customers s'
                 = Dict.del (DataStore.customers s) customer_id
              /\ DataStore.agents s' = DataStore.agents s
              /\ DataStore.routing_results s' = DataStore.routing_results s).
  { subst s'. unfold DataStore.remove_customer.
    destruct (DatabaseManager.remove_customer (DataStore.db s) customer_id)
      as [ok db'].
    cbn [DataStore.set_db DataStore.customers snd]. unfold Dict.mem.
    destruct (Dict.get (DataStore.customers s) customer_id) eqn:G;
      cbn; repeat split; auto.
    symmetry. now apply dict_del_absent. }
  destruct H as (Hdb & Hcust & Hag & Hrr).
  repeat split; auto.
  - unfold Spec.observed_customer, DataStore.get_customer.
    rewrite Hdb, db_get_customer_after_remove, String.eqb_refl, Hcust.
    cbn [fst]. now apply dict_get_del_eq.
  - intros other N. unfold Spec.observed_customer, DataStore.get_customer.
    rewrite Hdb, db_get_customer_after_remove,
      (proj2 (String.eqb_neq other customer_id) N), Hcust.
    destruct (DatabaseManager.get_customer (DataStore.db s) other);
      cbn [fst]; [reflexivity|].
    apply dict_get_del_neq. congruence.
  - rewrite Hdb. unfold DatabaseManager.remove_customer.
    now destruct (DatabaseManager.up (DataStore.db s)).
  - rewrite Hdb. apply db_remove_customer_up.
Qed.

(** X20. A manual assignment of a customer and an agent that the store
    answers, the agent being available: the endpoint answers a result with
    the drawn id, the two ids of the request, no names, the predictor's
    score for the pair, the request's reasoning as only line, and status
    active. The result is stored under its id; the customer can no longer
    be looked up and every other customer is looked up as before. The
    agents table is not written: when SQLite answers the agent's row the
    next lookup answers that row, without the increment; otherwise it
    answers the agent with one conversation more. *)
Theorem manual_route_records_and_dequeues
        (routing_engine : RoutingEngine.t) (uuid : string)
        (assignment : ManualAssignment.t) (s : DataStore.t)
        (customer : Customer.t) (agent : Agent.t) :
  let cid := ManualAssignment.customer_id assignment in
  let aid := ManualAssignment.agent_id assignment in
  NoDup (Dict.keys (DataStore.customers s)) ->
  Spec.observed_customer s cid = Some customer ->
  Spec.observed_agent s aid = Some agent ->
  Agent.status agent = available ->
  let out := App.manual_route routing_engine uuid assignment s in
  let result :=
    RoutingResult.mk uuid cid aid None None
      (RoutingScorePredictor.predict_routing_score
         (RoutingEngine.predictor routing_engine) customer agent)
      [ManualAssignment.reasoning assignment] active None None None in
  fst out = Success (result, "Manual routing completed"%string)
  /\ Dict.get (DataStore.routing_results (snd out)) uuid = Some result
  /\ Spec.observed_customer (snd out) cid = None
  /\ (forall other, other <> cid ->
        Spec.observed_customer (snd out) other
        = Spec.observed_customer s other)
  /\ DatabaseManager.agents (DataStore.db (snd out))
     = DatabaseManager.agents (DataStore.db s)
  /\ Spec.observed_agent (snd out) aid
     = match DatabaseManager.get_agent (DataStore.db s) aid with
       | Some row => Some row
       | None => Some (Agent.set_current_workload agent
                         (Agent.current_workload agent + 1))
       end.
Proof.
  intros cid aid Hnd Hc Ha Hs out result.
  pose proof (get_customer_frame s cid) as Fc. cbv zeta in Fc.
  destruct Fc as (Cdb & Cag & Crr & _).
  pose proof (get_agent_frame (snd (DataStore.get_customer s cid)) aid) as Fa.
  cbv zeta in Fa. destruct Fa as (Adb & Acu & Arr).
  assert (Hnd1 : NoDup (Dict.keys (DataStore.customers
                                     (snd (DataStore.get_customer s cid))))).
  { unfold DataStore.get_customer.
    destruct (DatabaseManager.get_customer (DataStore.db s) cid);
      cbn [snd DataStore.set_customers DataStore.customers];
      [now apply dict_set_keys_NoDup | exact Hnd]. }
  assert (Ha1 : fst (DataStore.get_agent (snd (DataStore.get_customer s cid))
                                         aid) = Some agent).
  { rewrite <- Ha. apply (observed_agent_ext _ s aid Cdb Cag). }
  assert (Hoc : forall id,
             Spec.observed_customer
               (snd (DataStore.get_agent (snd (DataStore.get_customer s cid))
                                         aid)) id
             = Spec.observed_customer s id).
  { intros id.
    rewrite (observed_customer_ext _ (snd (DataStore.get_customer s cid)) id
               Adb Acu).
    apply observed_customer_after_get_customer. }
  unfold Spec.observed_customer in Hc.
  subst out. unfold App.manual_route. fold cid aid.
  destruct (DataStore.get_customer s cid) as [c1 s1].
  cbn [fst snd] in *. subst c1.
  destruct (DataStore.get_agent s1 aid) as [a1 s2].
  cbn [fst snd] in *. subst a1.
  rewrite Hs. cbn [AgentStatus_eqb negb]. fold result.
  set (agent' := Agent.set_current_workload agent
                   (Agent.current_workload agent + 1)).
  set (s3 := DataStore.set_agents (DataStore.add_routing_result s2 result)
               (Dict.set
                  (DataStore.agents (DataStore.add_routing_result s2 result))
                  aid agent')).
  assert (Hnd3 : NoDup (Dict.keys (DataStore.customers s3)))
    by (subst s3; cbn; now rewrite Acu).
  pose proof (store_remove_customer_then_get s3 cid Hnd3) as R.
  cbv zeta in R. destruct R as (Rgone & Rother & Rag & Rrr & Rtab & Rup).
  destruct (DataStore.remove_customer s3 cid) as [ok s4].
  cbn [fst snd] in *.
  repeat split.
  - rewrite Rrr. subst s3. cbn. apply dict_get_set_eq.
  - exact Rgone.
  - intros other N. rewrite (Rother other N), <- (Hoc other).
    apply observed_customer_ext; reflexivity.
  - rewrite Rtab. subst s3. cbn. now rewrite Adb, Cdb.
  - unfold Spec.observed_agent, DataStore.get_agent.
    assert (Hrow : DatabaseManager.get_agent (DataStore.db s4) aid
                   = DatabaseManager.get_agent (DataStore.db s) aid).
    { unfold DatabaseManager.get_agent. rewrite Rup, Rtab.
      subst s3. cbn. now rewrite Adb, Cdb. }
    rewrite Hrow.
    destruct (DatabaseManager.get_agent (DataStore.db s) aid);
      cbn [fst]; [reflexivity|].
    rewrite Rag. subst s3. cbn. apply dict_get_set_eq.
Qed.

End ManualAssignments.

Lemma manual_route_records_witness :
  NoDup (Dict.keys (DataStore.customers Spec.memory_store))
  /\ Spec.observed_customer
       (snd (App.manual_route (RoutingEngine.__init__ None) "u1"
               Spec.assign_patient_to_sarah Spec.memory_store)) "c2" = None.
Proof.
  assert (H : NoDup (Dict.keys (DataStore.customers Spec.memory_store))).
  { cbn. repeat constructor; cbn; intuition discriminate. }
  split; [exact H|].
  exact (proj1 (proj2 (proj2
           (manual_route_records_and_dequeues
              (RoutingEngine.__init__ None) "u1"%string
              Spec.assign_patient_to_sarah Spec.memory_store
              Spec.patient_customer (Spec.sarah 2)
              H eq_refl eq_refl eq_refl)))).
Defined.

(** ** The listing of the agents *)

Section AgentListing.

Lemma ascii_compare_lt_trans (a b c : Ascii.ascii) :
  Ascii.compare a b = Lt -> Ascii.compare b c = Lt -> Ascii.compare a c = Lt.
Proof.
  unfold Ascii.compare. rewrite !N.compare_lt_iff. lia.
Qed.

Lemma string_compare_lt_trans (x : string) : forall y z : string,
  String.compare x y = Lt -> String.compare y z = Lt ->
  String.compare x z = Lt.
Proof.
  induction x as [|a x IH]; intros [|b y] [|c z]; cbn [String.compare];
    try discriminate; auto.
  destruct (Ascii.compare a b) eqn:Eab; try discriminate;
    destruct (Ascii.compare b c) eqn:Ebc; try discriminate; intros Hxy Hyz.
  - apply Ascii.compare_eq_iff in Eab, Ebc. subst b c.
    assert (E : Ascii.compare a a = Eq)
      by (unfold Ascii.compare; apply N.compare_refl).
    rewrite E. now apply (IH y z).
  - apply Ascii.compare_eq_iff in Eab. subst b. now rewrite Ebc.
  - apply Ascii.compare_eq_iff in Ebc. subst c. now rewrite Eab.
  - now rewrite (ascii_compare_lt_trans a b c Eab Ebc).
Qed.

(** [x] is not after [y] in the order of [ORDER BY name ASC]. *)
Lemma not_after_trans (x y z : string) :
  String.ltb y x = false -> String.ltb z y = false -> String.ltb z x = false.
Proof.
  unfold String.ltb. intros Hxy Hyz.
  destruct (String.compare z x) eqn:Ezx; auto. exfalso.
  destruct (String.compare y x) eqn:Eyx; try discriminate.
  - apply String.compare_eq_iff in Eyx. subst y. now rewrite Ezx in Hyz.
  - rewrite String.compare_antisym in Eyx.
    destruct (String.compare x y) eqn:Exy; try discriminate.
    now rewrite (string_compare_lt_trans z x y Ezx Exy) in Hyz.
Qed.

Lemma ltb_not_after (x y : string) :
  String.ltb x y = true -> String.ltb y x = false.
Proof.
  unfold String.ltb. rewrite (String.compare_antisym x y).
  now destruct (String.compare y x).
Qed.

Lemma insert_by_name_sorted (a : Agent.t) (l : list Agent.t) :
  StronglySorted
    (fun x y => String.ltb (Agent.name y) (Agent.name x) = false) l ->
  StronglySorted
    (fun x y => String.ltb (Agent.name y) (Agent.name x) = false)
    (DatabaseManager.insert_by_name a l).
Proof.
  induction 1 as [|b l Hs IH Hb]; cbn [DatabaseManager.insert_by_name].
  - constructor; constructor.
  - destruct (String.ltb (Agent.name a) (Agent.name b)) eqn:E.
    + assert (Hab : String.ltb (Agent.name b) (Agent.name a) = false)
        by now apply ltb_not_after.
      constructor; [now constructor|].
      constructor; [exact Hab|].
      eapply Forall_impl; [|exact Hb].
      intros x Hx. cbv beta in *.
      now apply (not_after_trans (Agent.name a) (Agent.name b) (Agent.name x)).
    + constructor; [exact IH|].
      apply Forall_forall. intros x Hx.
      apply (Permutation_in _ (insert_by_name_perm a l)) in Hx.
      destruct Hx as [<- | Hx]; [exact E|].
      rewrite Forall_forall in Hb. now apply Hb.
Qed.

(** X21. While SQLite answers, the table's get_agents lists every row of
    the agents table exactly once (as an Agent with the default, empty
    skills) and in ascending order of the names; when SQLite fails it
    lists nothing, which makes the store fall back on its in-memory
    agents. *)
Theorem table_agents_are_listed_by_name (s : DataStore.t) :
  let db := DataStore.db s in
  let listed := DatabaseManager.get_agents db in
  (if DatabaseManager.up db
   then Permutation listed
          (map DatabaseManager.agent_of_row (DatabaseManager.agents db))
   else listed = [])
  /\ StronglySorted
       (fun x y => String.ltb (Agent.name y) (Agent.name x) = false) listed
  /\ fst (DataStore.get_agents s)
     = match listed with
       | [] => Dict.values (DataStore.agents s)
       | _ :: _ => listed
       end.
Proof.
  intros db listed. subst listed. unfold DatabaseManager.get_agents.
  repeat split.
  - destruct (DatabaseManager.up db); [|reflexivity].
    apply Permutation_map, order_by_name_perm.
  - destruct (DatabaseManager.up db); [|constructor].
    rewrite <- (order_by_name_map DatabaseManager.agent_of_row)
      by reflexivity.
    unfold DatabaseManager.order_by_name.
    assert (G : forall l acc,
               StronglySorted
                 (fun x y => String.ltb (Agent.name y) (Agent.name x) = false)
                 acc ->
               StronglySorted
                 (fun x y => String.ltb (Agent.name y) (Agent.name x) = false)
                 (fold_left
                    (fun sorted a => DatabaseManager.insert_by_name a sorted)
                    l acc)).
    { induction l as [|a l IH]; intros acc Hacc; cbn [fold_left]; auto.
      apply IH. now apply insert_by_name_sorted. }
    apply G. constructor.
  - unfold DataStore.get_agents, DatabaseManager.get_agents. fold db.
    now destruct (if DatabaseManager.up db then _ else _).
Qed.

End AgentListing.

(** ** Lookups *)

Section Lookups.

(** X22. The two lookups of the store fill its cache once: asking again
    for the same id answers the same agent (customer) and leaves the store
    exactly as the first lookup left it; neither lookup touches the table
    or the routing results. *)
Theorem lookups_are_idempotent (s : DataStore.t) (id : string) :
  DataStore.get_agent (snd (DataStore.get_agent s id)) id
  = DataStore.get_agent s id
  /\ DataStore.get_customer (snd (DataStore.get_customer s id)) id
     = DataStore.get_customer s id
  /\ DataStore.db (snd (DataStore.get_agent s id)) = DataStore.db s
  /\ DataStore.db (snd (DataStore.get_customer s id)) = DataStore.db s
  /\ DataStore.routing_results (snd (DataStore.get_agent s id))
     = DataStore.routing_results s
  /\ DataStore.routing_results (snd (DataStore.get_customer s id))
     = DataStore.routing_results s.
Proof.
  repeat split.
  - unfold DataStore.get_agent.
    destruct (DatabaseManager.get_agent (DataStore.db s) id) as [row|] eqn:E;
      cbn [snd DataStore.set_agents DataStore.db DataStore.agents];
      rewrite E; [|reflexivity].
    now rewrite (dict_set_same _ id row (dict_get_set_eq _ id row)).
  - unfold DataStore.get_customer.
    destruct (DatabaseManager.get_customer (DataStore.db s) id)
      as [row|] eqn:E;
      cbn [snd DataStore.set_customers DataStore.db DataStore.customers];
      rewrite E; [|reflexivity].
    now rewrite (dict_set_same _ id row (dict_get_set_eq _ id row)).
  - apply get_agent_frame.
  - apply get_customer_frame.
  - apply get_agent_frame.
  - apply get_customer_frame.
Qed.

End Lookups.

(** ** The routing endpoint keeps the agents within their capacity *)

Section Capacity.

Import SpecMore.

Lemma dict_get_some_in {V : Type} (d : Dict.t V) (k : string) (v : V) :
  Dict.get d k = Some v -> In (k, v) d.
Proof.
  induction d as [|[k0 v0] d IH]; cbn [Dict.get]; [discriminate|].
  destruct (String.eqb_spec k k0) as [->|N].
  - intros [= ->]. now left.
  - intros H. right. now apply IH.
Qed.

Lemma dict_get_set {V : Type} (d : Dict.t V) (k k' : string) (v : V) :
  Dict.get (Dict.set d k v) k'
  = if String.eqb k' k then Some v else Dict.get d k'.
Proof.
  destruct (String.eqb_spec k' k) as [->|N].
  - apply dict_get_set_eq.
  - apply dict_get_set_neq. congruence.
Qed.

Lemma keyed_keyed_get (cache : Dict.t Agent.t) :
  keyed cache -> keyed_get cache.
Proof.
  intros H k v G. apply dict_get_some_in in G. exact (H (k, v) G).
Qed.

Lemma keyed_get_set (cache : Dict.t Agent.t) (k : string) (agent : Agent.t) :
  keyed_get cache -> Agent.id agent = k -> keyed_get (Dict.set cache k agent).
Proof.
  intros H E k' v. rewrite dict_get_set.
  destruct (String.eqb_spec k' k) as [->|N]; [now intros [= <-] | apply H].
Qed.

(** What [get_agent] answers depends on the table's agents and on the
    cache only. *)
Lemma observed_agent_view (s1 s2 : DataStore.t) (id : string) :
  DatabaseManager.up (DataStore.db s1) = DatabaseManager.up (DataStore.db s2) ->
  DatabaseManager.agents (DataStore.db s1)
  = DatabaseManager.agents (DataStore.db s2) ->
  DataStore.agents s1 = DataStore.agents s2 ->
  Spec.observed_agent s1 id = Spec.observed_agent s2 id.
Proof.
  unfold Spec.observed_agent, DataStore.get_agent, DatabaseManager.get_agent.
  intros -> -> ->.
  now destruct (if DatabaseManager.up (DataStore.db s2) then _ else _).
Qed.

Lemma db_get_agent_after_workload (db : DatabaseManager.t)
      (agent_id other : string) (workload : Z) :
  DatabaseManager.fits_integer workload = true ->
  DatabaseManager.get_agent
    (snd (DatabaseManager.update_agent_workload db agent_id workload)) other
  = if String.eqb other agent_id
    then option_map (fun a => Agent.set_current_workload a workload)
                    (DatabaseManager.get_agent db other)
    else DatabaseManager.get_agent db other.
Proof.
  intros Hfits. unfold DatabaseManager.update_agent_workload. rewrite Hfits.
  destruct (DatabaseManager.up db) eqn:U; cbn [andb snd].
  - apply (db_get_agent_after_update db agent_id other
             (fun a => Agent.set_current_workload a workload));
      reflexivity.
  - unfold DatabaseManager.get_agent. rewrite U.
    now destruct (String.eqb other agent_id).
Qed.

(** A write for an agent that the table does not answer changes what the
    table answers for no agent. *)
Lemma db_get_agent_after_lost_write (db : DatabaseManager.t)
      (agent_id other : string) (workload : Z) :
  DatabaseManager.get_agent db agent_id = None ->
  DatabaseManager.get_agent
    (snd (DatabaseManager.update_agent_workload db agent_id workload)) other
  = DatabaseManager.get_agent db other.
Proof.
  intros Hnone. unfold DatabaseManager.update_agent_workload.
  destruct (DatabaseManager.up db && DatabaseManager.fits_integer workload)
    eqn:W; cbn [snd]; [|reflexivity].
  apply andb_true_iff in W. destruct W as [U _].
  rewrite (db_get_agent_after_update db agent_id other
             (fun a => Agent.set_current_workload a workload))
    by reflexivity.
  destruct (String.eqb_spec other agent_id) as [->|N]; [|reflexivity].
  now rewrite Hnone.
Qed.

Lemma db_customer_writes_keep_agents (db : DatabaseManager.t)
      (customer_id status : string) :
  DatabaseManager.agents
    (snd (DatabaseManager.update_customer_status db customer_id status))
  = DatabaseManager.agents db
  /\ DatabaseManager.agents
       (snd (DatabaseManager.remove_customer db customer_id))
     = DatabaseManager.agents db.
Proof.
  unfold DatabaseManager.update_customer_status,
    DatabaseManager.remove_customer.
  destruct (DatabaseManager.up db); split; reflexivity.
Qed.

Lemma store_remove_customer_view (s : DataStore.t) (customer_id : string) :
  let s' := snd (DataStore.remove_customer s customer_id) in
  DatabaseManager.up (DataStore.db s') = DatabaseManager.up (DataStore.db s)
  /\ DatabaseManager.agents (DataStore.db s')
     = DatabaseManager.agents (DataStore.db s)
  /\ DataStore.agents s' = DataStore.agents s.
Proof.
  unfold DataStore.remove_customer.
  pose proof (db_remove_customer_up (DataStore.db s) customer_id) as U.
  destruct (db_customer_writes_keep_agents (DataStore.db s) customer_id
                                           "routed") as [_ A].
  destruct (DatabaseManager.remove_customer (DataStore.db s) customer_id)
    as [ok db'].
  cbn [snd] in U, A. cbn [DataStore.set_db DataStore.customers].
  destruct (Dict.mem (DataStore.customers s) customer_id);
    cbn; repeat split; assumption.
Qed.

(** One turn of the loop of [auto_route], seen through [get_agent]. *)
Lemma auto_route_body_observed (result : RoutingResult.t) (s : DataStore.t) :
  keyed_get (DataStore.agents s) ->
  (forall row,
      DatabaseManager.get_agent (DataStore.db s)
                                (RoutingResult.agent_id result) = Some row ->
      DatabaseManager.fits_integer (Agent.current_workload row + 1) = true) ->
  exists s',
    auto_route_body result s = (Ok tt, s')
    /\ keyed_get (DataStore.agents s')
    /\ (forall id,
          Spec.observed_agent s' id
          = if String.eqb id (RoutingResult.agent_id result)
            then option_map one_more
                   (Spec.observed_agent s (RoutingResult.agent_id result))
            else Spec.observed_agent s id)
    /\ (forall id,
          id <> RoutingResult.agent_id result ->
          DatabaseManager.get_agent (DataStore.db s') id
          = DatabaseManager.get_agent (DataStore.db s) id).
Proof.
  intros Hkeyed Hfit.
  set (a := RoutingResult.agent_id result) in *.
  set (s1 := DataStore.add_routing_result s result).
  assert (Hobs1 : forall id, Spec.observed_agent s1 id = Spec.observed_agent s id)
    by (intros id; apply observed_agent_view; reflexivity).
  pose proof (fun id => observed_agent_after_get_agent s1 a id) as Hobs2.
  destruct (get_agent_frame s1 a) as (Fdb & _ & _).
  assert (Hans : fst (DataStore.get_agent s1 a) = Spec.observed_agent s a)
    by (rewrite <- Hobs1; reflexivity).
  assert (Hkeyed2 : keyed_get (DataStore.agents (snd (DataStore.get_agent s1 a)))
                    /\ forall agent,
                         fst (DataStore.get_agent s1 a) = Some agent ->
                         Agent.id agent = a).
  { unfold DataStore.get_agent.
    destruct (DatabaseManager.get_agent (DataStore.db s1) a) as [row|] eqn:E;
      cbn [fst snd DataStore.set_agents DataStore.agents].
    - pose proof (db_get_agent_id _ _ _ E) as Hid.
      split; [now apply keyed_get_set | now intros agent [= <-]].
    - split; [exact Hkeyed | intros agent G; now apply Hkeyed]. }
  destruct Hkeyed2 as [Hk2 Hid].
  unfold auto_route_body. fold a. unfold bindH, exec, call. fold s1.
  destruct (DataStore.get_agent s1 a) as [[agent|] s2]; cbn [fst snd] in *.
  - specialize (Hid agent eq_refl).
    unfold store_agent, exec_db, exec, ret.
    match goal with
    | |- context [DataStore.remove_customer ?x _] => set (s3 := x)
    end.
    pose proof (store_remove_customer_view
                  s3 (RoutingResult.customer_id result)) as V.
    cbv zeta in V. destruct V as (Vup & Vag & Vcache).
    destruct (DataStore.remove_customer s3 _) as [ok s4]. cbn [snd] in *.
    exists s4. split; [reflexivity|].
    assert (Cache4 : DataStore.agents s4
                     = Dict.set (DataStore.agents s2) a (one_more agent))
      by (rewrite Vcache; reflexivity).
    split; [rewrite Cache4; now apply keyed_get_set|].
    assert (Hdb4 : forall id,
               DatabaseManager.get_agent (DataStore.db s4) id
               = DatabaseManager.get_agent
                   (snd (DatabaseManager.update_agent_workload
                           (DataStore.db s2) a
                           (Agent.current_workload agent + 1))) id).
    { intros id. unfold DatabaseManager.get_agent. rewrite Vup, Vag. subst s3.
      cbn [DataStore.set_db DataStore.db].
      rewrite db_update_customer_status_up.
      rewrite (proj1 (db_customer_writes_keep_agents _ _ _)).
      cbn [DataStore.set_agents DataStore.db one_more
           Agent.set_current_workload Agent.id Agent.current_workload].
      rewrite Hid. reflexivity. }
    assert (Hs2a : Spec.observed_agent s2 a = Some agent)
      by (rewrite Hobs2, Hobs1, <- Hans; reflexivity).
    unfold Spec.observed_agent, DataStore.get_agent in Hs2a.
    assert (Hrow : forall id,
               DatabaseManager.get_agent (DataStore.db s4) id
               = if String.eqb id a
                 then option_map one_more
                        (DatabaseManager.get_agent (DataStore.db s2) id)
                 else DatabaseManager.get_agent (DataStore.db s2) id).
    { intros id. rewrite Hdb4.
      destruct (DatabaseManager.get_agent (DataStore.db s2) a) as [row|] eqn:G.
      - cbn [fst] in Hs2a. injection Hs2a as ->.
        rewrite db_get_agent_after_workload
          by (apply Hfit; rewrite <- G, Fdb; reflexivity).
        destruct (String.eqb_spec id a) as [E|N]; [|reflexivity].
        rewrite E, G. reflexivity.
      - rewrite (db_get_agent_after_lost_write _ a id _ G).
        destruct (String.eqb_spec id a) as [E|N]; [|reflexivity].
        rewrite E, G. reflexivity. }
    split.
    + intros id.
      rewrite <- Hans, <- (Hobs1 id), <- (Hobs2 id).
      unfold Spec.observed_agent. unfold DataStore.get_agent.
      rewrite Hrow, Cache4, dict_get_set.
      destruct (String.eqb_spec id a) as [E|N]; cbn [option_map].
      * rewrite E.
        destruct (DatabaseManager.get_agent (DataStore.db s2) a) as [row|];
          cbn [fst option_map] in *; [|reflexivity].
        injection Hs2a as ->. reflexivity.
      * now destruct (DatabaseManager.get_agent (DataStore.db s2) id).
    + intros id N. rewrite Hrow, (proj2 (String.eqb_neq id a) N), Fdb.
      reflexivity.
  - unfold exec_db, ret.
    match goal with
    | |- context [DataStore.remove_customer ?x _] => set (s3 := x)
    end.
    pose proof (store_remove_customer_view
                  s3 (RoutingResult.customer_id result)) as V.
    cbv zeta in V. destruct V as (Vup & Vag & Vcache).
    destruct (DataStore.remove_customer s3 _) as [ok s4]. cbn [snd] in *.
    exists s4. split; [reflexivity|].
    split; [rewrite Vcache; exact Hk2|].
    assert (Hup4 : DatabaseManager.up (DataStore.db s4)
                   = DatabaseManager.up (DataStore.db s2))
      by (rewrite Vup; subst s3; cbn [DataStore.set_db DataStore.db];
          apply db_update_customer_status_up).
    assert (Hag4 : DatabaseManager.agents (DataStore.db s4)
                   = DatabaseManager.agents (DataStore.db s2))
      by (rewrite Vag; subst s3; cbn [DataStore.set_db DataStore.db];
          apply db_customer_writes_keep_agents).
    split.
    + intros id. rewrite <- Hans. cbn [option_map].
      assert (E : Spec.observed_agent s4 id = Spec.observed_agent s2 id).
      { apply observed_agent_view; [exact Hup4 | exact Hag4 |].
        rewrite Vcache. reflexivity. }
      rewrite E, Hobs2, Hobs1.
      destruct (String.eqb_spec id a) as [Eid|N]; [rewrite Eid|reflexivity].
      rewrite <- Hobs1. unfold Spec.observed_agent.
      rewrite <- (Hobs1 a) in Hans. unfold Spec.observed_agent in Hans.
      now rewrite <- Hans.
    + intros id _. unfold DatabaseManager.get_agent.
      rewrite Hup4, Hag4, Fdb. reflexivity.
Qed.

Lemma auto_route_loop_observed (results : list RoutingResult.t) :
  forall s : DataStore.t,
    keyed_get (DataStore.agents s) ->
    NoDup (map RoutingResult.agent_id results) ->
    (forall r row,
        In r results ->
        DatabaseManager.get_agent (DataStore.db s) (RoutingResult.agent_id r)
        = Some row ->
        DatabaseManager.fits_integer (Agent.current_workload row + 1) = true) ->
    exists s',
      for_each results auto_route_body s = (Ok tt, s')
      /\ forall id,
           Spec.observed_agent s' id
           = if routed results id
             then option_map one_more (Spec.observed_agent s id)
             else Spec.observed_agent s id.
Proof.
  induction results as [|r results IH]; intros s Hk Hnd Hfit.
  - exists s. split; reflexivity.
  - cbn [map] in Hnd. inversion Hnd as [|? ? Hfresh Hnd']; subst.
    destruct (auto_route_body_observed r s Hk)
      as (s1 & E1 & Hk1 & Hobs1 & Hdb1);
      [intros row; apply Hfit; now left|].
    destruct (IH s1 Hk1 Hnd') as (s2 & E2 & Hobs2).
    { intros r' row Hr' G. apply (Hfit r' row); [now right|].
      rewrite <- G. symmetry. apply Hdb1.
      intros E. apply Hfresh. rewrite <- E. now apply in_map. }
    exists s2. cbn [for_each]. unfold bindH at 1. rewrite E1.
    split; [exact E2|].
    intros id. rewrite Hobs2, !Hobs1. unfold routed. cbn [map existsb].
    destruct (String.eqb_spec id (RoutingResult.agent_id r)) as [->|N];
      cbn [orb].
    + destruct (existsb _ (map RoutingResult.agent_id results)) eqn:X;
        [|reflexivity].
      exfalso. apply Hfresh. apply existsb_exists in X.
      destruct X as (x & Hx & Ex). apply String.eqb_eq in Ex. now subst x.
    + reflexivity.
Qed.

Lemma fold_set_get_other {A : Type} (key : A -> string) (value : A -> Agent.t)
      (l : list A) (k : string) : forall d : Dict.t Agent.t,
  ~ In k (map key l) ->
  Dict.get (fold_left (fun d x => Dict.set d (key x) (value x)) l d) k
  = Dict.get d k.
Proof.
  induction l as [|x l IH]; intros d Hn; cbn [fold_left]; [reflexivity|].
  cbn [map In] in Hn. rewrite IH by tauto.
  apply dict_get_set_neq. tauto.
Qed.

Lemma fold_set_keyed_get (l : list Agent.t) : forall d : Dict.t Agent.t,
  keyed_get d ->
  keyed_get (fold_left (fun d x => Dict.set d (Agent.id x) x) l d).
Proof.
  induction l as [|x l IH]; intros d H; cbn [fold_left]; [exact H|].
  apply IH. now apply keyed_get_set.
Qed.

Lemma find_by_id_unique (rows : list Agent.t) (row : Agent.t) :
  NoDup (map Agent.id rows) -> In row rows ->
  find (fun r => String.eqb (Agent.id r) (Agent.id row)) rows = Some row.
Proof.
  induction rows as [|r rows IH]; intros Hnd Hin; [destruct Hin|].
  cbn [map] in Hnd. inversion Hnd as [|? ? Hfresh Hnd']; subst.
  cbn [find]. destruct (String.eqb_spec (Agent.id r) (Agent.id row)) as [E|N].
  - destruct Hin as [-> | Hin]; [reflexivity|].
    exfalso. apply Hfresh. rewrite E. now apply in_map.
  - destruct Hin as [-> | Hin]; [congruence | now apply IH].
Qed.

(** The agents that [get_agents] answers are the agents that [get_agent]
    answers under their ids, and no two of them share an id. *)
Lemma get_agents_observed (s : DataStore.t) :
  agents_wf s ->
  let s' := snd (DataStore.get_agents s) in
  (forall id, Spec.observed_agent s' id = Spec.observed_agent s id)
  /\ keyed_get (DataStore.agents s')
  /\ (forall agent, In agent (fst (DataStore.get_agents s)) ->
                    Spec.observed_agent s (Agent.id agent) = Some agent)
  /\ NoDup (map Agent.id (fst (DataStore.get_agents s))).
Proof.
  intros (Hkeys & Hkeyed & Hids & _).
  pose proof (keyed_keyed_get _ Hkeyed) as Hkg.
  unfold DataStore.get_agents.
  destruct (DatabaseManager.get_agents (DataStore.db s)) as [|a0 rest] eqn:E;
    cbn [fst snd].
  - repeat split; auto.
    + intros agent Hin. unfold Dict.values in Hin. apply in_map_iff in Hin.
      destruct Hin as ([k v] & <- & Hin). cbn [snd].
      pose proof (Hkeyed (k, v) Hin) as Hid. cbn [fst snd] in Hid.
      unfold Spec.observed_agent, DataStore.get_agent.
      assert (D : DatabaseManager.get_agent (DataStore.db s) (Agent.id v)
                  = None).
      { unfold DatabaseManager.get_agent.
        destruct (get_agents_nil _ E) as [-> | ->]; [reflexivity|].
        now destruct (DatabaseManager.up (DataStore.db s)). }
      rewrite D. cbn [fst]. rewrite Hid. now apply dict_get_in.
    + replace (map Agent.id (Dict.values (DataStore.agents s)))
        with (Dict.keys (DataStore.agents s)); [exact Hkeys|].
      unfold Dict.keys, Dict.values. rewrite map_map.
      apply map_ext_in. intros kv Hin. symmetry. now apply Hkeyed.
  - rewrite <- E in *. clear a0 rest E.
    assert (Hin_rows : forall agent,
               In agent (DatabaseManager.get_agents (DataStore.db s)) ->
               DatabaseManager.get_agent (DataStore.db s) (Agent.id agent)
               = Some agent).
    { intros agent Hin. unfold DatabaseManager.get_agents in Hin.
      unfold DatabaseManager.get_agent.
      destruct (DatabaseManager.up (DataStore.db s)); [|destruct Hin].
      apply in_map_iff in Hin. destruct Hin as (row & <- & Hin).
      apply (Permutation_in _ (order_by_name_perm _)) in Hin.
      change (Agent.id (DatabaseManager.agent_of_row row)) with (Agent.id row).
      now rewrite (find_by_id_unique _ row Hids Hin). }
    repeat split.
    + intros id. unfold Spec.observed_agent, DataStore.get_agent.
      cbn [DataStore.set_agents DataStore.db DataStore.agents].
      destruct (DatabaseManager.get_agent (DataStore.db s) id) as [row|] eqn:G;
        cbn [fst]; [reflexivity|].
      apply (fold_set_get_other Agent.id (fun x => x)).
      intros Hin. apply in_map_iff in Hin. destruct Hin as (agent & <- & Hin).
      rewrite (Hin_rows agent Hin) in G. discriminate.
    + cbn [DataStore.set_agents DataStore.agents].
      now apply fold_set_keyed_get.
    + intros agent Hin. unfold Spec.observed_agent, DataStore.get_agent.
      now rewrite (Hin_rows agent Hin).
    + unfold DatabaseManager.get_agents.
      destruct (DatabaseManager.up (DataStore.db s)); [|constructor].
      rewrite map_map.
      apply (Permutation_NoDup
               (l := map Agent.id (DatabaseManager.agents (DataStore.db s))));
        [|exact Hids].
      symmetry.
      change (fun x => Agent.id (DatabaseManager.agent_of_row x))
        with Agent.id.
      apply Permutation_map, order_by_name_perm.
Qed.

Lemma forall2_in_left {A B : Type} (R : A -> B -> Prop)
      (l : list A) (l' : list B) (x : A) :
  Forall2 R l l' -> In x l -> exists y, In y l' /\ R x y.
Proof.
  induction 1 as [|a b l l' Hab _ IH]; intros Hin; [destruct Hin|].
  destruct Hin as [<- | Hin].
  - exists b. split; [now left | exact Hab].
  - destruct (IH Hin) as (y & Hy & Hr). exists y. split; [now right | exact Hr].
Qed.

Lemma pass_agents_distinct (available : list Agent.t)
      (results : list RoutingResult.t)
      (pairs : list (nat * (nat * nat * float))) :
  NoDup (map Agent.id available) ->
  NoDup (map (fun kt => Spec.agent_of (snd kt)) pairs) ->
  Forall2 (fun r kt =>
             exists agent,
               nth_error available (Spec.agent_of (snd kt)) = Some agent
               /\ RoutingResult.agent_id r = Agent.id agent)
          results pairs ->
  NoDup (map RoutingResult.agent_id results).
Proof.
  intros Hids Hnd Hall. revert Hnd.
  induction Hall as [|r kt results pairs Hr Hall IH]; intros Hnd;
    cbn [map] in *; [constructor|].
  inversion Hnd as [|? ? Hfresh Hnd']; subst.
  constructor; [|now apply IH].
  intros Hin. apply in_map_iff in Hin. destruct Hin as (r' & Eid & Hin).
  destruct (forall2_in_left _ _ _ r' Hall Hin) as (kt' & Hkt' & agent' & Hn' & E').
  destruct Hr as (agent & Hn & E).
  apply Hfresh. apply in_map_iff. exists kt'. split; [|exact Hkt'].
  apply (proj1 (NoDup_nth_error (map Agent.id available)) Hids).
  - rewrite length_map. apply nth_error_Some. congruence.
  - rewrite !nth_error_map, Hn, Hn'. cbn [option_map]. congruence.
Qed.

Lemma map_snd_combine {A B : Type} (l : list A) : forall l' : list B,
  List.length l = List.length l' -> map snd (combine l l') = l'.
Proof.
  induction l as [|x l IH]; intros [|y l'] H; cbn in *; try discriminate;
    [reflexivity|].
  f_equal. apply IH. now injection H.
Qed.

Lemma routable_ids_distinct (listed : list Agent.t) :
  NoDup (map Agent.id listed) ->
  NoDup (map Agent.id (filter RoutingEngine.is_routable listed)).
Proof.
  induction listed as [|agent listed IH]; cbn [map filter]; intros Hnd;
    [constructor|].
  inversion Hnd as [|? ? Hfresh Hnd']; subst.
  destruct (RoutingEngine.is_routable agent); cbn [map]; [|now apply IH].
  constructor; [|now apply IH].
  intros Hin. apply Hfresh. apply in_map_iff in Hin.
  destruct Hin as (other & <- & Hother).
  apply filter_In in Hother. apply in_map, Hother.
Qed.

(** The run of [auto_route]: the two reads, the pass, the loop. *)
Lemma auto_route_run
      (routing_engine : RoutingEngine.t) (format_1f : float -> string)
      (np_mean np_std : list float -> float) (uuid4 : nat -> string)
      (s : DataStore.t) :
  let s1 := snd (DataStore.get_customers s) in
  let customers := fst (DataStore.get_customers s) in
  let agents := fst (DataStore.get_available_agents s1) in
  let s2 := snd (DataStore.get_available_agents s1) in
  exists body,
    RoutingEngine.route_customers format_1f routing_engine uuid4
                                  customers agents
    = Ok (App.results body)
    /\ for_each (App.results body) auto_route_body s2
       = (Ok tt,
          snd (App.auto_route routing_engine format_1f np_mean np_std uuid4 s))
    /\ fst (App.auto_route routing_engine format_1f np_mean np_std uuid4 s)
       = Success body.
Proof.
  intros s1 customers agents s2.
  destruct (route_customers_pairs format_1f routing_engine uuid4
              customers agents) as (asg & results & _ & Hroute & _ & _).
  unfold App.auto_route.
  change (fun result : RoutingResult.t =>
            exec (fun s => DataStore.add_routing_result s result) ;;; _)
    with auto_route_body.
  unfold try_except, bindH, call.
  subst customers agents s2 s1.
  destruct (DataStore.get_customers s) as [customers s1]. cbn [fst snd] in *.
  destruct (DataStore.get_available_agents s1) as [agents s2].
  cbn [fst snd] in *.
  destruct customers as [|c0 customers'].
  { exists (App.mk_auto [] None App.NoCustomersInQueue).
    repeat split. }
  destruct agents as [|a0 agents'].
  { exists (App.mk_auto [] None App.NoAgentsAvailable).
    repeat split. }
  unfold pure. rewrite Hroute.
  destruct (auto_route_loop_runs results s2) as (s3 & E & _).
  rewrite E.
  exists (App.mk_auto results
            (Some (RoutingEngine.get_routing_statistics np_mean np_std
                     results))
            (App.SuccessfullyRouted (List.length results))).
  cbn [ret fst snd App.results]. repeat split; assumption.
Qed.

Lemma fits_integer_between (lo hi n : Z) :
  DatabaseManager.fits_integer lo = true ->
  DatabaseManager.fits_integer hi = true ->
  (lo <= n <= hi)%Z ->
  DatabaseManager.fits_integer n = true.
Proof.
  unfold DatabaseManager.fits_integer. rewrite !andb_true_iff, !Z.leb_le. lia.
Qed.

(** X23. POST /route keeps every agent within its capacity, when SQLite
    answers every statement of the request or fails every one of them
    (the availability of the table is one flag of the store). On a store
    whose in-memory agents are filed under their own ids and whose table
    has one row per id, holding 64-bit workloads and capacities, the results
    name pairwise different agents; every agent named by a result is
    answered afterwards with one conversation more, every other agent as
    before; and if no agent exceeded max_concurrent before the call, none
    does after it. *)
Theorem auto_route_keeps_agents_within_capacity
        (routing_engine : RoutingEngine.t) (format_1f : float -> string)
        (np_mean np_std : list float -> float) (uuid4 : nat -> string)
        (s : DataStore.t) :
  agents_wf s ->
  let out := App.auto_route routing_engine format_1f np_mean np_std uuid4 s in
  exists body,
    fst out = Success body
    /\ NoDup (map RoutingResult.agent_id (App.results body))
    /\ (forall id,
          Spec.observed_agent (snd out) id
          = if routed (App.results body) id
            then option_map one_more (Spec.observed_agent s id)
            else Spec.observed_agent s id)
    /\ (within_capacity s -> within_capacity (snd out)).
Proof.
  intros Hwf out.
  destruct (auto_route_run routing_engine format_1f np_mean np_std uuid4 s)
    as (body & Hroute & Hloop & Hans).
  fold out in Hloop, Hans.
  set (s1 := snd (DataStore.get_customers s)) in *.
  set (customers := fst (DataStore.get_customers s)) in *.
  assert (Hwf1 : agents_wf s1) by exact Hwf.
  assert (Hobs01 : forall id,
             Spec.observed_agent s1 id = Spec.observed_agent s id)
    by (intros id; apply observed_agent_view; reflexivity).
  destruct (get_agents_observed s1 Hwf1) as (Hobs12 & Hkeyed2 & Hlisted & Hids).
  destruct (store_get_agents_frame s1) as (Fdb2 & _ & _).
  assert (Hav : DataStore.get_available_agents s1
                = (filter RoutingEngine.is_routable
                          (fst (DataStore.get_agents s1)),
                   snd (DataStore.get_agents s1))).
  { unfold DataStore.get_available_agents.
    now destruct (DataStore.get_agents s1). }
  rewrite Hav in Hroute, Hloop. cbn [fst snd] in Hroute, Hloop.
  set (listed := fst (DataStore.get_agents s1)) in *.
  set (available := filter RoutingEngine.is_routable listed) in *.
  set (s2 := snd (DataStore.get_agents s1)) in *.
  (* the agents of the results *)
  destruct (route_customers_respects_capacity format_1f routing_engine uuid4
              customers available) as (results' & Hroute' & Hcap).
  rewrite Hroute in Hroute'. injection Hroute' as <-.
  rewrite Forall_forall in Hcap.
  assert (Hdistinct : NoDup (map RoutingResult.agent_id (App.results body))).
  { destruct (route_customers_pairs format_1f routing_engine uuid4
                customers available)
      as (asg & results' & Hsolve & Hroute' & _ & Hpairs).
    rewrite Hroute in Hroute'. injection Hroute' as <-.
    cbv zeta in Hsolve, Hpairs.
    unfold available in Hsolve, Hpairs at 1.
    rewrite filter_idempotent in Hsolve, Hpairs. fold available in Hsolve, Hpairs.
    destruct (perform_optimal_assignment_serves routing_engine customers
                available _
                (calculated_matrix_well_formed routing_engine customers
                                               available))
      as (asg' & Hsolve' & _ & Hnd & _).
    rewrite Hsolve in Hsolve'. injection Hsolve' as <-.
    apply (pass_agents_distinct available (App.results body)
             (combine (seq 0 (List.length asg)) asg)).
    - now apply routable_ids_distinct.
    - rewrite <- (map_map snd Spec.agent_of), map_snd_combine;
        [exact Hnd | apply List.length_seq].
    - eapply Forall2_impl; [|exact Hpairs].
      intros r kt (customer & agent & _ & Hn & ->).
      exists agent. now split. }
  assert (Hrouted : forall r,
             In r (App.results body) ->
             exists a,
               Spec.observed_agent s (RoutingResult.agent_id r) = Some a
               /\ (Agent.current_workload a < Agent.max_concurrent a)%Z).
  { intros r Hr. destruct (Hcap r Hr) as (a & Ha & Eid & _ & Hlt).
    apply filter_In in Ha. destruct Ha as [Ha _].
    pose proof (Hlisted a Ha) as Hobs_a.
    rewrite Hobs01, Eid in Hobs_a. now exists a. }
  assert (Hfit : forall r row,
             In r (App.results body) ->
             DatabaseManager.get_agent (DataStore.db s2)
                                       (RoutingResult.agent_id r) = Some row ->
             DatabaseManager.fits_integer (Agent.current_workload row + 1)
             = true).
  { intros r row Hr G.
    destruct (Hrouted r Hr) as (a & Hobs_a & Hlt).
    assert (Edb : DataStore.db s2 = DataStore.db s)
      by (rewrite Fdb2; reflexivity).
    rewrite Edb in G.
    unfold Spec.observed_agent, DataStore.get_agent in Hobs_a.
    rewrite G in Hobs_a. cbn [fst] in Hobs_a. injection Hobs_a as <-.
    unfold DatabaseManager.get_agent in G.
    destruct (DatabaseManager.up (DataStore.db s)); [|discriminate].
    destruct (find _ _) as [row0|] eqn:F; [|discriminate].
    cbn [option_map] in G. injection G as <-.
    apply find_some in F. destruct F as [Hin _].
    destruct Hwf as (_ & _ & _ & Hbits).
    rewrite Forall_forall in Hbits. destruct (Hbits row0 Hin) as [Hw Hm].
    cbn [DatabaseManager.agent_of_row Agent.set_skills Agent.current_workload
         Agent.max_concurrent] in *.
    apply (fits_integer_between (Agent.current_workload row0)
                                (Agent.max_concurrent row0)); auto. lia. }
  destruct (auto_route_loop_observed (App.results body) s2 Hkeyed2 Hdistinct
              Hfit) as (s3 & Hloop' & Hobs23).
  rewrite Hloop in Hloop'. injection Hloop' as <-.
  assert (Hobs : forall id,
             Spec.observed_agent (snd out) id
             = if routed (App.results body) id
               then option_map one_more (Spec.observed_agent s id)
               else Spec.observed_agent s id).
  { intros id. rewrite Hobs23, Hobs12, Hobs01. reflexivity. }
  exists body. repeat split; auto.
  intros Hbefore id agent Hid. rewrite Hobs in Hid.
  destruct (routed (App.results body) id) eqn:R;
    [|now apply (Hbefore id)].
  unfold routed in R. apply existsb_exists in R.
  destruct R as (x & Hx & Ex). apply String.eqb_eq in Ex. subst x.
  apply in_map_iff in Hx. destruct Hx as (r & Er & Hr).
  destruct (Hrouted r Hr) as (a & Hobs_a & Hlt).
  rewrite Er in Hobs_a. rewrite Hobs_a in Hid.
  cbn [option_map] in Hid. injection Hid as <-.
  cbn [one_more Agent.set_current_workload Agent.current_workload
       Agent.max_concurrent]. lia.
Qed.

End Capacity.

Lemma auto_route_keeps_capacity_witness :
  agents_wf Spec.backed_store
  /\ exists body,
       fst (App.auto_route (RoutingEngine.__init__ None) (fun _ => EmptyString)
              (fun _ => 0%float) (fun _ => 0%float) (fun _ => EmptyString)
              Spec.backed_store) = Success body.
Proof.
  assert (H : SpecMore.agents_wf Spec.backed_store).
  { repeat split.
    - cbn. repeat constructor; cbn; intuition discriminate.
    - intros kv [<- | []]. reflexivity.
    - cbn. repeat constructor; cbn; intuition discriminate.
    - repeat constructor. }
  split; [exact H|].
  destruct (auto_route_keeps_agents_within_capacity
              (RoutingEngine.__init__ None) (fun _ => EmptyString)
              (fun _ => 0%float) (fun _ => 0%float) (fun _ => EmptyString)
              Spec.backed_store H) as (body & Hbody & _).
  exists body. exact Hbody.
Defined.
